(** * Page-boundary discovery of amocrm-go-v4 (amocrm/pagination.go)

    A shallow embedding of [PaginationService.FindTotalPages],
    [FindTotalPagesConcurrent], their helper loops and
    [CreatePageChecker], followed by the properties of the finders.
    Around them: the leads and tasks listing endpoints and their page
    checkers, the client's authentication and request loop
    ([addAuth], [refreshToken], [do], [GetJSON]), [ExchangeCode], the
    decoding of task results and the next-link iteration of the
    pagination example.

    Conventions of the embedding:
    - Go's [int] is the 64-bit two's-complement integer of the usual
      targets: a [Z] kept in range by [GoInt.wrap] after every
      arithmetic operation;
    - a [PageChecker] is a function of the context and the page; every
      call is recorded, in call order, in a trace of probed pages that
      the finder threads through as state;
    - a Go [for] loop is a [Fixpoint] on a budget of loop-head
      evaluations; an exhausted budget is the [None] outcome (the loop
      was still running), with the trace issued so far;
    - a [context.Context] is observed through [ctx.Err()]: [Some e] when
      its [Done] channel is closed, [None] otherwise; in the first
      embedding of the finders it does not change while one search runs
      and the probe is a function of the context and the page, in the
      second one ([Stateful]) both depend on the calls made so far;
    - the two goroutines of a ternary round are run under an
      [Interleaving] that fixes which of them calls the checker first
      and which of them delivers its result first;
    - the client runs in a state monad over its own fields and a world
      (clock, network, storage, log); a call ends in an [Outcome], which
      tells a return from a panic, a fatal error of the runtime, a wait
      on a lock and an exhausted retry budget. *)

From Stdlib Require Import ZArith List String Ascii Bool Lia DecimalString.
From Stdlib Require DecimalPos DecimalZ.
From Stdlib Require Import Permutation.
Import ListNotations.
Local Open Scope Z_scope.

(** ** Go's [int] *)

Module GoInt.

Definition int_min : Z := - 2 ^ 63.
Definition int_max : Z := 2 ^ 63 - 1.

Definition in_int (z : Z) : Prop := int_min <= z <= int_max.

(** Two's-complement reduction into [int_min .. int_max]. *)
Definition wrap (z : Z) : Z := (z + 2 ^ 63) mod 2 ^ 64 - 2 ^ 63.

Definition add (a b : Z) : Z := wrap (a + b).
Definition sub (a b : Z) : Z := wrap (a - b).
Definition mul (a b : Z) : Z := wrap (a * b).
(** Go's [/] truncates toward zero. *)
Definition div (a b : Z) : Z := wrap (Z.quot a b).

End GoInt.

Import GoInt.

(** ** Errors and contexts *)

(** [Wrapf prefix e] is [fmt.Errorf(prefix + "%w", e)]. *)
Inductive error : Type :=
| Canceled
| DeadlineExceeded
| ErrorString (msg : string)
| Wrapf (prefix : string) (inner : error).

Record Context : Type := mkContext { ctx_Err : option error }.

(** [context.Background()] and a context whose [cancel] has been called. *)
Definition Background : Context := mkContext None.
Definition Cancelled : Context := mkContext (Some Canceled).

(** ** Links (common types) *)

Record Link : Type := mkLink { Href : string }.

Record Links : Type := mkLinks { Self : Link; Next : Link; Prev : Link }.

Definition HasNext (l : Links) : bool := negb (String.eqb (Href (Next l)) EmptyString).

(** ** Probes and the finder monad *)

Definition PageChecker : Type := Context -> Z -> bool * option error.

Definition Trace : Type := list Z.

(** A computation over the trace of probed pages; [None] is a loop whose
    budget ran out. *)
Definition M (A : Type) : Type := Trace -> option A * Trace.

Definition ret {A} (a : A) : M A := fun tr => (Some a, tr).

Definition bind {A B} (m : M A) (k : A -> M B) : M B :=
  fun tr =>
    match m tr with
    | (Some a, tr') => k a tr'
    | (None, tr') => (None, tr')
    end.

Definition out_of_fuel {A} : M A := fun tr => (None, tr).

Notation "x <- m ;; k" := (bind m (fun x => k))
  (at level 61, m at next level, right associativity).

(** [checker(ctx, page)]: the call is logged, then answered. *)
Definition call (checker : PageChecker) (ctx : Context) (page : Z)
  : M (bool * option error) :=
  fun tr => (Some (checker ctx page), tr ++ [page]).

Definition run {A} (m : M A) : option A * Trace := m [].
Definition result_of {A} (m : M A) : option A := fst (run m).
Definition trace_of {A} (m : M A) : Trace := snd (run m).

(** ** The sequential finder *)

(** The [for page < maxPage] loop of [findUpperBound]. *)
Fixpoint findUpperBound_loop (fuel : nat) (ctx : Context) (checker : PageChecker)
  (maxPage page : Z) : M (Z * option error) :=
  match fuel with
  | O => out_of_fuel
  | S fuel' =>
    if page <? maxPage then
      let nextPage := mul page 2 in
      let nextPage := if nextPage >? maxPage then maxPage else nextPage in
      r <- call checker ctx nextPage ;;
      match snd r with
      | Some err => ret (0, Some err)
      | None =>
        if negb (fst r) then ret (nextPage, None)
        else findUpperBound_loop fuel' ctx checker maxPage nextPage
      end
    else ret (maxPage, None)
  end.

Definition findUpperBound (fuel : nat) (ctx : Context) (checker : PageChecker)
  (maxPage : Z) : M (Z * option error) :=
  findUpperBound_loop fuel ctx checker maxPage 1.

(** The [for left <= right] loop of [binarySearch]. *)
Fixpoint binarySearch_loop (fuel : nat) (ctx : Context) (checker : PageChecker)
  (left right lastValidPage : Z) : M (Z * option error) :=
  match fuel with
  | O => out_of_fuel
  | S fuel' =>
    if left <=? right then
      match ctx_Err ctx with
      | Some cerr => ret (0, Some cerr)
      | None =>
        let mid := add left (div (sub right left) 2) in
        r <- call checker ctx mid ;;
        match snd r with
        | Some err => ret (0, Some err)
        | None =>
          if fst r
          then binarySearch_loop fuel' ctx checker (add mid 1) right mid
          else binarySearch_loop fuel' ctx checker left (sub mid 1) lastValidPage
        end
      end
    else ret (lastValidPage, None)
  end.

Definition binarySearch (fuel : nat) (ctx : Context) (checker : PageChecker)
  (left right : Z) : M (Z * option error) :=
  binarySearch_loop fuel ctx checker left right left.

Definition defaultMaxPage : Z := 100000.

Definition normalize (maxPage : Z) : Z :=
  if maxPage <=? 0 then defaultMaxPage else maxPage.

Definition msgPage1 : string := "failed to check page 1: "%string.
Definition msgUpperBound : string := "failed to find upper bound: "%string.
Definition msgBinarySearch : string := "binary search failed: "%string.

Definition FindTotalPages (fuel : nat) (ctx : Context) (checker : PageChecker)
  (maxPage : Z) : M (Z * option error) :=
  let maxPage := normalize maxPage in
  r <- call checker ctx 1 ;;
  match snd r with
  | Some err => ret (0, Some (Wrapf msgPage1 err))
  | None =>
    if negb (fst r) then ret (0, None)
    else
      ub <- findUpperBound fuel ctx checker maxPage ;;
      match snd ub with
      | Some err => ret (0, Some (Wrapf msgUpperBound err))
      | None =>
        let upperBound := fst ub in
        if upperBound =? maxPage then ret (maxPage, None)
        else
          lp <- binarySearch fuel ctx checker (div upperBound 2) upperBound ;;
          match snd lp with
          | Some err => ret (0, Some (Wrapf msgBinarySearch err))
          | None => ret (fst lp, None)
          end
      end
  end.

(** ** The concurrent finder *)

Fixpoint findUpperBoundConcurrent_loop (fuel : nat) (ctx : Context)
  (checker : PageChecker) (maxPage page : Z) : M (Z * option error) :=
  match fuel with
  | O => out_of_fuel
  | S fuel' =>
    if page <? maxPage then
      let nextPage := mul page 2 in
      let nextPage := if nextPage >? maxPage then maxPage else nextPage in
      r <- call checker ctx nextPage ;;
      match snd r with
      | Some err => ret (0, Some err)
      | None =>
        if negb (fst r) then ret (nextPage, None)
        else findUpperBoundConcurrent_loop fuel' ctx checker maxPage nextPage
      end
    else ret (maxPage, None)
  end.

Definition findUpperBoundConcurrent (fuel : nat) (ctx : Context)
  (checker : PageChecker) (maxPage : Z) : M (Z * option error) :=
  findUpperBoundConcurrent_loop fuel ctx checker maxPage 1.

(** The [result] struct sent over the channel. *)
Record result : Type := mkResult { res_page : Z; res_hasData : bool; res_err : option error }.

(** One ternary round's scheduling: [calls_swapped] when the goroutine of
    [mid2] reaches the checker first, [delivery_swapped] when it sends
    its result first. *)
Record Interleaving : Type :=
  mkInterleaving { calls_swapped : bool; delivery_swapped : bool }.

(** The interleaving of each round, by round number. *)
Definition Schedule : Type := nat -> Interleaving.

Definition in_order : Schedule := fun _ => mkInterleaving false false.

Definition next_round (sched : Schedule) : Schedule := fun n => sched (S n).

(** The two goroutines, [wg.Wait()] and [close(results)]: both probes are
    issued, and the channel holds both results in delivery order. *)
Definition probePair (il : Interleaving) (checker : PageChecker) (ctx : Context)
  (mid1 mid2 : Z) : M (list result) :=
  fun tr =>
    let r1 := checker ctx mid1 in
    let r2 := checker ctx mid2 in
    let res1 := mkResult mid1 (fst r1) (snd r1) in
    let res2 := mkResult mid2 (fst r2) (snd r2) in
    (Some (if delivery_swapped il then [res2; res1] else [res1; res2]),
     tr ++ (if calls_swapped il then [mid2; mid1] else [mid1; mid2])).

(** The [for res := range results] loop: the first error met ends it,
    otherwise the flags of [mid1] and [mid2] are updated. *)
Fixpoint collect (results : list result) (mid1 mid2 : Z)
  (mid1HasData mid2HasData : bool) : error + bool * bool :=
  match results with
  | [] => inr (mid1HasData, mid2HasData)
  | res :: rest =>
    match res_err res with
    | Some err => inl err
    | None =>
      if res_page res =? mid1
      then collect rest mid1 mid2 (res_hasData res) mid2HasData
      else if res_page res =? mid2
      then collect rest mid1 mid2 mid1HasData (res_hasData res)
      else collect rest mid1 mid2 mid1HasData mid2HasData
    end
  end.

(** The [for page := right; page >= left; page--] scan of a narrow window. *)
Fixpoint linearScan (fuel : nat) (ctx : Context) (checker : PageChecker)
  (left page lastValidPage : Z) : M (Z * option error) :=
  match fuel with
  | O => out_of_fuel
  | S fuel' =>
    if page >=? left then
      r <- call checker ctx page ;;
      match snd r with
      | Some err => ret (0, Some err)
      | None =>
        if fst r then ret (page, None)
        else linearScan fuel' ctx checker left (sub page 1) lastValidPage
      end
    else ret (lastValidPage, None)
  end.

(** The [for left <= right] loop of [binarySearchConcurrent]. *)
Fixpoint binarySearchConcurrent_loop (fuel : nat) (sched : Schedule)
  (ctx : Context) (checker : PageChecker) (left right lastValidPage : Z)
  : M (Z * option error) :=
  match fuel with
  | O => out_of_fuel
  | S fuel' =>
    if left <=? right then
      match ctx_Err ctx with
      | Some cerr => ret (0, Some cerr)
      | None =>
        if sub right left <=? 3 then
          linearScan fuel' ctx checker left right lastValidPage
        else
          let mid1 := add left (div (sub right left) 3) in
          let mid2 := add left (div (mul 2 (sub right left)) 3) in
          results <- probePair (sched O) checker ctx mid1 mid2 ;;
          match collect results mid1 mid2 false false with
          | inl err => ret (0, Some err)
          | inr (mid1HasData, mid2HasData) =>
            if mid2HasData then
              binarySearchConcurrent_loop fuel' (next_round sched) ctx checker
                (add mid2 1) right mid2
            else if mid1HasData then
              binarySearchConcurrent_loop fuel' (next_round sched) ctx checker
                (add mid1 1) (sub mid2 1) mid1
            else
              binarySearchConcurrent_loop fuel' (next_round sched) ctx checker
                left (sub mid1 1) lastValidPage
          end
      end
    else ret (lastValidPage, None)
  end.

Definition binarySearchConcurrent (fuel : nat) (sched : Schedule) (ctx : Context)
  (checker : PageChecker) (left right : Z) : M (Z * option error) :=
  binarySearchConcurrent_loop fuel sched ctx checker left right left.

Definition FindTotalPagesConcurrent (fuel : nat) (sched : Schedule) (ctx : Context)
  (checker : PageChecker) (maxPage : Z) : M (Z * option error) :=
  let maxPage := normalize maxPage in
  r <- call checker ctx 1 ;;
  match snd r with
  | Some err => ret (0, Some (Wrapf msgPage1 err))
  | None =>
    if negb (fst r) then ret (0, None)
    else
      ub <- findUpperBoundConcurrent fuel ctx checker maxPage ;;
      match snd ub with
      | Some err => ret (0, Some (Wrapf msgUpperBound err))
      | None =>
        let upperBound := fst ub in
        if upperBound =? maxPage then ret (maxPage, None)
        else
          lp <- binarySearchConcurrent fuel sched ctx checker
                  (div upperBound 2) upperBound ;;
          match snd lp with
          | Some err => ret (0, Some (Wrapf msgBinarySearch err))
          | None => ret (fst lp, None)
          end
      end
  end.

(** ** The links adapter *)

Definition Fetcher : Type := Context -> Z -> Links * option error.

Definition CreatePageChecker (fetcher : Fetcher) : PageChecker :=
  fun ctx page =>
    let r := fetcher ctx page in
    match snd r with
    | Some err => (false, Some err)
    | None => (negb (String.eqb (Href (Self (fst r))) EmptyString), None)
    end.

(** ** Probes used by the tests *)

(** [func(ctx, page) (bool, error) { return page <= totalPages, nil }] *)
Definition threshold (totalPages : Z) : PageChecker :=
  fun _ page => (page <=? totalPages, None).

(** A probe that fails with [err] on page [bad] and reports data elsewhere. *)
Definition fails_at (bad : Z) (err : error) : PageChecker :=
  fun _ page => if page =? bad then (false, Some err) else (true, None).

(** [func(ctx, page) (bool, error) { return page >= 1, nil }]: a collection
    that never ends. *)
Definition endless : PageChecker := fun _ page => (1 <=? page, None).

(** ** The finders over a probe and a context that change during the run

    A Go [PageChecker] is a closure and a [context.Context] can be
    cancelled while the finder runs.  Here the probe's answer and the
    state of the context depend on the calls made so far (the trace of
    probed pages, in call order): [checker tr c page] is the answer of the
    probe called with the context [c] after the calls [tr], and [ctx tr]
    is the caller's context as it stands after the calls [tr].  The two
    goroutines of a ternary round call the probe one after the other, in
    the order the interleaving fixes.  The definitions are those above,
    with [ctx.Err()] read where the source reads it. *)

Module Stateful.

Definition PageChecker : Type := Trace -> Context -> Z -> bool * option error.

Definition LiveContext : Type := Trace -> Context.

(** [checker(ctx, page)] *)
Definition call (checker : PageChecker) (ctx : LiveContext) (page : Z)
  : M (bool * option error) :=
  fun tr => (Some (checker tr (ctx tr) page), tr ++ [page]).

(** [ctx.Err()], as [select] on [ctx.Done()] reads it *)
Definition Err (ctx : LiveContext) : M (option error) :=
  fun tr => (Some (ctx_Err (ctx tr)), tr).

Fixpoint findUpperBound_loop (fuel : nat) (ctx : LiveContext) (checker : PageChecker)
  (maxPage page : Z) : M (Z * option error) :=
  match fuel with
  | O => out_of_fuel
  | S fuel' =>
    if page <? maxPage then
      let nextPage := mul page 2 in
      let nextPage := if nextPage >? maxPage then maxPage else nextPage in
      r <- call checker ctx nextPage ;;
      match snd r with
      | Some err => ret (0, Some err)
      | None =>
        if negb (fst r) then ret (nextPage, None)
        else findUpperBound_loop fuel' ctx checker maxPage nextPage
      end
    else ret (maxPage, None)
  end.

Definition findUpperBound (fuel : nat) (ctx : LiveContext) (checker : PageChecker)
  (maxPage : Z) : M (Z * option error) :=
  findUpperBound_loop fuel ctx checker maxPage 1.

Fixpoint binarySearch_loop (fuel : nat) (ctx : LiveContext) (checker : PageChecker)
  (left right lastValidPage : Z) : M (Z * option error) :=
  match fuel with
  | O => out_of_fuel
  | S fuel' =>
    if left <=? right then
      done <- Err ctx ;;
      match done with
      | Some cerr => ret (0, Some cerr)
      | None =>
        let mid := add left (div (sub right left) 2) in
        r <- call checker ctx mid ;;
        match snd r with
        | Some err => ret (0, Some err)
        | None =>
          if fst r
          then binarySearch_loop fuel' ctx checker (add mid 1) right mid
          else binarySearch_loop fuel' ctx checker left (sub mid 1) lastValidPage
        end
      end
    else ret (lastValidPage, None)
  end.

Definition binarySearch (fuel : nat) (ctx : LiveContext) (checker : PageChecker)
  (left right : Z) : M (Z * option error) :=
  binarySearch_loop fuel ctx checker left right left.

Definition FindTotalPages (fuel : nat) (ctx : LiveContext) (checker : PageChecker)
  (maxPage : Z) : M (Z * option error) :=
  let maxPage := normalize maxPage in
  r <- call checker ctx 1 ;;
  match snd r with
  | Some err => ret (0, Some (Wrapf msgPage1 err))
  | None =>
    if negb (fst r) then ret (0, None)
    else
      ub <- findUpperBound fuel ctx checker maxPage ;;
      match snd ub with
      | Some err => ret (0, Some (Wrapf msgUpperBound err))
      | None =>
        let upperBound := fst ub in
        if upperBound =? maxPage then ret (maxPage, None)
        else
          lp <- binarySearch fuel ctx checker (div upperBound 2) upperBound ;;
          match snd lp with
          | Some err => ret (0, Some (Wrapf msgBinarySearch err))
          | None => ret (fst lp, None)
          end
      end
  end.

Fixpoint findUpperBoundConcurrent_loop (fuel : nat) (ctx : LiveContext)
  (checker : PageChecker) (maxPage page : Z) : M (Z * option error) :=
  match fuel with
  | O => out_of_fuel
  | S fuel' =>
    if page <? maxPage then
      let nextPage := mul page 2 in
      let nextPage := if nextPage >? maxPage then maxPage else nextPage in
      r <- call checker ctx nextPage ;;
      match snd r with
      | Some err => ret (0, Some err)
      | None =>
        if negb (fst r) then ret (nextPage, None)
        else findUpperBoundConcurrent_loop fuel' ctx checker maxPage nextPage
      end
    else ret (maxPage, None)
  end.

Definition findUpperBoundConcurrent (fuel : nat) (ctx : LiveContext)
  (checker : PageChecker) (maxPage : Z) : M (Z * option error) :=
  findUpperBoundConcurrent_loop fuel ctx checker maxPage 1.

(** The two goroutines, [wg.Wait()] and [close(results)]: the goroutine
    that reaches the probe first is answered after the calls made so far,
    the other one after that call as well. *)
Definition probePair (il : Interleaving) (checker : PageChecker) (ctx : LiveContext)
  (mid1 mid2 : Z) : M (list result) :=
  fun tr =>
    let first := if calls_swapped il then mid2 else mid1 in
    let second := if calls_swapped il then mid1 else mid2 in
    let a := checker tr (ctx tr) first in
    let b := checker (tr ++ [first]) (ctx (tr ++ [first])) second in
    let r1 := if calls_swapped il then b else a in
    let r2 := if calls_swapped il then a else b in
    let res1 := mkResult mid1 (fst r1) (snd r1) in
    let res2 := mkResult mid2 (fst r2) (snd r2) in
    (Some (if delivery_swapped il then [res2; res1] else [res1; res2]),
     tr ++ [first; second]).

Fixpoint linearScan (fuel : nat) (ctx : LiveContext) (checker : PageChecker)
  (left page lastValidPage : Z) : M (Z * option error) :=
  match fuel with
  | O => out_of_fuel
  | S fuel' =>
    if page >=? left then
      r <- call checker ctx page ;;
      match snd r with
      | Some err => ret (0, Some err)
      | None =>
        if fst r then ret (page, None)
        else linearScan fuel' ctx checker left (sub page 1) lastValidPage
      end
    else ret (lastValidPage, None)
  end.

Fixpoint binarySearchConcurrent_loop (fuel : nat) (sched : Schedule)
  (ctx : LiveContext) (checker : PageChecker) (left right lastValidPage : Z)
  : M (Z * option error) :=
  match fuel with
  | O => out_of_fuel
  | S fuel' =>
    if left <=? right then
      done <- Err ctx ;;
      match done with
      | Some cerr => ret (0, Some cerr)
      | None =>
        if sub right left <=? 3 then
          linearScan fuel' ctx checker left right lastValidPage
        else
          let mid1 := add left (div (sub right left) 3) in
          let mid2 := add left (div (mul 2 (sub right left)) 3) in
          results <- probePair (sched O) checker ctx mid1 mid2 ;;
          match collect results mid1 mid2 false false with
          | inl err => ret (0, Some err)
          | inr (mid1HasData, mid2HasData) =>
            if mid2HasData then
              binarySearchConcurrent_loop fuel' (next_round sched) ctx checker
                (add mid2 1) right mid2
            else if mid1HasData then
              binarySearchConcurrent_loop fuel' (next_round sched) ctx checker
                (add mid1 1) (sub mid2 1) mid1
            else
              binarySearchConcurrent_loop fuel' (next_round sched) ctx checker
                left (sub mid1 1) lastValidPage
          end
      end
    else ret (lastValidPage, None)
  end.

Definition binarySearchConcurrent (fuel : nat) (sched : Schedule) (ctx : LiveContext)
  (checker : PageChecker) (left right : Z) : M (Z * option error) :=
  binarySearchConcurrent_loop fuel sched ctx checker left right left.

Definition FindTotalPagesConcurrent (fuel : nat) (sched : Schedule) (ctx : LiveContext)
  (checker : PageChecker) (maxPage : Z) : M (Z * option error) :=
  let maxPage := normalize maxPage in
  r <- call checker ctx 1 ;;
  match snd r with
  | Some err => ret (0, Some (Wrapf msgPage1 err))
  | None =>
    if negb (fst r) then ret (0, None)
    else
      ub <- findUpperBoundConcurrent fuel ctx checker maxPage ;;
      match snd ub with
      | Some err => ret (0, Some (Wrapf msgUpperBound err))
      | None =>
        let upperBound := fst ub in
        if upperBound =? maxPage then ret (maxPage, None)
        else
          lp <- binarySearchConcurrent fuel sched ctx checker
                  (div upperBound 2) upperBound ;;
          match snd lp with
          | Some err => ret (0, Some (Wrapf msgBinarySearch err))
          | None => ret (fst lp, None)
          end
      end
  end.

End Stateful.

(** A probe and a context that do not change during the run. *)
Definition constant_probe (checker : PageChecker) : Stateful.PageChecker :=
  fun _ => checker.

Definition constant_context (ctx : Context) : Stateful.LiveContext := fun _ => ctx.

(** The answers of the probes of the pages [new], made in this order after
    the calls [tr]. *)
Fixpoint answers (checker : Stateful.PageChecker) (ctx : Stateful.LiveContext)
  (tr : Trace) (new : list Z) : list (bool * option error) :=
  match new with
  | [] => []
  | p :: rest => checker tr (ctx tr) p :: answers checker ctx (tr ++ [p]) rest
  end.

(** A probe that fails with [err] on its invocation number [n] (counted
    from 0) and answers as [checker] on every other one. *)
Definition fails_on_call (n : nat) (err : error) (checker : PageChecker)
  : Stateful.PageChecker :=
  fun tr ctx page =>
    if (List.length tr =? n)%nat then (false, Some err) else checker ctx page.


(** ** Listing endpoints (leads, tasks) and the entity page checkers

    [Client.GetJSON] (the HTTP round trip and the JSON decoding into the
    zero-valued response) is a parameter: a function of the context and
    the request path that gives the decoded response and the error.  The
    element types of the responses and the values of [TasksFilter.Filter]
    are parameters as well. *)

(** [fmt.Sprintf("%d", n)] *)
Definition itoa (n : Z) : string := NilZero.string_of_int (Z.to_int n).

Section Listing.

Local Open Scope string_scope.

Variables (Lead Task Any : Type).

(** [UpdatedAt] is a [map[string]int64], [nil] when absent; [StatusID] a
    slice. *)
Record LeadsFilter : Type := mkLeadsFilter {
  lf_Query : string;
  lf_Limit : Z;
  lf_Page : Z;
  lf_With : string;
  lf_Order : string;
  lf_StatusID : list Z;
  lf_PipelineID : Z;
  lf_UpdatedAt : option (string -> option Z)
}.

Record LeadsResponse : Type := mkLeadsResponse {
  lr_Leads : list Lead;
  lr_Links : Links;
  lr_Page : Z
}.

(** The path built by [LeadsService.ListWithResponse]. *)
Definition leadsPath (filter : option LeadsFilter) : string :=
  let path := "/leads" in
  match filter with
  | None => path
  | Some f =>
    let path := path ++ "?" in
    let path :=
      if negb (String.eqb (lf_Query f) "")
      then path ++ ("query=" ++ lf_Query f ++ "&") else path in
    let path :=
      if lf_Limit f >? 0 then path ++ ("limit=" ++ itoa (lf_Limit f) ++ "&") else path in
    let path :=
      if lf_Page f >? 0 then path ++ ("page=" ++ itoa (lf_Page f) ++ "&") else path in
    let path :=
      if negb (String.eqb (lf_With f) "")
      then path ++ ("with=" ++ lf_With f ++ "&") else path in
    let path :=
      if negb (String.eqb (lf_Order f) "")
      then path ++ ("order[" ++ lf_Order f ++ "]=asc&") else path in
    let path :=
      if lf_PipelineID f >? 0
      then path ++ ("filter[pipeline_id]=" ++ itoa (lf_PipelineID f) ++ "&") else path in
    let path :=
      fold_left
        (fun path statusID =>
           path ++ ("filter[statuses][0][status_id]=" ++ itoa statusID ++ "&"))
        (lf_StatusID f) path in
    match lf_UpdatedAt f with
    | None => path
    | Some updatedAt =>
      let path :=
        match updatedAt "from" with
        | Some from => path ++ ("filter[updated_at][from]=" ++ itoa from ++ "&")
        | None => path
        end in
      match updatedAt "to" with
      | Some to => path ++ ("filter[updated_at][to]=" ++ itoa to ++ "&")
      | None => path
      end
    end
  end.

(** [LeadsService.ListWithResponse]: [nil, err] on error, the decoded
    response otherwise. *)
Definition LeadsService_ListWithResponse
  (GetJSON : Context -> string -> LeadsResponse * option error)
  (ctx : Context) (filter : option LeadsFilter)
  : option LeadsResponse * option error :=
  let path := leadsPath filter in
  let r := GetJSON ctx path in
  match snd r with
  | Some err => (None, Some err)
  | None => (Some (fst r), None)
  end.

(** [LeadsService.List] *)
Definition LeadsService_List
  (GetJSON : Context -> string -> LeadsResponse * option error)
  (ctx : Context) (filter : option LeadsFilter) : option (list Lead) * option error :=
  let r := LeadsService_ListWithResponse GetJSON ctx filter in
  match r with
  | (Some resp, None) => (Some (lr_Leads resp), None)
  | (_, err) => (None, err)
  end.

(** [IsCompleted] is a [*bool]; [Filter] a [map[string]interface{}]. *)
Record TasksFilter : Type := mkTasksFilter {
  tf_Limit : Z;
  tf_Page : Z;
  tf_Filter : option (string -> option Any);
  tf_Order : string;
  tf_ResponsibleUserID : Z;
  tf_IsCompleted : option bool
}.

Record TasksResponse : Type := mkTasksResponse {
  tr_Tasks : list Task;
  tr_Links : Links;
  tr_Page : Z
}.

(** The path built by [TasksService.ListWithResponse]. *)
Definition tasksPath (filter : option TasksFilter) : string :=
  let path := "/tasks" in
  match filter with
  | None => path
  | Some f =>
    let path := path ++ "?" in
    let path :=
      if tf_Limit f >? 0 then path ++ ("limit=" ++ itoa (tf_Limit f) ++ "&") else path in
    let path :=
      if tf_Page f >? 0 then path ++ ("page=" ++ itoa (tf_Page f) ++ "&") else path in
    let path :=
      if tf_ResponsibleUserID f >? 0
      then path ++ ("filter[responsible_user_id]=" ++ itoa (tf_ResponsibleUserID f) ++ "&")
      else path in
    match tf_IsCompleted f with
    | Some isCompleted =>
      let completed := if isCompleted then 1 else 0 in
      path ++ ("filter[is_completed]=" ++ itoa completed ++ "&")
    | None => path
    end
  end.

Definition TasksService_ListWithResponse
  (GetJSON : Context -> string -> TasksResponse * option error)
  (ctx : Context) (filter : option TasksFilter)
  : option TasksResponse * option error :=
  let path := tasksPath filter in
  let r := GetJSON ctx path in
  match snd r with
  | Some err => (None, Some err)
  | None => (Some (fst r), None)
  end.

(** [Links{}] *)
Definition zeroLinks : Links := mkLinks (mkLink "") (mkLink "") (mkLink "").

(** [CreateLeadsPageChecker]: the caller's filter is copied, then [Limit]
    and [Page] are overwritten. *)
Definition CreateLeadsPageChecker
  (GetJSON : Context -> string -> LeadsResponse * option error)
  (filter : option LeadsFilter) : PageChecker :=
  CreatePageChecker (fun ctx page =>
    let f := mkLeadsFilter "" 1 page "" "" [] 0 None in
    let f :=
      match filter with
      | Some g =>
        mkLeadsFilter (lf_Query g) 1 page (lf_With g) (lf_Order g)
          (lf_StatusID g) (lf_PipelineID g) (lf_UpdatedAt g)
      | None => f
      end in
    match LeadsService_ListWithResponse GetJSON ctx (Some f) with
    | (Some resp, None) => (lr_Links resp, None)
    | (_, Some err) => (zeroLinks, Some err)
    | (None, None) => (zeroLinks, None) (* never returned by ListWithResponse *)
    end).

(** [CreateTasksPageChecker] *)
Definition CreateTasksPageChecker
  (GetJSON : Context -> string -> TasksResponse * option error)
  (filter : option TasksFilter) : PageChecker :=
  CreatePageChecker (fun ctx page =>
    let f := mkTasksFilter 1 page None "" 0 None in
    let f :=
      match filter with
      | Some g =>
        mkTasksFilter 1 page (tf_Filter g) (tf_Order g)
          (tf_ResponsibleUserID g) (tf_IsCompleted g)
      | None => f
      end in
    match TasksService_ListWithResponse GetJSON ctx (Some f) with
    | (Some resp, None) => (tr_Links resp, None)
    | (_, Some err) => (zeroLinks, Some err)
    | (None, None) => (zeroLinks, None) (* never returned by ListWithResponse *)
    end).

End Listing.

Arguments mkLeadsFilter _ _ _ _ _ _ _ _ : clear implicits.
Arguments leadsPath _ : clear implicits.
Arguments LeadsService_ListWithResponse {Lead} _ _ _.
Arguments LeadsService_List {Lead} _ _ _.
Arguments CreateLeadsPageChecker {Lead} _ _.
Arguments tasksPath {Any} _.
Arguments TasksService_ListWithResponse {Task Any} _ _ _.
Arguments CreateTasksPageChecker {Task Any} _ _.

(** Servers for the examples: each answers with the request path as its
    [self] link, so that two probes agree exactly when their requests do. *)
Definition echoLeads : Context -> string -> LeadsResponse unit * option error :=
  fun _ path =>
    (mkLeadsResponse unit [] (mkLinks (mkLink path) (mkLink "") (mkLink "")) 0, None).

Definition echoTasks : Context -> string -> TasksResponse unit * option error :=
  fun _ path =>
    (mkTasksResponse unit [] (mkLinks (mkLink path) (mkLink "") (mkLink "")) 0, None).

(** ** The client: authentication and the request loop (amocrm/client.go)

    What lies outside the client (the clock, the rate limiter, the HTTP
    transport, URL parsing and form encoding, the JSON decoder of tokens,
    the logger) is a [Runtime] over a type of worlds; the client's own
    state is the [Client] record.  A call ends in an [Outcome]: it returns,
    it panics, the Go runtime stops the program ([Fatal]), it waits for a
    lock that is not released ([Blocked]), or the budget of the retry loop
    is exhausted ([Unfinished]). *)

Definition AuthType : Type := Z.
Definition AuthTypeNone : AuthType := 0.
Definition AuthTypePermanentToken : AuthType := 1.
Definition AuthTypeOAuth2 : AuthType := 2.

Record OAuth2Config : Type := mkOAuth2Config {
  ClientID : string;
  ClientSecret : string;
  RedirectURI : string
}.

(** [ExpiresAt] is a [time.Time], here nanoseconds since the epoch. *)
Record Token : Type := mkToken {
  AccessToken : string;
  RefreshToken : string;
  TokenType : string;
  ExpiresIn : Z;
  ExpiresAt : Z
}.

(** [time.Second], a [time.Duration] in nanoseconds. *)
Definition Second : Z := 1000000000.

(** [Token.IsExpired], with the reading of [time.Now()]. *)
Definition Token_IsExpired (now : Z) (t : Token) : bool := now >? ExpiresAt t.

(** [sync.RWMutex]: the number of read locks held and whether it is locked
    for writing. *)
Record RWMutex : Type := mkRWMutex { readers : nat; writer : bool }.

(** [http.Header], with [Set] replacing the values of the key. *)
Definition Header : Type := list (string * string).

Definition Header_Set (key value : string) (h : Header) : Header :=
  (key, value) :: filter (fun kv => negb (String.eqb (fst kv) key)) h.

Record Request : Type := mkRequest {
  req_Method : string;
  req_URL : string;
  req_Header : Header;
  req_Body : option string
}.

Definition Request_Header_Set (key value : string) (req : Request) : Request :=
  mkRequest (req_Method req) (req_URL req) (Header_Set key value (req_Header req))
    (req_Body req).

Record Response : Type := mkResponse { resp_StatusCode : Z; resp_Body : string }.

Record APIError : Type := mkAPIError { api_StatusCode : Z; api_Message : string }.

(** An attribute value of a log record. *)
Inductive LogValue : Type :=
| LogString (s : string)
| LogInt (n : Z)
| LogError (e : error).

Inductive Outcome (A : Type) : Type :=
| Returns (a : A)
| Panics (msg : string)
| Fatal (msg : string)
| Blocked
| Unfinished.

Arguments Returns {A} a.
Arguments Panics {A} msg.
Arguments Fatal {A} msg.
Arguments Blocked {A}.
Arguments Unfinished {A}.

Section ClientModel.

Local Open Scope string_scope.

Variable World : Type.

(** The [Save] method of a [TokenStorage]. *)
Definition TokenStorage : Type :=
  Context -> string -> Token -> World -> option error * World.

(** The fields of [Client] that authentication and requests use. *)
Record Client : Type := mkClient {
  subdomain : string;
  domain : string;
  baseURL : string;
  authType : AuthType;
  permanentToken : string;
  oauth2Config : option OAuth2Config;
  tokenStorage : option TokenStorage;
  currentToken : option Token;
  tokenMu : RWMutex;
  debug : bool
}.

(** [url_Parse s] gives [u.String()] of the parsed URL;
    [http_NewRequestWithContext ctx method url] the error of the request
    constructor; [json_Decode_Token] the token decoded into a zero
    [Token]. *)
Record Runtime : Type := mkRuntime {
  time_Now : World -> Z;
  rateLimiter_Wait : Context -> World -> option error * World;
  url_Parse : string -> string * option error;
  http_NewRequestWithContext : Context -> string -> string -> option error;
  httpClient_Do : Request -> World -> (Response * option error) * World;
  Values_Encode : list (string * string) -> string;
  json_Decode_Token : string -> Token * option error;
  logger_Debug : string -> list (string * LogValue) -> World -> World;
  logger_Warn : string -> list (string * LogValue) -> World -> World
}.

Variable rt : Runtime.

Definition State : Type := (Client * World)%type.

Definition Act (A : Type) : Type := State -> Outcome (A * State).

Definition aret {A} (a : A) : Act A := fun s => Returns (a, s).

Definition abind {A B} (m : Act A) (k : A -> Act B) : Act B :=
  fun s =>
    match m s with
    | Returns (a, s') => k a s'
    | Panics msg => Panics msg
    | Fatal msg => Fatal msg
    | Blocked => Blocked
    | Unfinished => Unfinished
    end.

Local Notation "x <<- m ;; k" := (abind m (fun x => k))
  (at level 61, m at next level, right associativity).
Local Notation "m ;;; k" := (abind m (fun _ => k))
  (at level 61, right associativity).

Definition panic {A} (msg : string) : Act A := fun _ => Panics msg.

Definition nilDereference : string :=
  "runtime error: invalid memory address or nil pointer dereference".

Definition getClient : Act Client := fun s => Returns (fst s, s).

Definition world {A} (f : World -> A * World) : Act A :=
  fun s => let r := f (snd s) in Returns (fst r, (fst s, snd r)).

Definition world_ (f : World -> World) : Act unit :=
  fun s => Returns (tt, (fst s, f (snd s))).

(** [time.Now()] *)
Definition Now : Act Z := fun s => Returns (time_Now rt (snd s), s).

Definition set_tokenMu (mu : RWMutex) (c : Client) : Client :=
  mkClient (subdomain c) (domain c) (baseURL c) (authType c) (permanentToken c)
    (oauth2Config c) (tokenStorage c) (currentToken c) mu (debug c).

Definition set_currentToken (t : option Token) (c : Client) : Client :=
  mkClient (subdomain c) (domain c) (baseURL c) (authType c) (permanentToken c)
    (oauth2Config c) (tokenStorage c) t (tokenMu c) (debug c).

(** [c.tokenMu.RLock()]: waits while the mutex is locked for writing. *)
Definition RLock : Act unit :=
  fun s =>
    let mu := tokenMu (fst s) in
    if writer mu then Blocked
    else Returns (tt, (set_tokenMu (mkRWMutex (S (readers mu)) (writer mu)) (fst s), snd s)).

(** [c.tokenMu.RUnlock()]: a fatal error of the runtime when no read lock
    is held. *)
Definition RUnlock : Act unit :=
  fun s =>
    let mu := tokenMu (fst s) in
    match readers mu with
    | O => Fatal "sync: RUnlock of unlocked RWMutex"
    | S n => Returns (tt, (set_tokenMu (mkRWMutex n (writer mu)) (fst s), snd s))
    end.

(** [c.tokenMu.Lock()]: waits while the mutex is locked at all. *)
Definition Lock : Act unit :=
  fun s =>
    let mu := tokenMu (fst s) in
    if writer mu then Blocked
    else
      match readers mu with
      | O => Returns (tt, (set_tokenMu (mkRWMutex O true) (fst s), snd s))
      | S _ => Blocked
      end.

(** [c.tokenMu.Unlock()] *)
Definition Unlock : Act unit :=
  fun s =>
    let mu := tokenMu (fst s) in
    if writer mu
    then Returns (tt, (set_tokenMu (mkRWMutex (readers mu) false) (fst s), snd s))
    else Fatal "sync: Unlock of unlocked RWMutex".

(** The body of [refreshToken], between [Lock] and the deferred [Unlock]. *)
Definition refreshToken_locked (ctx : Context) : Act (option error) :=
  c <<- getClient ;;
  match currentToken c with
  | None => aret (Some (ErrorString "no refresh token available"))
  | Some cur =>
    if String.eqb (RefreshToken cur) ""
    then aret (Some (ErrorString "no refresh token available"))
    else
      match oauth2Config c with
      | None => panic nilDereference
      | Some cfg =>
        let data :=
          [("client_id", ClientID cfg);
           ("client_secret", ClientSecret cfg);
           ("grant_type", "refresh_token");
           ("refresh_token", RefreshToken cur);
           ("redirect_uri", RedirectURI cfg)] in
        let tokenURL :=
          "https://" ++ subdomain c ++ "." ++ domain c ++ "/oauth2/access_token" in
        match http_NewRequestWithContext rt ctx "POST" tokenURL with
        | Some err => aret (Some err)
        | None =>
          let req := mkRequest "POST" tokenURL [] (Some (Values_Encode rt data)) in
          let req :=
            Request_Header_Set "Content-Type" "application/x-www-form-urlencoded" req in
          r <<- world (httpClient_Do rt req) ;;
          match snd r with
          | Some err => aret (Some err)
          | None =>
            let resp := fst r in
            if negb (resp_StatusCode resp =? 200)%Z
            then aret (Some (ErrorString ("token refresh failed: " ++ resp_Body resp)))
            else
              let d := json_Decode_Token rt (resp_Body resp) in
              match snd d with
              | Some err => aret (Some err)
              | None =>
                t <<- Now ;;
                let token :=
                  mkToken (AccessToken (fst d)) (RefreshToken (fst d))
                    (TokenType (fst d)) (ExpiresIn (fst d))
                    (t + mul (ExpiresIn (fst d)) Second) in
                (fun s => Returns (tt, (set_currentToken (Some token) (fst s), snd s))) ;;;
                match tokenStorage c with
                | Some save =>
                  err <<- world (save ctx (subdomain c ++ "." ++ domain c) token) ;;
                  match err with
                  | Some e =>
                    world_ (logger_Warn rt "Failed to save token" [("error", LogError e)]) ;;;
                    aret None
                  | None => aret None
                  end
                | None => aret None
                end
              end
          end
        end
      end
  end.

(** [Client.refreshToken] *)
Definition Client_refreshToken (ctx : Context) : Act (option error) :=
  Lock ;;;
  err <<- refreshToken_locked ctx ;;
  Unlock ;;;
  aret err.

(** [Client.addAuth]; the request is updated in place in the source and
    returned here. *)
Definition Client_addAuth (ctx : Context) (req : Request)
  : Act (Request * option error) :=
  c <<- getClient ;;
  if (authType c =? AuthTypePermanentToken)%Z then
    aret (Request_Header_Set "Authorization" ("Bearer " ++ permanentToken c) req, None)
  else if (authType c =? AuthTypeOAuth2)%Z then
    RLock ;;;
    c <<- getClient ;;
    let token := currentToken c in
    RUnlock ;;;
    match token with
    | None => aret (req, Some (ErrorString "no OAuth2 token available"))
    | Some tok =>
      t <<- Now ;;
      if Token_IsExpired t tok then
        RUnlock ;;;
        err <<- Client_refreshToken ctx ;;
        match err with
        | Some e => aret (req, Some e)
        | None =>
          RLock ;;;
          c <<- getClient ;;
          let token := currentToken c in
          RUnlock ;;;
          match token with
          | None => panic nilDereference
          | Some tok =>
            aret (Request_Header_Set "Authorization" ("Bearer " ++ AccessToken tok) req,
                  None)
          end
        end
      else
        aret (Request_Header_Set "Authorization" ("Bearer " ++ AccessToken tok) req,
              None)
    end
  else aret (req, Some (ErrorString "no authentication method configured")).

(** [Client.do] with a [nil] body, as [GetJSON] and [DeleteJSON] call it;
    the budget counts the calls of [do] (the first one and the retries).
    Closing a response body has no effect here: a [Response] carries the
    whole body. *)
Fixpoint Client_do (fuel : nat) (ctx : Context) (method path : string)
  : Act (option Response * option (error + APIError)) :=
  match fuel with
  | O => fun _ => Unfinished
  | S fuel' =>
    err <<- world (rateLimiter_Wait rt ctx) ;;
    match err with
    | Some e => aret (None, Some (inl (Wrapf "rate limiter error: " e)))
    | None =>
      c <<- getClient ;;
      let u := url_Parse rt (baseURL c ++ path) in
      match snd u with
      | Some e => aret (None, Some (inl (Wrapf "invalid URL: " e)))
      | None =>
        match http_NewRequestWithContext rt ctx method (fst u) with
        | Some e => aret (None, Some (inl (Wrapf "failed to create request: " e)))
        | None =>
          let req := mkRequest method (fst u) [] None in
          let req := Request_Header_Set "Content-Type" "application/json" req in
          let req := Request_Header_Set "User-Agent" "amocrm-go/1.0" req in
          a <<- Client_addAuth ctx req ;;
          match snd a with
          | Some e => aret (None, Some (inl (Wrapf "authentication error: " e)))
          | None =>
            let req := fst a in
            (if debug c
             then world_ (logger_Debug rt "API Request"
                            [("method", LogString method); ("url", LogString (fst u))])
             else aret tt) ;;;
            r <<- world (httpClient_Do rt req) ;;
            match snd r with
            | Some e => aret (None, Some (inl (Wrapf "request failed: " e)))
            | None =>
              let resp := fst r in
              (if debug c
               then world_ (logger_Debug rt "API Response"
                              [("status", LogInt (resp_StatusCode resp));
                               ("url", LogString (fst u))])
               else aret tt) ;;;
              c <<- getClient ;;
              if (resp_StatusCode resp =? 401)%Z && (authType c =? AuthTypeOAuth2)%Z then
                err <<- Client_refreshToken ctx ;;
                match err with
                | Some e => aret (None, Some (inl (Wrapf "token refresh failed: " e)))
                | None => Client_do fuel' ctx method path
                end
              else if resp_StatusCode resp >=? 400 then
                aret (None,
                      Some (inr (mkAPIError (resp_StatusCode resp) (resp_Body resp))))
              else aret (Some resp, None)
            end
          end
        end
      end
    end
  end.

(** [Client.GetJSON]; [decode body result] is the decoding of the body
    into [result]. *)
Definition Client_GetJSON {R : Type} (decode : string -> R -> R * option error)
  (fuel : nat) (ctx : Context) (path : string) (result : R)
  : Act (R * option (error + APIError)) :=
  r <<- Client_do fuel ctx "GET" path ;;
  match r with
  | (_, Some err) => aret (result, Some err)
  | (Some resp, None) =>
    if (resp_StatusCode resp =? 204)%Z then aret (result, None)
    else
      let d := decode (resp_Body resp) result in
      aret (fst d, option_map inl (snd d))
  | (None, None) => panic nilDereference
  end.

(** [Client.DeleteJSON] *)
Definition Client_DeleteJSON (fuel : nat) (ctx : Context) (path : string)
  : Act (option (error + APIError)) :=
  r <<- Client_do fuel ctx "DELETE" path ;;
  match r with
  | (_, Some err) => aret (Some err)
  | (Some resp, None) => aret None
  | (None, None) => panic nilDereference
  end.

(** [http.Client.Post]: a POST request carrying the content type, made
    with the background context and sent with [Do]. *)
Definition httpClient_Post (url contentType body : string)
  : Act (Response * option error) :=
  match http_NewRequestWithContext rt Background "POST" url with
  | Some err => aret (mkResponse 0 "", Some err)
  | None =>
    world (httpClient_Do rt
             (Request_Header_Set "Content-Type" contentType
                (mkRequest "POST" url [] (Some body))))
  end.

(** [AuthService.ExchangeCode] *)
Definition AuthService_ExchangeCode (ctx : Context) (code : string)
  : Act (option error) :=
  c <<- getClient ;;
  if negb (authType c =? AuthTypeOAuth2)%Z
  then aret (Some (ErrorString "OAuth2 is not configured"))
  else
    match oauth2Config c with
    | None => aret (Some (ErrorString "OAuth2 config is missing"))
    | Some cfg =>
      let data :=
        [("client_id", ClientID cfg);
         ("client_secret", ClientSecret cfg);
         ("grant_type", "authorization_code");
         ("code", code);
         ("redirect_uri", RedirectURI cfg)] in
      let tokenURL :=
        "https://" ++ subdomain c ++ "." ++ domain c ++ "/oauth2/access_token" in
      r <<- httpClient_Post tokenURL "application/x-www-form-urlencoded"
              (Values_Encode rt data) ;;
      match snd r with
      | Some err => aret (Some (Wrapf "failed to exchange code: " err))
      | None =>
        let resp := fst r in
        if negb (resp_StatusCode resp =? 200)%Z
        then aret (Some (ErrorString ("token exchange failed with status "
                                        ++ itoa (resp_StatusCode resp))))
        else
          let d := json_Decode_Token rt (resp_Body resp) in
          match snd d with
          | Some err => aret (Some (Wrapf "failed to decode token: " err))
          | None =>
            t <<- Now ;;
            let token :=
              mkToken (AccessToken (fst d)) (RefreshToken (fst d))
                (TokenType (fst d)) (ExpiresIn (fst d))
                (t + mul (ExpiresIn (fst d)) Second) in
            Lock ;;;
            (fun s => Returns (tt, (set_currentToken (Some token) (fst s), snd s))) ;;;
            Unlock ;;;
            c <<- getClient ;;
            match tokenStorage c with
            | Some save =>
              err <<- world (save ctx (subdomain c ++ "." ++ domain c) token) ;;
              match err with
              | Some e => aret (Some (Wrapf "failed to save token: " e))
              | None => aret None
              end
            | None => aret None
            end
          end
      end
    end.

(** [AuthService.RefreshToken] *)
Definition AuthService_RefreshToken (ctx : Context) : Act (option error) :=
  Client_refreshToken ctx.

(** [AuthService.GetCurrentToken] *)
Definition AuthService_GetCurrentToken : Act (option Token) :=
  RLock ;;;
  c <<- getClient ;;
  RUnlock ;;;
  aret (currentToken c).

End ClientModel.

Arguments mkClient {World} _ _ _ _ _ _ _ _ _ _.
Arguments subdomain {World} _.
Arguments domain {World} _.
Arguments baseURL {World} _.
Arguments authType {World} _.
Arguments permanentToken {World} _.
Arguments oauth2Config {World} _.
Arguments tokenStorage {World} _.
Arguments currentToken {World} _.
Arguments tokenMu {World} _.
Arguments debug {World} _.
Arguments time_Now {World} _ _.
Arguments rateLimiter_Wait {World} _ _ _.
Arguments url_Parse {World} _ _.
Arguments http_NewRequestWithContext {World} _ _ _ _.
Arguments httpClient_Do {World} _ _ _.
Arguments Values_Encode {World} _ _.
Arguments json_Decode_Token {World} _ _.
Arguments logger_Debug {World} _ _ _ _.
Arguments logger_Warn {World} _ _ _ _.
Arguments aret {World A} _ _.
Arguments abind {World A B} _ _ _.
Arguments set_tokenMu {World} _ _.
Arguments set_currentToken {World} _ _.
Arguments RLock {World} _.
Arguments RUnlock {World} _.
Arguments Lock {World} _.
Arguments Unlock {World} _.
Arguments refreshToken_locked {World} _ _ _.
Arguments Client_refreshToken {World} _ _ _.
Arguments Client_addAuth {World} _ _ _ _.
Arguments Client_do {World} _ _ _ _ _ _.
Arguments Client_GetJSON {World} _ {R} _ _ _ _ _ _.
Arguments Client_DeleteJSON {World} _ _ _ _ _.
Arguments httpClient_Post {World} _ _ _ _ _.
Arguments AuthService_ExchangeCode {World} _ _ _ _.
Arguments AuthService_RefreshToken {World} _ _ _.
Arguments AuthService_GetCurrentToken {World} _.

(** A runtime and a client for the examples.  The world counts the HTTP
    requests served; the clock stands at [clock]; the token endpoint
    answers 200 with a token valid for an hour, every other request is
    answered with [apiStatus]. *)
Definition exampleTokenURL : string :=
  "https://example.amocrm.ru/oauth2/access_token"%string.

Definition exampleRuntime (clock apiStatus : Z) : Runtime nat :=
  mkRuntime nat
    (fun _ => clock)
    (fun _ w => (None, w))
    (fun s => (s, None))
    (fun _ _ _ => None)
    (fun req w =>
       if String.eqb (req_URL req) exampleTokenURL
       then ((mkResponse 200 "token"%string, None), S w)
       else ((mkResponse apiStatus "body"%string, None), S w))
    (fun data => String.concat "&"%string
                   (map (fun kv => (fst kv ++ "=" ++ snd kv)%string) data))
    (fun _ => (mkToken "fresh"%string "again"%string "Bearer"%string 3600 0, None))
    (fun _ _ w => w)
    (fun _ _ w => w).

Definition exampleClient (token : option Token) : Client nat :=
  mkClient "example"%string "amocrm.ru"%string
    "https://example.amocrm.ru/api/v4"%string
    AuthTypeOAuth2 EmptyString
    (Some (mkOAuth2Config "id"%string "secret"%string "https://example.org/cb"%string))
    None token (mkRWMutex 0 false) false.

(** A token storage whose [Save] fails. *)
Definition failingStorage : TokenStorage nat :=
  fun _ _ _ w => (Some (ErrorString "disk full"%string), w).

(** A client without a token whose storage is [failingStorage]. *)
Definition brokenDiskClient : Client nat :=
  mkClient "example"%string "amocrm.ru"%string
    "https://example.amocrm.ru/api/v4"%string
    AuthTypeOAuth2 EmptyString
    (Some (mkOAuth2Config "id"%string "secret"%string "https://example.org/cb"%string))
    (Some failingStorage) None (mkRWMutex 0 false) false.

Definition staleToken : Token :=
  mkToken "stale"%string "refresh"%string "Bearer"%string 3600 500.

(** ** Task results (amocrm/tasks.go) *)

Record TaskResult : Type := mkTaskResult { Text : string }.

(** The bytes the trimming loop of [UnmarshalJSON] skips. *)
Definition isBlank (c : ascii) : bool :=
  Ascii.eqb c " " || Ascii.eqb c "009" || Ascii.eqb c "010" || Ascii.eqb c "013".

(** [for len(trimmed) > 0 && (trimmed[0] == ' ' || ...) { trimmed = trimmed[1:] }] *)
Fixpoint trimBlank (trimmed : string) : string :=
  match trimmed with
  | EmptyString => EmptyString
  | String c rest => if isBlank c then trimBlank rest else trimmed
  end.

(** [TaskResult.UnmarshalJSON].  [unmarshalArray data] is
    [json.Unmarshal(data, &arrResult)] as the [Text] of the items and the
    error, [unmarshalObject data] is [json.Unmarshal(data, &objResult)] as
    the [Text] of the object and the error. *)
Definition TaskResult_UnmarshalJSON
  (unmarshalArray : string -> list string * option error)
  (unmarshalObject : string -> string * option error)
  (tr : TaskResult) (data : string) : TaskResult * option error :=
  if (String.length data =? 0)%nat || String.eqb data "null"
  then (mkTaskResult EmptyString, None)
  else
    let trimmed := trimBlank data in
    match trimmed with
    | EmptyString => (mkTaskResult EmptyString, None)
    | String c _ =>
      if Ascii.eqb c "[" then
        let r := unmarshalArray data in
        match snd r with
        | Some err => (tr, Some (Wrapf "failed to unmarshal result array: " err))
        | None =>
          match fst r with
          | item :: _ => (mkTaskResult item, None)
          | [] => (mkTaskResult EmptyString, None)
          end
        end
      else
        let r := unmarshalObject data in
        match snd r with
        | Some err => (tr, Some (Wrapf "failed to unmarshal result object: " err))
        | None => (mkTaskResult (fst r), None)
        end
    end.

(** ** Iterating with [_links.next] (examples/pagination/main.go) *)

Record ContactsFilter : Type := mkContactsFilter {
  cf_Query : string;
  cf_Limit : Z;
  cf_Page : Z;
  cf_With : string;
  cf_Order : string
}.

Record Page : Type := mkPage { Size : Z; Count : Z }.

Record ContactsResponse (Contact : Type) : Type := mkContactsResponse {
  cr_Contacts : list Contact;
  cr_Links : Links;
  cr_Page : Page
}.

Arguments cr_Contacts {Contact} _.
Arguments cr_Links {Contact} _.
Arguments cr_Page {Contact} _.

(** The [for] loop of [exampleIterateWithLinks] over
    [client.Contacts.ListWithResponse], which is a parameter; the trace is
    the pages asked for, the result [totalContacts], [pageCount] and the
    error that ended the loop. *)
Fixpoint exampleIterateWithLinks_loop {Contact : Type} (fuel : nat) (ctx : Context)
  (ListWithResponse : Context -> ContactsFilter -> ContactsResponse Contact * option error)
  (totalContacts pageCount : Z) (filter : ContactsFilter)
  : M (Z * Z * option error) :=
  match fuel with
  | O => out_of_fuel
  | S fuel' =>
    r <- (fun tr => (Some (ListWithResponse ctx filter), tr ++ [cf_Page filter])) ;;
    match snd r with
    | Some err => ret (totalContacts, pageCount, Some err)
    | None =>
      let resp := fst r in
      let contactsOnPage := Z.of_nat (Datatypes.length (cr_Contacts resp)) in
      let totalContacts := add totalContacts contactsOnPage in
      let pageCount := add pageCount 1 in
      if negb (HasNext (cr_Links resp)) then ret (totalContacts, pageCount, None)
      else
        let filter :=
          mkContactsFilter (cf_Query filter) (cf_Limit filter) (add (cf_Page filter) 1)
            (cf_With filter) (cf_Order filter) in
        if pageCount >=? 10 then ret (totalContacts, pageCount, None)
        else
          exampleIterateWithLinks_loop fuel' ctx ListWithResponse totalContacts
            pageCount filter
    end
  end.

Definition exampleIterateWithLinks {Contact : Type} (fuel : nat) (ctx : Context)
  (ListWithResponse : Context -> ContactsFilter -> ContactsResponse Contact * option error)
  : M (Z * Z * option error) :=
  let totalContacts := 0 in
  let pageCount := 0 in
  let filter := mkContactsFilter EmptyString 250 1 EmptyString EmptyString in
  exampleIterateWithLinks_loop fuel ctx ListWithResponse totalContacts pageCount filter.

(** A server for the examples: three pages of two contacts each. *)
Definition threePages : Context -> ContactsFilter -> ContactsResponse unit * option error :=
  fun _ filter =>
    (mkContactsResponse unit [tt; tt]
       (mkLinks (mkLink "self"%string)
          (mkLink (if cf_Page filter <? 3 then "next"%string else EmptyString))
          (mkLink EmptyString))
       (mkPage 250 2),
     None).

(** ** Vocabulary of the properties *)

(** The probe never fails under [ctx]. *)
Definition error_free (checker : PageChecker) (ctx : Context) : Prop :=
  forall p, snd (checker ctx p) = None.

Definition has_data (checker : PageChecker) (ctx : Context) (p : Z) : Prop :=
  fst (checker ctx p) = true.

(** An empty page is followed by empty pages only. *)
Definition monotone (checker : PageChecker) (ctx : Context) : Prop :=
  forall p q, in_int p -> in_int q -> p < q ->
    ~ has_data checker ctx p -> ~ has_data checker ctx q.

(** The decimal rendering of a page number occurs in a message. *)
Fixpoint contains (sub s : string) : bool :=
  match s with
  | EmptyString => String.prefix sub s
  | String _ s' => String.prefix sub s || contains sub s'
  end.

Definition mentions_page (msg : string) (p : Z) : bool :=
  contains (NilZero.string_of_int (Z.to_int p)) msg.


(** [spec P Q m]: run from any trace, [m] only appends pages that satisfy
    [P], and a value it returns satisfies [Q]. *)
Definition spec {A} (P : Z -> Prop) (Q : A -> Prop) (m : M A) : Prop :=
  forall tr, exists new,
    snd (m tr) = tr ++ new /\ Forall P new /\
    forall a, fst (m tr) = Some a -> Q a.

(** [v] is the last page with data. *)
Definition last_page (ctx : Context) (checker : PageChecker) (v : Z) : Prop :=
  in_int v /\ has_data checker ctx v /\
  forall q, in_int q -> v < q -> ~ has_data checker ctx q.

(** What the growth phase leaves for the search: an empty page [ub] below
    the ceiling whose half has data. *)
Definition gap (ctx : Context) (checker : PageChecker) (m ub : Z) : Prop :=
  in_int ub /\ ub < m /\ 1 <= Z.quot ub 2 /\
  has_data checker ctx (Z.quot ub 2) /\ ~ has_data checker ctx ub.

(** The window of a search: [lastValidPage] has data and sits just below
    [left] (or on it, before the first move); nothing right of [right] has
    data. *)
Definition window (ctx : Context) (checker : PageChecker)
  (left right lastValidPage : Z) : Prop :=
  0 <= left /\ right < int_max /\ left <= right + 1 /\
  in_int lastValidPage /\ lastValidPage <= left <= lastValidPage + 1 /\
  has_data checker ctx lastValidPage /\
  forall q, in_int q -> right < q -> ~ has_data checker ctx q.

(** The pages added by a run that met a probe error: error-free probes,
    then the failing probe, last, with that error as the result. *)
Definition aborted (ctx : Context) (checker : PageChecker)
  (wrapper : error -> error) (new : Trace)
  (res : option (Z * option error)) : Prop :=
  exists pre p e,
    new = pre ++ [p] /\
    Forall (fun q => snd (checker ctx q) = None) pre /\
    snd (checker ctx p) = Some e /\
    res = Some (0, Some (wrapper e)).

(** The three wrappers of [FindTotalPages], by the phase that failed. *)
Definition phase_wrapped (ctx : Context) (checker : PageChecker)
  (new : Trace) (res : option (Z * option error)) : Prop :=
  aborted ctx checker (Wrapf msgPage1) new res /\ new = [1]
  \/ (aborted ctx checker (Wrapf msgUpperBound) new res
      \/ aborted ctx checker (Wrapf msgBinarySearch) new res)
     /\ (2 <= Datatypes.length new)%nat.

(** C4 as the claim states it: the returned error wraps the probe's error
    under a message that names the page that failed. *)
Definition wrapped_with_failed_page (fuel : nat) (ctx : Context)
  (checker : PageChecker) (maxPage : Z) : Prop :=
  forall p e,
    In p (trace_of (FindTotalPages fuel ctx checker maxPage)) ->
    snd (checker ctx p) = Some e ->
    exists prefix,
      result_of (FindTotalPages fuel ctx checker maxPage)
      = Some (0, Some (Wrapf prefix e))
      /\ mentions_page prefix p = true.


(** [total P Q n m]: run from any trace, [m] returns a value that
    satisfies [Q] after appending at most [n] pages, all satisfying [P]. *)
Definition total {A} (P : Z -> Prop) (Q : A -> Prop) (n : nat) (m : M A) : Prop :=
  forall tr, exists a new,
    m tr = (Some a, tr ++ new) /\ Forall P new /\ Q a /\
    (Datatypes.length new <= n)%nat.

(** [v] has data and the page after it has none. *)
Definition local_boundary (ctx : Context) (checker : PageChecker) (v : Z) : Prop :=
  has_data checker ctx v /\ ~ has_data checker ctx (v + 1).

(** The state of a search over a probe that need not be monotone: [b] is
    an empty page, [right] is [b] or the page before it, and
    [lastValidPage] has data, lies below [b] and on [left] or just below
    it. *)
Definition bracket (ctx : Context) (checker : PageChecker)
  (left right lastValidPage b : Z) : Prop :=
  0 <= left /\ left <= right + 1 /\ (right = b \/ right = b - 1) /\
  ~ has_data checker ctx b /\ has_data checker ctx lastValidPage /\
  lastValidPage < b /\ (lastValidPage = left \/ lastValidPage = left - 1).

(** The pages added by a run of the concurrent finder that met a probe
    error: error-free probes, then at most two probes (a failing probe of
    the page-1 check, the growth phase or the scan, or the two probes of a
    round), one of which failed with the error returned. *)
Definition aborted_round (ctx : Context) (checker : PageChecker)
  (wrapper : error -> error) (new : Trace)
  (res : option (Z * option error)) : Prop :=
  exists pre last q e,
    new = pre ++ last /\
    Forall (fun p => snd (checker ctx p) = None) pre /\
    (Datatypes.length last <= 2)%nat /\
    In q last /\ snd (checker ctx q) = Some e /\
    res = Some (0, Some (wrapper e)).

(** The token mutex is free: no read lock is held and it is not locked
    for writing. *)
Definition unlocked {World : Type} (c : Client World) : Prop :=
  readers (tokenMu c) = 0%nat /\ writer (tokenMu c) = false.

(** The URL [refreshToken] posts to. *)
Definition token_endpoint {World : Type} (c : Client World) : string :=
  ("https://" ++ subdomain c ++ "." ++ domain c ++ "/oauth2/access_token")%string.

(** A runtime in which nothing fails, the token endpoint always grants a
    token that can itself be refreshed, and every other request is
    answered 401. *)
Definition always_unauthorized {World : Type} (rt : Runtime World) (ctx : Context)
  (c : Client World) : Prop :=
  (forall w, fst (rateLimiter_Wait rt ctx w) = None)
  /\ (forall method url, http_NewRequestWithContext rt ctx method url = None)
  /\ (forall req w,
        snd (fst (httpClient_Do rt req w)) = None
        /\ resp_StatusCode (fst (fst (httpClient_Do rt req w)))
           = if String.eqb (req_URL req) (token_endpoint c) then 200 else 401)
  /\ (forall body,
        snd (json_Decode_Token rt body) = None
        /\ RefreshToken (fst (json_Decode_Token rt body)) <> EmptyString).

(** The errors [do] makes itself: a failing stage, wrapped under its
    message, or the server's error status. *)
Definition do_error (e : error + APIError) : Prop :=
  match e with
  | inl e =>
    exists prefix inner,
      e = Wrapf prefix inner
      /\ In prefix ["rate limiter error: "; "invalid URL: "; "failed to create request: ";
                    "authentication error: "; "request failed: ";
                    "token refresh failed: "]%string
  | inr api => 400 <= api_StatusCode api
  end.

(** The filter of [exampleIterateWithLinks] when it asks for page [p], and
    the number of contacts the server has on that page. *)
Definition linksFilter (p : nat) : ContactsFilter :=
  mkContactsFilter EmptyString 250 (Z.of_nat p) EmptyString EmptyString.

Definition contactsOn {Contact : Type} (ctx : Context)
  (ListWithResponse : Context -> ContactsFilter -> ContactsResponse Contact * option error)
  (p : nat) : Z :=
  Z.of_nat (Datatypes.length (cr_Contacts (fst (ListWithResponse ctx (linksFilter p))))).

(** Page [p] is served without error and links to a next page. *)
Definition links_on {Contact : Type} (ctx : Context)
  (ListWithResponse : Context -> ContactsFilter -> ContactsResponse Contact * option error)
  (p : nat) : Prop :=
  snd (ListWithResponse ctx (linksFilter p)) = None
  /\ HasNext (cr_Links (fst (ListWithResponse ctx (linksFilter p)))) = true.

(** Two runs end alike: both exhaust the budget, or both return the same
    value, with an error in the one exactly when there is an error in the
    other. *)
Definition same_outcome (r r' : option (Z * option error)) : Prop :=
  match r, r' with
  | Some (v, e), Some (v', e') => v = v' /\ (e = None <-> e' = None)
  | None, None => True
  | _, _ => False
  end.

(** An answer of the probe: data and no error; no error. *)
Definition gave_data (a : bool * option error) : Prop := a = (true, None).

Definition gave_no_error (a : bool * option error) : Prop := snd a = None.

(** The answers are those of a search that a failing probe ended with the
    error [e]: no probe failed before the first failing one, which is the
    last or the last but one, and [e] is the error of one of them. *)
Definition aborted_with (ans : list (bool * option error)) (e : error) : Prop :=
  exists pre d e0 post,
    ans = pre ++ (d, Some e0) :: post
    /\ Forall gave_no_error pre
    /\ (post = [] /\ e = e0
        \/ exists a, post = [a] /\ (e = e0 \/ snd a = Some e)).


(** The request [do] builds before it authenticates it. *)
Definition do_request (method url : string) : Request :=
  Request_Header_Set "User-Agent" "amocrm-go/1.0"
    (Request_Header_Set "Content-Type" "application/json"
       (mkRequest method url [] None)).

(** The world after a debug message of a client. *)
Definition after_debug {World : Type} (rt : Runtime World) (c : Client World)
  (msg : string) (fields : list (string * LogValue)) (w : World) : World :=
  if debug c then logger_Debug rt msg fields w else w.

Section DoEnds.

Local Open Scope string_scope.

Variable World : Type.
Variable rt : Runtime World.
Variable ctx : Context.
Variables method path : string.

(** The stages before authentication pass: the rate limiter, the URL and
    the request constructor return no error. *)
Definition prepared (c : Client World) (w w1 : World) (url : string) : Prop :=
  rateLimiter_Wait rt ctx w = (None, w1)
  /\ url_Parse rt (baseURL c ++ path) = (url, None)
  /\ http_NewRequestWithContext rt ctx method url = None.

(** The transport is called: the stages before it pass, and [addAuth]
    returns the request [req] without error. *)
Definition sent (c : Client World) (w : World) (url : string) (req : Request)
  (c2 : Client World) (w2 : World) : Prop :=
  exists w1,
    prepared c w w1 url
    /\ Client_addAuth rt ctx (do_request method url) (c, w1)
       = Returns ((req, None), (c2, w2)).

(** The server answers: the transport returns [resp] without error. *)
Definition answered (c : Client World) (w : World) (resp : Response)
  (c2 : Client World) (w4 : World) : Prop :=
  exists url req w2 w3,
    sent c w url req c2 w2
    /\ httpClient_Do rt req
         (after_debug rt c "API Request"
            [("method", LogString method); ("url", LogString url)] w2)
       = ((resp, None), w3)
    /\ w4 = after_debug rt c "API Response"
              [("status", LogInt (resp_StatusCode resp)); ("url", LogString url)] w3.

(** How a call of [do] ends, stage by stage: [do_ends s r s'] when [do],
    called in state [s], returns [r] in state [s']. *)
Inductive do_ends
  : Client World * World -> option Response * option (error + APIError)
    -> Client World * World -> Prop :=
| rate_limiter_fails c w inner w1 :
    rateLimiter_Wait rt ctx w = (Some inner, w1) ->
    do_ends (c, w) (None, Some (inl (Wrapf "rate limiter error: " inner))) (c, w1)
| url_fails c w w1 url inner :
    rateLimiter_Wait rt ctx w = (None, w1) ->
    url_Parse rt (baseURL c ++ path) = (url, Some inner) ->
    do_ends (c, w) (None, Some (inl (Wrapf "invalid URL: " inner))) (c, w1)
| request_fails c w w1 url inner :
    rateLimiter_Wait rt ctx w = (None, w1) ->
    url_Parse rt (baseURL c ++ path) = (url, None) ->
    http_NewRequestWithContext rt ctx method url = Some inner ->
    do_ends (c, w) (None, Some (inl (Wrapf "failed to create request: " inner))) (c, w1)
| authentication_fails c w w1 url req inner s2 :
    prepared c w w1 url ->
    Client_addAuth rt ctx (do_request method url) (c, w1)
    = Returns ((req, Some inner), s2) ->
    do_ends (c, w) (None, Some (inl (Wrapf "authentication error: " inner))) s2
| transport_fails c w url req c2 w2 resp inner w3 :
    sent c w url req c2 w2 ->
    httpClient_Do rt req
      (after_debug rt c "API Request"
         [("method", LogString method); ("url", LogString url)] w2)
    = ((resp, Some inner), w3) ->
    do_ends (c, w) (None, Some (inl (Wrapf "request failed: " inner))) (c2, w3)
| refresh_fails c w resp c2 w4 inner s5 :
    answered c w resp c2 w4 ->
    resp_StatusCode resp = 401 -> authType c2 = AuthTypeOAuth2 ->
    Client_refreshToken rt ctx (c2, w4) = Returns (Some inner, s5) ->
    do_ends (c, w) (None, Some (inl (Wrapf "token refresh failed: " inner))) s5
| retried c w resp c2 w4 s5 r s' :
    answered c w resp c2 w4 ->
    resp_StatusCode resp = 401 -> authType c2 = AuthTypeOAuth2 ->
    Client_refreshToken rt ctx (c2, w4) = Returns (None, s5) ->
    do_ends s5 r s' ->
    do_ends (c, w) r s'
| server_error c w resp c2 w4 :
    answered c w resp c2 w4 ->
    ~ (resp_StatusCode resp = 401 /\ authType c2 = AuthTypeOAuth2) ->
    400 <= resp_StatusCode resp ->
    do_ends (c, w)
      (None, Some (inr (mkAPIError (resp_StatusCode resp) (resp_Body resp)))) (c2, w4)
| success c w resp c2 w4 :
    answered c w resp c2 w4 ->
    resp_StatusCode resp < 400 ->
    do_ends (c, w) (Some resp, None) (c2, w4).

End DoEnds.

Arguments do_ends {World} _ _ _ _ _ _ _.


(** * Properties *)

(** ** Sanity checks against the test table *)

Example seq_10 :
  run (FindTotalPages 64 Background (threshold 10) 1000)
  = (Some (10, None), [1; 2; 4; 8; 16; 12; 9; 10; 11]).
Proof. vm_compute. reflexivity. Qed.

Example conc_10 :
  run (FindTotalPagesConcurrent 64 in_order Background (threshold 10) 1000)
  = (Some (10, None), [1; 2; 4; 8; 16; 10; 13; 12; 11]).
Proof. vm_compute. reflexivity. Qed.

Example cancelled_100 :
  run (FindTotalPages 64 Cancelled (threshold 100) 1000)
  = (Some (0, Some (Wrapf msgBinarySearch Canceled)), [1; 2; 4; 8; 16; 32; 64; 128]).
Proof. vm_compute. reflexivity. Qed.

(** ** Arithmetic of [int] *)

Lemma wrap_id z : in_int z -> wrap z = z.
Proof.
  unfold in_int, int_min, int_max, wrap. intros H.
  rewrite Z.mod_small; lia.
Qed.

Lemma wrap_in_int z : in_int (wrap z).
Proof.
  unfold in_int, int_min, int_max, wrap.
  pose proof (Z.mod_pos_bound (z + 2 ^ 63) (2 ^ 64) ltac:(lia)). lia.
Qed.

Lemma add_exact a b : in_int (a + b) -> add a b = a + b.
Proof. apply wrap_id. Qed.

Lemma sub_exact a b : in_int (a - b) -> sub a b = a - b.
Proof. apply wrap_id. Qed.

Lemma mul_exact a b : in_int (a * b) -> mul a b = a * b.
Proof. apply wrap_id. Qed.

Lemma div_exact a b : in_int (Z.quot a b) -> div a b = Z.quot a b.
Proof. apply wrap_id. Qed.

Lemma quot2_bounds a : 0 <= a -> 2 * Z.quot a 2 <= a < 2 * Z.quot a 2 + 2.
Proof. intros. Z.to_euclidean_division_equations. lia. Qed.

Lemma quot3_bounds a : 0 <= a -> 3 * Z.quot a 3 <= a < 3 * Z.quot a 3 + 3.
Proof. intros. Z.to_euclidean_division_equations. lia. Qed.

Lemma quot2_neg a : a < 0 -> a < Z.quot a 2 <= 0.
Proof. intros. Z.to_euclidean_division_equations. lia. Qed.

(** Rewrites the checked-in-range operations to the exact ones. *)
Ltac int_range := unfold in_int, int_min, int_max in *; lia.

(** ** C7: a non-positive ceiling is the default ceiling *)

Lemma normalize_nonpositive c : c <= 0 -> normalize c = 100000.
Proof. unfold normalize. intros H. apply Z.leb_le in H. now rewrite H. Qed.

Lemma normalize_positive c : 0 < c -> normalize c = c.
Proof. unfold normalize. intros H. apply Z.leb_gt in H. now rewrite H. Qed.

(** C7. Called with a ceiling [c <= 0], each finder runs exactly as with the
    ceiling 100000: the same value, the same error and the same sequence of
    probed pages. *)
Theorem nonpositive_ceiling_is_default
  (fuel : nat) (sched : Schedule) (ctx : Context) (checker : PageChecker) (c : Z) :
  c <= 0 ->
  run (FindTotalPages fuel ctx checker c)
  = run (FindTotalPages fuel ctx checker 100000)
  /\ run (FindTotalPagesConcurrent fuel sched ctx checker c)
     = run (FindTotalPagesConcurrent fuel sched ctx checker 100000).
Proof.
  intros Hc. unfold run, FindTotalPages, FindTotalPagesConcurrent.
  rewrite (normalize_nonpositive c Hc), (normalize_positive 100000) by lia.
  split; reflexivity.
Qed.

Lemma nonpositive_ceiling_is_default_witness :
  -5 <= 0 /\
  run (FindTotalPages 64 Background (threshold 10) (-5))
  = run (FindTotalPages 64 Background (threshold 10) 100000).
Proof.
  split; [lia |].
  apply (nonpositive_ceiling_is_default 64 in_order Background (threshold 10) (-5)).
  lia.
Defined.

(** ** C9: the links adapter *)

(** C9. The probe built by [CreatePageChecker] reports data exactly when
    the fetched links have a non-empty [Self.Href], with a nil error; when
    the fetcher fails it returns [false] and the fetcher's error, whatever
    the links are. *)
Theorem CreatePageChecker_spec (fetcher : Fetcher) (ctx : Context) (page : Z) :
  (forall links, fetcher ctx page = (links, None) ->
     snd (CreatePageChecker fetcher ctx page) = None /\
     (fst (CreatePageChecker fetcher ctx page) = true
      <-> Href (Self links) <> EmptyString))
  /\
  (forall links err, fetcher ctx page = (links, Some err) ->
     CreatePageChecker fetcher ctx page = (false, Some err)).
Proof.
  unfold CreatePageChecker. split.
  - intros links H. rewrite H. cbn. split; [reflexivity |].
    destruct (String.eqb_spec (Href (Self links)) EmptyString) as [E | E]; cbn.
    + split; [discriminate | intros N; now elim N].
    + split; [intros _; exact E | reflexivity].
  - intros links err H. rewrite H. reflexivity.
Qed.

Lemma CreatePageChecker_spec_witness :
  let links := mkLinks (mkLink "https://example.amocrm.ru/api/v4/contacts?page=5")
                       (mkLink "") (mkLink "") in
  fst (CreatePageChecker (fun _ _ => (links, None)) Background 5) = true
  /\ CreatePageChecker (fun _ _ => (links, Some DeadlineExceeded)) Background 5
     = (false, Some DeadlineExceeded).
Proof.
  intros links. split.
  - apply (proj1 (CreatePageChecker_spec (fun _ _ => (links, None)) Background 5)
             links eq_refl).
    discriminate.
  - apply (proj2 (CreatePageChecker_spec
                    (fun _ _ => (links, Some DeadlineExceeded)) Background 5)
             links DeadlineExceeded eq_refl).
Defined.

(** ** C8: probes issued for zero pages and for one page *)

Lemma ctx_eta ctx e : ctx_Err ctx = e -> ctx = mkContext e.
Proof. destruct ctx; cbn; congruence. Qed.

(** As C8 states it: one page and the test's ceiling 1000 give 2 probes.
    The finder issues 4: pages 1 and 2, then the binary search of [1, 2]
    probes both again. *)
Lemma single_page_is_not_two_probes :
  Datatypes.length (trace_of (FindTotalPages 64 Background (threshold 1) 1000)) <> 2%nat.
Proof. vm_compute. discriminate. Qed.

(** C8, amended. With the probe [page <= n] the sequential finder issues
    exactly 1 probe (page 1) when [n = 0], whatever the ceiling, and, when
    [n = 1], the context is not cancelled and the ceiling is the default
    or greater than 2, exactly 4 probes: pages 1, 2, 1 and 2. *)
Theorem probe_count_zero_and_one (fuel : nat) (ctx : Context) (maxPage : Z) :
  run (FindTotalPages fuel ctx (threshold 0) maxPage) = (Some (0, None), [1])
  /\ ((3 <= fuel)%nat -> ctx_Err ctx = None -> maxPage <= 0 \/ 2 < maxPage ->
      run (FindTotalPages fuel ctx (threshold 1) maxPage)
      = (Some (1, None), [1; 2; 1; 2])).
Proof.
  split; [reflexivity |].
  intros Hfuel Hctx Hmax. apply ctx_eta in Hctx. subst ctx.
  assert (Hm : 2 < normalize maxPage).
  { destruct Hmax as [H | H].
    - rewrite normalize_nonpositive by exact H. lia.
    - rewrite normalize_positive by lia. exact H. }
  do 3 (destruct fuel as [| fuel]; [lia |]). clear Hfuel.
  unfold run, FindTotalPages. generalize dependent (normalize maxPage).
  intros m Hm. unfold bind at 1. cbn [call threshold fst snd negb Z.leb Z.compare].
  cbn [negb]. unfold findUpperBound, bind at 1.
  cbn [findUpperBound_loop].
  assert (H1 : (1 <? m) = true) by (apply Z.ltb_lt; lia).
  assert (H2 : (mul 1 2 >? m) = false).
  { change (mul 1 2) with 2. rewrite Z.gtb_ltb. apply Z.ltb_ge. lia. }
  rewrite H1, H2. change (mul 1 2) with 2.
  unfold bind at 1. cbn [call threshold fst snd negb app].
  change (2 <=? 1) with false. cbn [negb ret fst snd].
  assert (H3 : (2 =? m) = false) by (apply Z.eqb_neq; lia).
  rewrite H3. reflexivity.
Qed.

Lemma probe_count_zero_and_one_witness :
  run (FindTotalPages 64 Background (threshold 1) 1000)
  = (Some (1, None), [1; 2; 1; 2]).
Proof.
  apply (proj2 (probe_count_zero_and_one 64 Background 1000));
    [lia | reflexivity | right; lia].
Defined.

(** ** A Hoare logic for the finder monad

    The rules of [spec]; its trace part also covers runs whose budget ran
    out. *)

Lemma spec_ret {A} (P : Z -> Prop) (Q : A -> Prop) (a : A) :
  Q a -> spec P Q (ret a).
Proof.
  intros Ha tr. exists []. cbn. rewrite app_nil_r.
  repeat split; [constructor |]. intros b [= <-]. exact Ha.
Qed.

Lemma spec_out_of_fuel {A} (P : Z -> Prop) (Q : A -> Prop) :
  spec P Q (@out_of_fuel A).
Proof.
  intros tr. exists []. cbn. rewrite app_nil_r.
  repeat split; [constructor | discriminate].
Qed.

Lemma spec_call (P : Z -> Prop) checker ctx p :
  P p -> spec P (fun r => r = checker ctx p) (call checker ctx p).
Proof.
  intros Hp tr. exists [p]. cbn.
  repeat split; [repeat constructor; exact Hp |]. now intros a [= <-].
Qed.

Lemma spec_bind {A B} (P : Z -> Prop) (Q : A -> Prop) (Q' : B -> Prop)
  (m : M A) (k : A -> M B) :
  spec P Q m -> (forall a, Q a -> spec P Q' (k a)) -> spec P Q' (bind m k).
Proof.
  intros Hm Hk tr. unfold bind.
  destruct (Hm tr) as (new & Htr & Hnew & Hres).
  destruct (m tr) as [[a |] tr1]; cbn in *; subst tr1.
  - destruct (Hk a (Hres a eq_refl) (tr ++ new)) as (new' & Htr' & Hnew' & Hres').
    exists (new ++ new'). rewrite app_assoc.
    repeat split; [exact Htr' | apply Forall_app; now split | exact Hres'].
  - exists new. repeat split; [exact Hnew | discriminate].
Qed.

Lemma spec_weaken {A} (P P' : Z -> Prop) (Q Q' : A -> Prop) (m : M A) :
  (forall p, P p -> P' p) -> (forall a, Q a -> Q' a) ->
  spec P Q m -> spec P' Q' m.
Proof.
  intros HP HQ Hm tr. destruct (Hm tr) as (new & Htr & Hnew & Hres).
  exists new. repeat split; [exact Htr | | auto].
  eapply Forall_impl; [| exact Hnew]. exact HP.
Qed.

Lemma spec_probePair (P : Z -> Prop) il checker ctx mid1 mid2 :
  P mid1 -> P mid2 ->
  spec P (fun _ => True) (probePair il checker ctx mid1 mid2).
Proof.
  intros H1 H2 tr. unfold probePair. cbn.
  exists (if calls_swapped il then [mid2; mid1] else [mid1; mid2]).
  repeat split. destruct (calls_swapped il); repeat constructor; assumption.
Qed.

Lemma spec_trace {A} (P : Z -> Prop) (Q : A -> Prop) (m : M A) :
  spec P Q m -> Forall P (trace_of m).
Proof.
  intros Hm. destruct (Hm []) as (new & Htr & Hnew & _).
  unfold trace_of, run. rewrite Htr. exact Hnew.
Qed.

Lemma spec_result {A} (P : Z -> Prop) (Q : A -> Prop) (m : M A) a :
  spec P Q m -> result_of m = Some a -> Q a.
Proof.
  intros Hm. destruct (Hm []) as (new & _ & _ & Hres). exact (Hres a).
Qed.

(** ** C6: no probe beyond the ceiling *)

Section CeilingRespect.

Variables (ctx : Context) (checker : PageChecker).

Lemma findUpperBound_loop_below (m : Z) (fuel : nat) : in_int m -> forall page,
  spec (fun p => p <= m)
       (fun r => snd r = None -> fst r <= m /\ in_int (fst r))
       (findUpperBound_loop fuel ctx checker m page).
Proof.
  intros Hm. induction fuel as [| fuel IH]; intros page; cbn [findUpperBound_loop].
  - apply spec_out_of_fuel.
  - destruct (page <? m); [| apply spec_ret; cbn; split; [lia | exact Hm]].
    set (nextPage := if mul page 2 >? m then m else mul page 2).
    assert (Hn : nextPage <= m /\ in_int nextPage).
    { subst nextPage. rewrite Z.gtb_ltb.
      destruct (Z.ltb_spec m (mul page 2)); split;
        try lia; try exact Hm; apply wrap_in_int. }
    eapply spec_bind; [apply spec_call; apply Hn |].
    intros r ->. destruct (checker ctx nextPage) as [hasData [err |]]; cbn.
    + apply spec_ret. cbn. discriminate.
    + destruct hasData; cbn; [apply IH | apply spec_ret; cbn; intros _; exact Hn].
Qed.

Lemma mid_exact left right :
  0 <= left <= right -> in_int right ->
  add left (div (sub right left) 2) = left + Z.quot (right - left) 2.
Proof.
  intros H Hr. pose proof (quot2_bounds (right - left) ltac:(lia)).
  rewrite sub_exact by int_range. rewrite div_exact by int_range.
  apply add_exact. int_range.
Qed.

Lemma binarySearch_loop_below (R : Z) (fuel : nat) :
  in_int (R + 1) -> forall left right lastValidPage,
  right < left \/ (0 <= left <= R + 1 /\ -1 <= right <= R) ->
  spec (fun p => p <= R) (fun _ => True)
       (binarySearch_loop fuel ctx checker left right lastValidPage).
Proof.
  intros HR. induction fuel as [| fuel IH]; intros left right lv Inv;
    cbn [binarySearch_loop].
  - apply spec_out_of_fuel.
  - destruct (Z.leb_spec left right) as [Hle | Hgt]; [| now apply spec_ret].
    destruct Inv as [Inv | Inv]; [lia |].
    destruct (ctx_Err ctx); [now apply spec_ret |].
    rewrite mid_exact by int_range.
    pose proof (quot2_bounds (right - left) ltac:(lia)) as Hq.
    set (mid := left + Z.quot (right - left) 2) in *.
    eapply spec_bind; [apply spec_call; lia |].
    intros r ->. destruct (checker ctx mid) as [hasData [err |]]; cbn.
    + now apply spec_ret.
    + destruct hasData.
      * rewrite add_exact by int_range. apply IH. right. lia.
      * rewrite sub_exact by int_range. apply IH. right. lia.
Qed.

Lemma linearScan_below (R : Z) (fuel : nat) :
  in_int R -> forall left page lastValidPage,
  0 <= left -> page <= R ->
  spec (fun p => p <= R) (fun _ => True)
       (linearScan fuel ctx checker left page lastValidPage).
Proof.
  intros HR. induction fuel as [| fuel IH]; intros left page lv Hl Hp;
    cbn [linearScan].
  - apply spec_out_of_fuel.
  - rewrite Z.geb_leb.
    destruct (Z.leb_spec left page) as [Hle | Hgt]; [| now apply spec_ret].
    eapply spec_bind; [apply spec_call; lia |].
    intros r ->. destruct (checker ctx page) as [hasData [err |]]; cbn.
    + now apply spec_ret.
    + destruct hasData; [now apply spec_ret |].
      rewrite sub_exact by int_range. apply IH; lia.
Qed.

Lemma mid1_exact left right :
  0 <= left <= right -> in_int right ->
  add left (div (sub right left) 3) = left + Z.quot (right - left) 3.
Proof.
  intros H Hr. pose proof (quot3_bounds (right - left) ltac:(lia)).
  rewrite sub_exact by int_range. rewrite div_exact by int_range.
  apply add_exact. int_range.
Qed.

Lemma mid2_exact left right :
  0 <= left <= right -> in_int right -> right - left < 2 ^ 62 ->
  add left (div (mul 2 (sub right left)) 3)
  = left + Z.quot (2 * (right - left)) 3.
Proof.
  intros H Hr Hw. pose proof (quot3_bounds (2 * (right - left)) ltac:(lia)).
  rewrite sub_exact by int_range. rewrite mul_exact by int_range.
  rewrite div_exact by int_range. apply add_exact. int_range.
Qed.

Lemma collect_two res1 res2 mid1 mid2 :
  res_page res1 = mid1 -> res_page res2 = mid2 -> mid1 <> mid2 ->
  res_err res1 = None -> res_err res2 = None ->
  collect [res1; res2] mid1 mid2 false false
  = inr (res_hasData res1, res_hasData res2)
  /\ collect [res2; res1] mid1 mid2 false false
     = inr (res_hasData res1, res_hasData res2).
Proof.
  intros H1 H2 Hne E1 E2. cbn. rewrite E1, E2, H1, H2, Z.eqb_refl.
  apply Z.eqb_neq in Hne. rewrite Z.eqb_sym in Hne. rewrite Hne, Z.eqb_refl.
  split; reflexivity.
Qed.

Lemma binarySearchConcurrent_loop_below (R : Z) (fuel : nat) :
  in_int (R + 1) -> forall sched left right lastValidPage,
  right < left \/ (0 <= left <= R + 1 /\ -1 <= right <= R /\ right - left < 2 ^ 62) ->
  spec (fun p => p <= R) (fun _ => True)
       (binarySearchConcurrent_loop fuel sched ctx checker left right lastValidPage).
Proof.
  intros HR. induction fuel as [| fuel IH]; intros sched left right lv Inv;
    cbn [binarySearchConcurrent_loop].
  - apply spec_out_of_fuel.
  - destruct (Z.leb_spec left right) as [Hle | Hgt]; [| now apply spec_ret].
    destruct Inv as [Inv | Inv]; [lia |].
    destruct (ctx_Err ctx); [now apply spec_ret |].
    destruct (sub right left <=? 3).
    { apply linearScan_below; [int_range | lia | lia]. }
    rewrite mid1_exact, mid2_exact by int_range.
    pose proof (quot3_bounds (right - left) ltac:(lia)) as Hq1.
    pose proof (quot3_bounds (2 * (right - left)) ltac:(lia)) as Hq2.
    set (mid1 := left + Z.quot (right - left) 3) in *.
    set (mid2 := left + Z.quot (2 * (right - left)) 3) in *.
    eapply spec_bind; [apply spec_probePair; lia |].
    intros results _.
    destruct (collect results mid1 mid2 false false) as [err | [m1 m2]];
      [now apply spec_ret |].
    destruct m2; [| destruct m1].
    + rewrite add_exact by int_range. apply IH. right. lia.
    + rewrite add_exact, sub_exact by int_range. apply IH. right. lia.
    + rewrite sub_exact by int_range. apply IH. right. lia.
Qed.

End CeilingRespect.

(** The growth phase of the concurrent finder is the sequential one. *)
Lemma findUpperBoundConcurrent_eq fuel ctx checker maxPage tr :
  findUpperBoundConcurrent fuel ctx checker maxPage tr
  = findUpperBound fuel ctx checker maxPage tr.
Proof.
  unfold findUpperBoundConcurrent, findUpperBound. generalize 1. revert tr.
  induction fuel as [| fuel IH]; intros tr page; cbn; [reflexivity |].
  destruct (page <? maxPage); [| reflexivity].
  unfold bind, call.
  destruct (snd (checker ctx _)); [reflexivity |].
  destruct (negb (fst (checker ctx _))); [reflexivity | apply IH].
Qed.

Section CeilingRespectTop.

Variables (ctx : Context) (checker : PageChecker).

Lemma quot2_window ub :
  in_int ub -> ub < int_max ->
  ub < div ub 2 \/
  (0 <= div ub 2 <= ub + 1 /\ -1 <= ub <= ub /\ ub - div ub 2 < 2 ^ 62).
Proof.
  intros Hub Hlt. destruct (Z_lt_le_dec ub 0) as [Hneg | Hpos].
  - left. pose proof (quot2_neg ub Hneg). rewrite div_exact by int_range. lia.
  - right. pose proof (quot2_bounds ub Hpos). rewrite div_exact by int_range.
    int_range.
Qed.

Lemma FindTotalPages_below fuel maxPage :
  in_int (normalize maxPage) ->
  spec (fun p => p <= normalize maxPage) (fun _ => True)
       (FindTotalPages fuel ctx checker maxPage).
Proof.
  intros Hm. assert (Hpos : 0 < normalize maxPage).
  { unfold normalize, defaultMaxPage. destruct (Z.leb_spec maxPage 0); lia. }
  unfold FindTotalPages. generalize dependent (normalize maxPage). intros m Hm Hpos.
  eapply spec_bind; [apply spec_call; lia |].
  intros r ->. destruct (checker ctx 1) as [hasData [err |]]; cbn;
    [now apply spec_ret |].
  destruct hasData; cbn; [| now apply spec_ret].
  eapply spec_bind; [apply (findUpperBound_loop_below ctx checker m fuel Hm) |].
  intros [ub [err |]] Hub; cbn; [now apply spec_ret |].
  destruct (Hub eq_refl) as [Hle Hin]. cbn in Hle, Hin.
  destruct (Z.eqb_spec ub m) as [-> | Hne]; [now apply spec_ret |].
  eapply spec_bind with (Q := fun _ => True); [| intros [v [e |]] _; now apply spec_ret].
  apply spec_weaken with (P := fun p => p <= ub) (Q := fun _ => True);
    [intros; lia | trivial |].
  apply binarySearch_loop_below; [int_range |].
  destruct (quot2_window ub Hin ltac:(int_range)) as [H | H];
    [left; exact H | right; lia].
Qed.

Lemma FindTotalPagesConcurrent_below fuel sched maxPage :
  in_int (normalize maxPage) ->
  spec (fun p => p <= normalize maxPage) (fun _ => True)
       (FindTotalPagesConcurrent fuel sched ctx checker maxPage).
Proof.
  intros Hm. assert (Hpos : 0 < normalize maxPage).
  { unfold normalize, defaultMaxPage. destruct (Z.leb_spec maxPage 0); lia. }
  unfold FindTotalPagesConcurrent. generalize dependent (normalize maxPage).
  intros m Hm Hpos.
  eapply spec_bind; [apply spec_call; lia |].
  intros r ->. destruct (checker ctx 1) as [hasData [err |]]; cbn;
    [now apply spec_ret |].
  destruct hasData; cbn; [| now apply spec_ret].
  eapply spec_bind.
  { intros tr. rewrite findUpperBoundConcurrent_eq.
    apply (findUpperBound_loop_below ctx checker m fuel Hm). }
  intros [ub [err |]] Hub; cbn; [now apply spec_ret |].
  destruct (Hub eq_refl) as [Hle Hin]. cbn in Hle, Hin.
  destruct (Z.eqb_spec ub m) as [-> | Hne]; [now apply spec_ret |].
  eapply spec_bind with (Q := fun _ => True); [| intros [v [e |]] _; now apply spec_ret].
  apply spec_weaken with (P := fun p => p <= ub) (Q := fun _ => True);
    [intros; lia | trivial |].
  apply binarySearchConcurrent_loop_below; [int_range |].
  destruct (quot2_window ub Hin ltac:(int_range)) as [H | H];
    [left; exact H | right; lia].
Qed.

End CeilingRespectTop.

(** C6. For every probe, context, scheduling and loop budget, and every
    ceiling that is an [int]: with a positive ceiling neither finder probes
    a page above it, and with a non-positive one neither probes a page
    above 100000.  The bound holds on every prefix of a run as well. *)
Theorem probes_respect_ceiling
  (fuel : nat) (sched : Schedule) (ctx : Context) (checker : PageChecker)
  (maxPage : Z) :
  in_int maxPage ->
  (0 < maxPage ->
     Forall (fun p => p <= maxPage) (trace_of (FindTotalPages fuel ctx checker maxPage))
     /\ Forall (fun p => p <= maxPage)
          (trace_of (FindTotalPagesConcurrent fuel sched ctx checker maxPage)))
  /\ (maxPage <= 0 ->
     Forall (fun p => p <= 100000) (trace_of (FindTotalPages fuel ctx checker maxPage))
     /\ Forall (fun p => p <= 100000)
          (trace_of (FindTotalPagesConcurrent fuel sched ctx checker maxPage))).
Proof.
  intros Hin.
  assert (Hn : in_int (normalize maxPage)).
  { unfold normalize, defaultMaxPage. destruct (maxPage <=? 0); [int_range | exact Hin]. }
  pose proof (spec_trace _ _ _ (FindTotalPages_below ctx checker fuel maxPage Hn)) as Hs.
  pose proof (spec_trace _ _ _
                (FindTotalPagesConcurrent_below ctx checker fuel sched maxPage Hn)) as Hc.
  split; intros Hsign.
  - rewrite normalize_positive in Hs, Hc by exact Hsign. now split.
  - rewrite normalize_nonpositive in Hs, Hc by exact Hsign. now split.
Qed.

Lemma probes_respect_ceiling_witness :
  Forall (fun p => p <= 20) (trace_of (FindTotalPages 64 Background endless 20))
  /\ Forall (fun p => p <= 20)
       (trace_of (FindTotalPagesConcurrent 64 in_order Background endless 20)).
Proof.
  apply (proj1 (probes_respect_ceiling 64 in_order Background endless 20
                  ltac:(unfold in_int, int_min, int_max; lia))).
  lia.
Defined.

(** ** The finders, phase by phase *)

Lemma FindTotalPages_unfold fuel ctx checker maxPage tr :
  FindTotalPages fuel ctx checker maxPage tr
  = let m := normalize maxPage in
    match checker ctx 1 with
    | (_, Some err) => (Some (0, Some (Wrapf msgPage1 err)), tr ++ [1])
    | (false, None) => (Some (0, None), tr ++ [1])
    | (true, None) =>
      match findUpperBound fuel ctx checker m (tr ++ [1]) with
      | (None, tr1) => (None, tr1)
      | (Some (_, Some err), tr1) => (Some (0, Some (Wrapf msgUpperBound err)), tr1)
      | (Some (ub, None), tr1) =>
        if ub =? m then (Some (m, None), tr1)
        else
          match binarySearch fuel ctx checker (div ub 2) ub tr1 with
          | (None, tr2) => (None, tr2)
          | (Some (_, Some err), tr2) =>
            (Some (0, Some (Wrapf msgBinarySearch err)), tr2)
          | (Some (lp, None), tr2) => (Some (lp, None), tr2)
          end
      end
    end.
Proof.
  unfold FindTotalPages, bind, call, ret. cbn zeta.
  destruct (checker ctx 1) as [[|] [err |]]; cbn; try reflexivity.
  destruct (findUpperBound _ _ _ _ _) as [[[ub [err |]] |] tr1]; cbn;
    try reflexivity.
  destruct (ub =? normalize maxPage); [reflexivity |].
  destruct (binarySearch _ _ _ _ _ _) as [[[lp [err |]] |] tr2]; reflexivity.
Qed.

Lemma FindTotalPagesConcurrent_unfold fuel sched ctx checker maxPage tr :
  FindTotalPagesConcurrent fuel sched ctx checker maxPage tr
  = let m := normalize maxPage in
    match checker ctx 1 with
    | (_, Some err) => (Some (0, Some (Wrapf msgPage1 err)), tr ++ [1])
    | (false, None) => (Some (0, None), tr ++ [1])
    | (true, None) =>
      match findUpperBound fuel ctx checker m (tr ++ [1]) with
      | (None, tr1) => (None, tr1)
      | (Some (_, Some err), tr1) => (Some (0, Some (Wrapf msgUpperBound err)), tr1)
      | (Some (ub, None), tr1) =>
        if ub =? m then (Some (m, None), tr1)
        else
          match binarySearchConcurrent fuel sched ctx checker (div ub 2) ub tr1 with
          | (None, tr2) => (None, tr2)
          | (Some (_, Some err), tr2) =>
            (Some (0, Some (Wrapf msgBinarySearch err)), tr2)
          | (Some (lp, None), tr2) => (Some (lp, None), tr2)
          end
      end
    end.
Proof.
  unfold FindTotalPagesConcurrent, bind, call, ret. cbn zeta.
  destruct (checker ctx 1) as [[|] [err |]]; cbn; try reflexivity.
  rewrite findUpperBoundConcurrent_eq.
  destruct (findUpperBound _ _ _ _ _) as [[[ub [err |]] |] tr1]; cbn;
    try reflexivity.
  destruct (ub =? normalize maxPage); [reflexivity |].
  destruct (binarySearchConcurrent _ _ _ _ _ _ _) as [[[lp [err |]] |] tr2];
    reflexivity.
Qed.

(** ** C4: a probe error ends the sequential search at once *)

Section ProbeErrors.

Variables (ctx : Context) (checker : PageChecker).

Let ok (p : Z) : Prop := snd (checker ctx p) = None.


Lemma aborted_cons wrapper p new res :
  ok p -> aborted ctx checker wrapper new res -> aborted ctx checker wrapper (p :: new) res.
Proof.
  intros Hp (pre & q & e & -> & Hpre & He & Hres).
  exists (p :: pre), q, e. repeat split; auto.
Qed.

Lemma aborted_app wrapper l new res :
  Forall ok l -> aborted ctx checker wrapper new res -> aborted ctx checker wrapper (l ++ new) res.
Proof.
  intros Hl. induction Hl as [| p l Hp Hl IH]; intros H; cbn; [exact H |].
  apply aborted_cons; auto.
Qed.

Lemma findUpperBound_loop_errors fuel maxPage : forall page tr,
  exists new,
    snd (findUpperBound_loop fuel ctx checker maxPage page tr) = tr ++ new /\
    ((Forall ok new /\
      forall v e, fst (findUpperBound_loop fuel ctx checker maxPage page tr)
                  <> Some (v, Some e))
     \/ aborted ctx checker (fun e => e) new
          (fst (findUpperBound_loop fuel ctx checker maxPage page tr))).
Proof.
  induction fuel as [| fuel IH]; intros page tr; cbn [findUpperBound_loop].
  - exists []. cbn. rewrite app_nil_r. split; [reflexivity |]. left.
    split; [constructor | discriminate].
  - destruct (page <? maxPage).
    2:{ exists []. cbn. rewrite app_nil_r. split; [reflexivity |]. left.
        split; [constructor | discriminate]. }
    set (nextPage := if mul page 2 >? maxPage then maxPage else mul page 2).
    unfold bind, call.
    destruct (checker ctx nextPage) as [hasData [err |]] eqn:E; cbn [fst snd].
    + exists [nextPage]. cbn. split; [reflexivity |]. right.
      exists [], nextPage, err. rewrite E. repeat split. constructor.
    + assert (Hok : ok nextPage) by (unfold ok; now rewrite E).
      destruct hasData; cbn [negb].
      * destruct (IH nextPage (tr ++ [nextPage])) as (new & Htr & H).
        exists (nextPage :: new). rewrite Htr, <- app_assoc. split; [reflexivity |].
        destruct H as [[Hall Hres] | Hab].
        -- left. split; [now constructor | exact Hres].
        -- right. now apply aborted_cons.
      * exists [nextPage]. cbn. split; [reflexivity |]. left.
        split; [now repeat constructor | discriminate].
Qed.

Lemma binarySearch_loop_errors fuel : forall left right lastValidPage tr,
  exists new,
    snd (binarySearch_loop fuel ctx checker left right lastValidPage tr)
    = tr ++ new /\
    (Forall ok new
     \/ aborted ctx checker (fun e => e) new
          (fst (binarySearch_loop fuel ctx checker left right lastValidPage tr))).
Proof.
  induction fuel as [| fuel IH]; intros left right lv tr; cbn [binarySearch_loop].
  - exists []. cbn. rewrite app_nil_r. split; [reflexivity |]. left. constructor.
  - destruct (left <=? right).
    2:{ exists []. cbn. rewrite app_nil_r. split; [reflexivity |]. left. constructor. }
    destruct (ctx_Err ctx).
    { exists []. cbn. rewrite app_nil_r. split; [reflexivity |]. left. constructor. }
    set (mid := add left (div (sub right left) 2)).
    unfold bind, call.
    destruct (checker ctx mid) as [hasData [err |]] eqn:E; cbn [fst snd].
    + exists [mid]. cbn. split; [reflexivity |]. right.
      exists [], mid, err. rewrite E. repeat split. constructor.
    + assert (Hok : ok mid) by (unfold ok; now rewrite E).
      destruct hasData.
      * destruct (IH (add mid 1) right mid (tr ++ [mid])) as (new & Htr & H).
        exists (mid :: new). rewrite Htr, <- app_assoc. split; [reflexivity |].
        destruct H as [Hall | Hab]; [left; now constructor |].
        right. now apply aborted_cons.
      * destruct (IH left (sub mid 1) lv (tr ++ [mid])) as (new & Htr & H).
        exists (mid :: new). rewrite Htr, <- app_assoc. split; [reflexivity |].
        destruct H as [Hall | Hab]; [left; now constructor |].
        right. now apply aborted_cons.
Qed.


Lemma aborted_rewrap prefix new v e :
  aborted ctx checker (fun e => e) new (Some (v, Some e)) ->
  aborted ctx checker (Wrapf prefix) new (Some (0, Some (Wrapf prefix e)))
  /\ (1 <= Datatypes.length new)%nat.
Proof.
  intros (pre & p & e' & -> & Hpre & He & [= -> ->]). split.
  - exists pre, p, e'. auto.
  - rewrite length_app. cbn. lia.
Qed.

Lemma FindTotalPages_errors fuel maxPage :
  Forall ok (trace_of (FindTotalPages fuel ctx checker maxPage))
  \/ phase_wrapped ctx checker (trace_of (FindTotalPages fuel ctx checker maxPage))
       (result_of (FindTotalPages fuel ctx checker maxPage)).
Proof.
  unfold trace_of, result_of, run. rewrite FindTotalPages_unfold. cbn zeta.
  generalize (normalize maxPage). intros m. cbn [app].
  destruct (checker ctx 1) as [hasData [err |]] eqn:E1.
  { right. left. split; [| now destruct hasData].
    destruct hasData; exists [], 1, err; rewrite E1; repeat split; constructor. }
  assert (Hok1 : ok 1) by (unfold ok; now rewrite E1).
  destruct hasData; [| left; now repeat constructor].
  unfold findUpperBound.
  destruct (findUpperBound_loop_errors fuel m 1 [1]) as (new & Htr & H).
  destruct (findUpperBound_loop fuel ctx checker m 1 [1]) as [[[ub uerr] |] tr1];
    cbn [fst snd] in *; subst tr1.
  2:{ destruct H as [[Hall _] | (pre & p & e & _ & _ & _ & [=])].
      left. now constructor. }
  destruct uerr as [uerr |].
  { destruct H as [[_ Hres] | Hab]; [now elim (Hres ub uerr) |].
    destruct (aborted_rewrap msgUpperBound _ _ _ Hab) as [Hab' Hlen].
    right. right. cbn [fst snd]. split.
    - left. now apply (aborted_cons _ 1 new _ Hok1).
    - cbn. lia. }
  destruct H as [[Hall _] | (pre & p & e & _ & _ & _ & [=])].
  destruct (ub =? m); [left; now constructor |].
  unfold binarySearch.
  destruct (binarySearch_loop_errors fuel (div ub 2) ub (div ub 2) ([1] ++ new))
    as (new2 & Htr2 & H2).
  destruct (binarySearch_loop fuel ctx checker (div ub 2) ub (div ub 2) ([1] ++ new))
    as [[[lp lerr] |] tr2]; cbn [fst snd] in *; subst tr2.
  2:{ destruct H2 as [Hall2 | (pre & p & e & _ & _ & _ & [=])].
      left. cbn. constructor; [exact Hok1 |]. apply Forall_app. now split. }
  assert (Hpre : Forall ok ([1] ++ new)) by (cbn; now constructor).
  destruct H2 as [Hall2 | Hab].
  { left. destruct lerr; cbn [fst snd]; apply Forall_app; now split. }
  destruct lerr as [lerr |];
    [| destruct Hab as (pre & p & e & _ & _ & _ & [=])].
  destruct (aborted_rewrap msgBinarySearch _ _ _ Hab) as [Hab' Hlen].
  right. right. cbn [fst snd]. split.
  - right. now apply aborted_app.
  - rewrite length_app. cbn. lia.
Qed.

End ProbeErrors.


Example page1_message_names_page1 : mentions_page msgPage1 1 = true.
Proof. reflexivity. Qed.

(** The probe fails on page 2: the error comes back under
    "failed to find upper bound: ", which names no page.  What holds
    instead, invocation by invocation and phase by phase, is proved in the
    last part. *)
Lemma growth_error_names_no_page :
  ~ wrapped_with_failed_page 64 Background
      (fails_at 2 (ErrorString "simulated error at page 2")) 1000.
Proof.
  intros H.
  destruct (H 2 (ErrorString "simulated error at page 2")) as (prefix & Hres & Hm).
  - vm_compute. auto.
  - reflexivity.
  - vm_compute in Hres. injection Hres as <-. vm_compute in Hm. discriminate.
Qed.

(** ** C5: a context cancelled before the call

    The claim as stated fails on the two runs below.  What holds instead
    is proved in the last part, over the embedding in which the context
    can change during the run. *)


(** So does a growth phase that ends at the ceiling. *)
Example cancelled_saturated_returns_ceiling :
  run (FindTotalPages 64 Cancelled endless 16) = (Some (16, None), [1; 2; 4; 8; 16]).
Proof. vm_compute. reflexivity. Qed.

(** Without overflow the growth phase answers the ceiling or a page from 2
    up to the ceiling. *)
Lemma findUpperBound_loop_small ctx checker (m : Z) (fuel : nat) :
  1 <= m <= 2 ^ 62 -> forall page, 1 <= page ->
  spec (fun p => 2 <= p <= m)
       (fun r => snd r = None -> 1 <= fst r <= m /\ (fst r = m \/ 2 <= fst r))
       (findUpperBound_loop fuel ctx checker m page).
Proof.
  intros Hm. induction fuel as [| fuel IH]; intros page Hp; cbn [findUpperBound_loop].
  - apply spec_out_of_fuel.
  - destruct (Z.ltb_spec page m) as [Hlt | Hge].
    2:{ apply spec_ret. cbn. lia. }
    rewrite mul_exact by int_range. rewrite Z.gtb_ltb.
    set (nextPage := if m <? page * 2 then m else page * 2).
    assert (Hn : 2 <= nextPage <= m).
    { subst nextPage. destruct (Z.ltb_spec m (page * 2)); lia. }
    eapply spec_bind; [apply spec_call; exact Hn |].
    intros r ->. destruct (checker ctx nextPage) as [hasData [err |]]; cbn.
    + apply spec_ret. cbn. discriminate.
    + destruct hasData; cbn; [apply IH; lia | apply spec_ret; cbn; lia].
Qed.

Lemma normalize_range maxPage : 1 <= normalize maxPage.
Proof. unfold normalize, defaultMaxPage. destruct (Z.leb_spec maxPage 0); lia. Qed.

Lemma findUpperBound_small_result fuel ctx checker m tr ub tr' :
  1 <= m <= 2 ^ 62 ->
  findUpperBound fuel ctx checker m tr = (Some (ub, None), tr') ->
  1 <= ub <= m /\ (ub = m \/ 2 <= ub).
Proof.
  intros Hm Hrun.
  destruct (findUpperBound_loop_small ctx checker m fuel Hm 1 ltac:(lia) tr)
    as (new & _ & _ & Hres).
  unfold findUpperBound in Hrun. rewrite Hrun in Hres.
  exact (Hres _ eq_refl eq_refl).
Qed.

(** ** Searching a monotone probe *)

(** Doubling a positive page is exact up to 2^62 and negative beyond. *)
Lemma mul2_cases page :
  in_int page -> 1 <= page ->
  (page < 2 ^ 62 /\ mul page 2 = page * 2) \/ (2 ^ 62 <= page /\ mul page 2 < 0).
Proof.
  intros Hin Hp. destruct (Z_lt_le_dec page (2 ^ 62)) as [Hlt | Hge].
  - left. split; [exact Hlt |]. apply mul_exact. int_range.
  - right. split; [exact Hge |]. unfold mul, wrap.
    unfold in_int, int_min, int_max in Hin.
    Z.to_euclidean_division_equations. lia.
Qed.

Lemma spec_probePair_value (P : Z -> Prop) il checker ctx mid1 mid2 :
  P mid1 -> P mid2 ->
  spec P
    (fun results =>
       let res1 := mkResult mid1 (fst (checker ctx mid1)) (snd (checker ctx mid1)) in
       let res2 := mkResult mid2 (fst (checker ctx mid2)) (snd (checker ctx mid2)) in
       results = if delivery_swapped il then [res2; res1] else [res1; res2])
    (probePair il checker ctx mid1 mid2).
Proof.
  intros H1 H2 tr. unfold probePair. cbn.
  exists (if calls_swapped il then [mid2; mid1] else [mid1; mid2]).
  repeat split.
  - destruct (calls_swapped il); repeat constructor; assumption.
  - now intros a [= <-].
Qed.

Section Monotone.

Variables (ctx : Context) (checker : PageChecker).
Hypothesis Hfree : error_free checker ctx.
Hypothesis Hmono : monotone checker ctx.

Lemma data_below p q :
  in_int p -> in_int q -> p <= q -> has_data checker ctx q -> has_data checker ctx p.
Proof.
  intros Hp Hq Hle Hd. destruct (Z.eq_dec p q) as [-> | Hne]; [exact Hd |].
  unfold has_data in *. destruct (fst (checker ctx p)) eqn:E; [reflexivity |].
  exfalso. apply (Hmono p q Hp Hq ltac:(lia)); [| exact Hd].
  unfold has_data. rewrite E. discriminate.
Qed.

Lemma no_data_above p q :
  in_int p -> in_int q -> p <= q -> ~ has_data checker ctx p -> ~ has_data checker ctx q.
Proof. intros Hp Hq Hle Hn Hd. apply Hn. now apply (data_below p q). Qed.

Lemma probe_answer p :
  checker ctx p = (true, None) /\ has_data checker ctx p
  \/ checker ctx p = (false, None) /\ ~ has_data checker ctx p.
Proof.
  pose proof (Hfree p) as He. unfold has_data.
  destruct (checker ctx p) as [[|] err]; cbn in *; subst; [left | right]; split;
    auto; discriminate.
Qed.


Lemma last_page_unique v w : last_page ctx checker v -> last_page ctx checker w -> v = w.
Proof.
  intros (Hv & Hdv & Hav) (Hw & Hdw & Haw).
  destruct (Z.lt_total v w) as [H | [H | H]]; [| exact H |].
  - now elim (Hav w Hw H).
  - now elim (Haw v Hv H).
Qed.


Lemma findUpperBound_loop_gap (m : Z) (fuel : nat) :
  in_int m -> forall page,
  in_int page -> has_data checker ctx page ->
  1 <= page \/ has_data checker ctx (2 ^ 62) ->
  spec (fun _ => True)
       (fun r => snd r = None /\ (fst r <> m -> gap ctx checker m (fst r)))
       (findUpperBound_loop fuel ctx checker m page).
Proof.
  intros Hm. induction fuel as [| fuel IH]; intros page Hin Hd Hcase;
    cbn [findUpperBound_loop].
  - apply spec_out_of_fuel.
  - destruct (Z.ltb_spec page m) as [Hlt | Hge];
      [| apply spec_ret; cbn; split; [reflexivity | congruence]].
    set (nextPage := if mul page 2 >? m then m else mul page 2).
    assert (Hn : in_int nextPage /\ nextPage <= m
                 /\ (nextPage = m \/ nextPage = mul page 2)).
    { subst nextPage. rewrite Z.gtb_ltb. pose proof (wrap_in_int (page * 2)).
      fold (mul page 2) in H.
      destruct (Z.ltb_spec m (mul page 2)); (split; [| split]); auto; lia. }
    destruct Hn as (Hnin & Hnle & Hnis).
    eapply spec_bind; [now apply spec_call |].
    intros r ->. destruct (probe_answer nextPage) as [[-> Hnd] | [-> Hnd]]; cbn.
    + apply IH; [exact Hnin | exact Hnd |].
      destruct Hcase as [Hpos | H62]; [| now right].
      destruct Hnis as [-> | ->]; [left; lia |].
      destruct (mul2_cases page Hin Hpos) as [[_ ->] | [Hbig _]]; [left; lia |].
      right. apply (data_below _ page); [int_range | exact Hin | exact Hbig | exact Hd].
    + apply spec_ret. cbn. split; [reflexivity |]. intros Hne.
      destruct Hnis as [Heq | Heq]; [contradiction |].
      assert (Hgt : page < nextPage).
      { destruct (Z_lt_le_dec page nextPage) as [H | H]; [exact H |].
        elim Hnd. now apply (data_below nextPage page). }
      unfold gap. split; [exact Hnin |]. split; [lia |].
      destruct Hcase as [Hpos | H62].
      * destruct (mul2_cases page Hin Hpos) as [[_ Hx] | [_ Hneg]]; [| lia].
        rewrite Heq, Hx, Z.quot_mul by lia. repeat split; [lia | exact Hd |].
        now rewrite <- Hx, <- Heq.
      * assert (Hbig : 2 ^ 62 < nextPage).
        { destruct (Z_lt_le_dec (2 ^ 62) nextPage) as [H | H]; [exact H |].
          elim Hnd. apply (data_below nextPage (2 ^ 62)); auto. int_range. }
        pose proof (quot2_bounds nextPage ltac:(lia)) as Hq.
        repeat split; [lia | | exact Hnd].
        apply (data_below _ (2 ^ 62)); [int_range | int_range | | exact H62].
        unfold in_int, int_max in Hnin. lia.
Qed.

End Monotone.

Section MonotoneSearch.

Variables (ctx : Context) (checker : PageChecker).
Hypothesis Hfree : error_free checker ctx.
Hypothesis Hmono : monotone checker ctx.
Hypothesis Hctx : ctx_Err ctx = None.


Lemma window_closed left right lv :
  window ctx checker left right lv -> right < left -> last_page ctx checker lv.
Proof.
  intros (Hl & Hr & Hlr & Hlv & Hlvl & Hd & Habove) Hgt.
  repeat split; [apply Hlv | apply Hlv | exact Hd |].
  intros q Hq' Hlt'. apply Habove; [exact Hq' | lia].
Qed.

Lemma binarySearch_loop_last (fuel : nat) : forall left right lastValidPage,
  window ctx checker left right lastValidPage ->
  spec (fun _ => True)
       (fun r => snd r = None /\ last_page ctx checker (fst r))
       (binarySearch_loop fuel ctx checker left right lastValidPage).
Proof.
  induction fuel as [| fuel IH]; intros left right lv W; cbn [binarySearch_loop].
  - apply spec_out_of_fuel.
  - destruct (Z.leb_spec left right) as [Hle | Hgt].
    2:{ apply spec_ret. cbn. split; [reflexivity |]. now apply (window_closed left right). }
    rewrite Hctx.
    destruct W as (Hl & Hr & Hlr & Hlv & Hlvl & Hd & Habove).
    rewrite mid_exact by int_range.
    pose proof (quot2_bounds (right - left) ltac:(lia)) as Hq.
    set (mid := left + Z.quot (right - left) 2) in *.
    assert (Hmid : in_int mid) by int_range.
    eapply spec_bind; [now apply spec_call |].
    intros r ->. destruct (probe_answer ctx checker Hfree mid) as [[-> Hm] | [-> Hm]]; cbn.
    + rewrite add_exact by int_range. apply IH.
      repeat split; try lia; try apply Hmid; assumption.
    + rewrite sub_exact by int_range. apply IH.
      repeat split; try lia; try apply Hlv; try assumption.
      intros q Hq' Hlt'. apply (no_data_above ctx checker Hmono mid q); auto. lia.
Qed.

Lemma linearScan_last (fuel : nat) : forall left page lastValidPage,
  0 <= left -> page < int_max -> left <= page + 1 ->
  in_int lastValidPage -> left <= lastValidPage + 1 ->
  has_data checker ctx lastValidPage ->
  (forall q, in_int q -> page < q -> ~ has_data checker ctx q) ->
  spec (fun _ => True)
       (fun r => snd r = None /\ last_page ctx checker (fst r))
       (linearScan fuel ctx checker left page lastValidPage).
Proof.
  induction fuel as [| fuel IH]; intros left page lv Hl Hp Hlp Hlv Hlvl Hd Habove;
    cbn [linearScan].
  - apply spec_out_of_fuel.
  - rewrite Z.geb_leb. destruct (Z.leb_spec left page) as [Hle | Hgt].
    2:{ apply spec_ret. cbn. split; [reflexivity |].
        repeat split; [apply Hlv | apply Hlv | exact Hd |].
        intros q Hq' Hlt'. apply Habove; [exact Hq' | lia]. }
    assert (Hpage : in_int page) by int_range.
    eapply spec_bind; [now apply spec_call |].
    intros r ->. destruct (probe_answer ctx checker Hfree page) as [[-> Hm] | [-> Hm]]; cbn.
    + apply spec_ret. cbn. split; [reflexivity |].
      repeat split; [apply Hpage | apply Hpage | exact Hm | exact Habove].
    + rewrite sub_exact by int_range. apply IH; try lia; try assumption.
      intros q Hq' Hlt'. apply (no_data_above ctx checker Hmono page q); auto. lia.
Qed.

Lemma binarySearchConcurrent_loop_last (fuel : nat) :
  forall sched left right lastValidPage,
  window ctx checker left right lastValidPage -> right - left < 2 ^ 62 ->
  spec (fun _ => True)
       (fun r => snd r = None /\ last_page ctx checker (fst r))
       (binarySearchConcurrent_loop fuel sched ctx checker left right lastValidPage).
Proof.
  induction fuel as [| fuel IH]; intros sched left right lv W Hw;
    cbn [binarySearchConcurrent_loop].
  - apply spec_out_of_fuel.
  - destruct (Z.leb_spec left right) as [Hle | Hgt].
    2:{ apply spec_ret. cbn. split; [reflexivity |]. now apply (window_closed left right). }
    rewrite Hctx.
    destruct W as (Hl & Hr & Hlr & Hlv & Hlvl & Hd & Habove).
    rewrite (sub_exact right left) by int_range.
    destruct (Z.leb_spec (right - left) 3) as [Hnarrow | Hwide].
    { apply linearScan_last; auto; lia. }
    rewrite <- (sub_exact right left) by int_range.
    rewrite mid1_exact, mid2_exact by int_range.
    pose proof (quot3_bounds (right - left) ltac:(lia)) as Hq1.
    pose proof (quot3_bounds (2 * (right - left)) ltac:(lia)) as Hq2.
    set (mid1 := left + Z.quot (right - left) 3) in *.
    set (mid2 := left + Z.quot (2 * (right - left)) 3) in *.
    assert (Hmid1 : in_int mid1) by int_range.
    assert (Hmid2 : in_int mid2) by int_range.
    assert (Hlt12 : mid1 < mid2) by lia.
    eapply spec_bind; [now apply spec_probePair_value |].
    intros results Hres. cbv beta zeta in Hres.
    pose proof (collect_two
      (mkResult mid1 (fst (checker ctx mid1)) (snd (checker ctx mid1)))
      (mkResult mid2 (fst (checker ctx mid2)) (snd (checker ctx mid2)))
      mid1 mid2 eq_refl eq_refl ltac:(lia) (Hfree mid1) (Hfree mid2)) as [Hc1 Hc2].
    assert (Hcollect : collect results mid1 mid2 false false
                       = inr (fst (checker ctx mid1), fst (checker ctx mid2))).
    { rewrite Hres. destruct (delivery_swapped (sched O)); assumption. }
    rewrite Hcollect. clear Hc1 Hc2 Hcollect Hres results.
    destruct (probe_answer ctx checker Hfree mid2) as [[-> Hm2] | [-> Hm2]]; cbn [fst].
    + rewrite add_exact by int_range. apply IH; [| lia].
      repeat split; try lia; try apply Hmid2; assumption.
    + destruct (probe_answer ctx checker Hfree mid1) as [[-> Hm1] | [-> Hm1]]; cbn [fst].
      * rewrite add_exact, sub_exact by int_range. apply IH; [| lia].
        repeat split; try lia; try apply Hmid1; try assumption.
        intros q Hq' Hlt'. apply (no_data_above ctx checker Hmono mid2 q); auto. lia.
      * rewrite sub_exact by int_range. apply IH; [| lia].
        repeat split; try lia; try apply Hlv; try assumption.
        intros q Hq' Hlt'. apply (no_data_above ctx checker Hmono mid1 q); auto. lia.
Qed.

(** The growth phase hands a window to the search. *)
Lemma gap_window m ub :
  in_int m -> gap ctx checker m ub ->
  div ub 2 = Z.quot ub 2
  /\ window ctx checker (Z.quot ub 2) ub (Z.quot ub 2)
  /\ ub - Z.quot ub 2 < 2 ^ 62.
Proof.
  intros Hm (Hin & Hlt & Hhalf & Hd & Hnd).
  assert (Hub : 0 <= ub).
  { destruct (Z_lt_le_dec ub 0) as [H | H]; [| exact H].
    pose proof (quot2_neg ub H). lia. }
  pose proof (quot2_bounds ub Hub) as Hq.
  split; [apply div_exact; int_range |]. split; [| int_range].
  repeat split; try int_range; try exact Hd.
  intros q Hq' Hlt'. apply (no_data_above ctx checker Hmono ub q); auto. lia.
Qed.

End MonotoneSearch.

(** ** The search loops return *)

Section Termination.

Variables (ctx : Context) (checker : PageChecker).

Lemma pow2_succ (f : nat) : 2 ^ Z.of_nat (S f) = 2 * 2 ^ Z.of_nat f.
Proof. rewrite Nat2Z.inj_succ, Z.pow_succ_r by lia. reflexivity. Qed.

Lemma pow2_mono (f g : nat) : (f <= g)%nat -> 2 ^ Z.of_nat f <= 2 ^ Z.of_nat g.
Proof. intros H. apply Z.pow_le_mono_r; lia. Qed.

Lemma binarySearch_loop_S fuel left right lastValidPage :
  binarySearch_loop (S fuel) ctx checker left right lastValidPage
  = if left <=? right then
      match ctx_Err ctx with
      | Some cerr => ret (0, Some cerr)
      | None =>
        let mid := add left (div (sub right left) 2) in
        r <- call checker ctx mid ;;
        match snd r with
        | Some err => ret (0, Some err)
        | None =>
          if fst r
          then binarySearch_loop fuel ctx checker (add mid 1) right mid
          else binarySearch_loop fuel ctx checker left (sub mid 1) lastValidPage
        end
      end
    else ret (lastValidPage, None).
Proof. reflexivity. Qed.

Lemma linearScan_S fuel left page lastValidPage :
  linearScan (S fuel) ctx checker left page lastValidPage
  = if page >=? left then
      r <- call checker ctx page ;;
      match snd r with
      | Some err => ret (0, Some err)
      | None =>
        if fst r then ret (page, None)
        else linearScan fuel ctx checker left (sub page 1) lastValidPage
      end
    else ret (lastValidPage, None).
Proof. reflexivity. Qed.

Lemma binarySearchConcurrent_loop_S fuel sched left right lastValidPage :
  binarySearchConcurrent_loop (S fuel) sched ctx checker left right lastValidPage
  = if left <=? right then
      match ctx_Err ctx with
      | Some cerr => ret (0, Some cerr)
      | None =>
        if sub right left <=? 3 then
          linearScan fuel ctx checker left right lastValidPage
        else
          let mid1 := add left (div (sub right left) 3) in
          let mid2 := add left (div (mul 2 (sub right left)) 3) in
          results <- probePair (sched O) checker ctx mid1 mid2 ;;
          match collect results mid1 mid2 false false with
          | inl err => ret (0, Some err)
          | inr (mid1HasData, mid2HasData) =>
            if mid2HasData then
              binarySearchConcurrent_loop fuel (next_round sched) ctx checker
                (add mid2 1) right mid2
            else if mid1HasData then
              binarySearchConcurrent_loop fuel (next_round sched) ctx checker
                (add mid1 1) (sub mid2 1) mid1
            else
              binarySearchConcurrent_loop fuel (next_round sched) ctx checker
                left (sub mid1 1) lastValidPage
          end
      end
    else ret (lastValidPage, None).
Proof. reflexivity. Qed.

Lemma binarySearch_loop_returns (f : nat) : forall left right lastValidPage tr,
  0 <= left -> right < int_max -> right - left + 1 < 2 ^ Z.of_nat f ->
  fst (binarySearch_loop (S f) ctx checker left right lastValidPage tr) <> None.
Proof.
  induction f as [| f IH]; intros left right lv tr Hl Hr Hw;
    rewrite binarySearch_loop_S; cbv zeta.
  - destruct (Z.leb_spec left right) as [Hle | Hgt]; [cbn in Hw; lia |].
    discriminate.
  - rewrite pow2_succ in Hw.
    destruct (Z.leb_spec left right) as [Hle | Hgt]; [| discriminate].
    destruct (ctx_Err ctx); [discriminate |].
    rewrite mid_exact by int_range.
    pose proof (quot2_bounds (right - left) ltac:(lia)) as Hq.
    set (mid := left + Z.quot (right - left) 2) in *.
    unfold bind, call.
    destruct (checker ctx mid) as [hasData [err |]]; cbn [fst snd]; [discriminate |].
    destruct hasData.
    + rewrite add_exact by int_range. apply IH; lia.
    + rewrite sub_exact by int_range. apply IH; lia.
Qed.

Lemma linearScan_returns (f : nat) : forall left page lastValidPage tr,
  0 <= left -> page < int_max -> page - left + 1 <= Z.of_nat f ->
  fst (linearScan (S f) ctx checker left page lastValidPage tr) <> None.
Proof.
  induction f as [| f IH]; intros left page lv tr Hl Hp Hw; rewrite linearScan_S;
    rewrite Z.geb_leb.
  - destruct (Z.leb_spec left page) as [Hle | Hgt]; [cbn in Hw; lia |].
    discriminate.
  - destruct (Z.leb_spec left page) as [Hle | Hgt]; [| discriminate].
    unfold bind, call.
    destruct (checker ctx page) as [hasData [err |]]; cbn [fst snd]; [discriminate |].
    destruct hasData; [discriminate |].
    rewrite sub_exact by int_range. apply IH; lia.
Qed.

Lemma binarySearchConcurrent_loop_returns (f : nat) :
  forall sched left right lastValidPage tr,
  0 <= left -> right < int_max -> right - left < 2 ^ 62 ->
  right - left + 1 < 2 ^ Z.of_nat f ->
  fst (binarySearchConcurrent_loop (S (f + 5)) sched ctx checker
         left right lastValidPage tr) <> None.
Proof.
  induction f as [| f IH]; intros sched left right lv tr Hl Hr H62 Hw;
    rewrite binarySearchConcurrent_loop_S; cbv zeta.
  - destruct (Z.leb_spec left right) as [Hle | Hgt]; [cbn in Hw; lia |].
    discriminate.
  - rewrite pow2_succ in Hw.
    destruct (Z.leb_spec left right) as [Hle | Hgt]; [| discriminate].
    destruct (ctx_Err ctx); [discriminate |].
    rewrite (sub_exact right left) by int_range.
    destruct (Z.leb_spec (right - left) 3) as [Hnarrow | Hwide].
    { cbn [Nat.add]. apply linearScan_returns; lia. }
    rewrite <- (sub_exact right left) by int_range.
    rewrite mid1_exact, mid2_exact by int_range.
    pose proof (quot3_bounds (right - left) ltac:(lia)) as Hq1.
    pose proof (quot3_bounds (2 * (right - left)) ltac:(lia)) as Hq2.
    set (mid1 := left + Z.quot (right - left) 3) in *.
    set (mid2 := left + Z.quot (2 * (right - left)) 3) in *.
    unfold bind, probePair. cbn [Nat.add].
    destruct (collect _ mid1 mid2 false false) as [err | [m1 m2]]; [discriminate |].
    destruct m2; [| destruct m1].
    + rewrite add_exact by int_range. apply IH; lia.
    + rewrite add_exact, sub_exact by int_range. apply IH; lia.
    + rewrite sub_exact by int_range. apply IH; lia.
Qed.

Lemma binarySearch_returns fuel left right tr :
  (70 <= fuel)%nat -> 0 <= left -> right < int_max ->
  fst (binarySearch fuel ctx checker left right tr) <> None.
Proof.
  intros Hfuel Hl Hr. destruct fuel as [| f]; [lia |].
  apply binarySearch_loop_returns; auto.
  pose proof (pow2_mono 63 f ltac:(lia)) as Hp.
  change (2 ^ Z.of_nat 63) with (2 ^ 63) in Hp.
  unfold int_max in Hr. lia.
Qed.

Lemma binarySearchConcurrent_returns fuel sched left right tr :
  (70 <= fuel)%nat -> 0 <= left -> right < int_max -> right - left < 2 ^ 62 ->
  fst (binarySearchConcurrent fuel sched ctx checker left right tr) <> None.
Proof.
  intros Hfuel Hl Hr H62.
  replace fuel with (S ((fuel - 6) + 5)) by lia.
  apply binarySearchConcurrent_loop_returns; auto.
  pose proof (pow2_mono 63 (fuel - 6) ltac:(lia)) as Hp.
  change (2 ^ Z.of_nat 63) with (2 ^ 63) in Hp. lia.
Qed.

End Termination.

(** ** C3: the two finders agree *)

Section Agreement.

Variables (ctx : Context) (checker : PageChecker).
Hypothesis Hfree : error_free checker ctx.
Hypothesis Hmono : monotone checker ctx.

(** Both searches of the window left by the growth phase: they are
    cancelled alike, or both return the last page with data. *)
Lemma searches_agree fuel sched m ub tr :
  (70 <= fuel)%nat -> in_int m -> gap ctx checker m ub ->
  exists v e tr1 tr2,
    binarySearch fuel ctx checker (div ub 2) ub tr = (Some (v, e), tr1)
    /\ binarySearchConcurrent fuel sched ctx checker (div ub 2) ub tr
       = (Some (v, e), tr2)
    /\ (ctx_Err ctx = None -> e = None /\ last_page ctx checker v)
    /\ (forall cerr, ctx_Err ctx = Some cerr -> e = Some cerr /\ v = 0 /\ tr1 = tr /\ tr2 = tr).
Proof.
  intros Hfuel Hm Hgap.
  destruct (gap_window ctx checker Hmono m ub Hm Hgap) as (Hdiv & W & Hw).
  rewrite Hdiv. pose proof W as (Hl & Hr & Hlr & _).
  destruct (ctx_Err ctx) as [cerr |] eqn:Hctx.
  - destruct fuel as [| f]; [lia |].
    unfold binarySearch, binarySearchConcurrent.
    rewrite binarySearch_loop_S, binarySearchConcurrent_loop_S, Hctx.
    assert (Hle : (Z.quot ub 2 <=? ub) = true).
    { destruct Hgap as (_ & _ & Hhalf & _). apply Z.leb_le.
      Z.to_euclidean_division_equations. lia. }
    rewrite Hle. exists 0, (Some cerr), tr, tr.
    split; [reflexivity |]. split; [reflexivity |].
    split; [discriminate |]. intros c [= <-]. auto.
  - pose proof (binarySearch_returns ctx checker fuel (Z.quot ub 2) ub tr
                  Hfuel ltac:(lia) Hr) as Hret1.
    pose proof (binarySearchConcurrent_returns ctx checker fuel sched
                  (Z.quot ub 2) ub tr Hfuel ltac:(lia) Hr Hw) as Hret2.
    destruct (binarySearch_loop_last ctx checker Hfree Hmono Hctx fuel _ _ _ W tr)
      as (new1 & Htr1 & _ & Hres1).
    destruct (binarySearchConcurrent_loop_last ctx checker Hfree Hmono Hctx fuel
                sched _ _ _ W Hw tr) as (new2 & Htr2 & _ & Hres2).
    unfold binarySearch, binarySearchConcurrent in *.
    destruct (binarySearch_loop fuel ctx checker _ _ _ tr) as [[[v1 e1] |] tr1];
      [| now elim Hret1].
    destruct (binarySearchConcurrent_loop fuel sched ctx checker _ _ _ tr)
      as [[[v2 e2] |] tr2]; [| now elim Hret2].
    destruct (Hres1 _ eq_refl) as [He1 Hl1].
    destruct (Hres2 _ eq_refl) as [He2 Hl2]. cbn in *. subst e1 e2.
    rewrite (last_page_unique ctx checker v2 v1 Hl2 Hl1).
    exists v1, None, tr1, tr2.
    split; [reflexivity |]. split; [reflexivity |].
    split; [auto | discriminate].
Qed.

Lemma growth_leaves_gap fuel m tr ub tr1 :
  in_int m -> has_data checker ctx 1 ->
  findUpperBound fuel ctx checker m tr = (Some (ub, None), tr1) ->
  ub <> m -> gap ctx checker m ub.
Proof.
  intros Hm H1 Hrun Hne.
  destruct (findUpperBound_loop_gap ctx checker Hfree Hmono m fuel Hm 1
              ltac:(int_range) H1 ltac:(left; lia) tr) as (new & _ & _ & Hres).
  unfold findUpperBound in Hrun. rewrite Hrun in Hres.
  destruct (Hres _ eq_refl) as [_ Hgap]. now apply Hgap.
Qed.

End Agreement.

Lemma normalize_in_int maxPage : in_int maxPage -> in_int (normalize maxPage).
Proof.
  intros H. unfold normalize, defaultMaxPage.
  destruct (maxPage <=? 0); [int_range | exact H].
Qed.

(** C3. For every probe that never fails and is monotone, every ceiling,
    every context and every scheduling of the concurrent rounds, the two
    finders return the same value and the same error (with a loop budget
    of 70 or more, under which both search loops return). *)
Theorem finders_agree
  (fuel : nat) (sched : Schedule) (ctx : Context) (checker : PageChecker)
  (maxPage : Z) :
  (70 <= fuel)%nat -> in_int maxPage ->
  error_free checker ctx -> monotone checker ctx ->
  result_of (FindTotalPages fuel ctx checker maxPage)
  = result_of (FindTotalPagesConcurrent fuel sched ctx checker maxPage).
Proof.
  intros Hfuel Hin Hfree Hmono. apply normalize_in_int in Hin.
  unfold result_of, run.
  rewrite FindTotalPages_unfold, FindTotalPagesConcurrent_unfold. cbv zeta.
  generalize dependent (normalize maxPage). intros m Hm. cbn [app].
  destruct (probe_answer ctx checker Hfree 1) as [[-> H1] | [-> _]];
    [| reflexivity].
  destruct (findUpperBound fuel ctx checker m [1]) as [[[ub [err |]] |] tr1] eqn:Hrun;
    try reflexivity.
  destruct (Z.eqb_spec ub m) as [Heq | Hne]; [reflexivity |].
  pose proof (growth_leaves_gap ctx checker Hfree Hmono fuel m [1] ub tr1
                Hm H1 Hrun Hne) as Hgap.
  destruct (searches_agree ctx checker Hfree Hmono fuel sched m ub tr1
              Hfuel Hm Hgap) as (v & e & t1 & t2 & -> & -> & _).
  destruct e; reflexivity.
Qed.

Lemma threshold_error_free n ctx : error_free (threshold n) ctx.
Proof. intros p. reflexivity. Qed.

Lemma threshold_monotone n ctx : monotone (threshold n) ctx.
Proof.
  intros p q _ _ Hlt Hp Hq. apply Hp. unfold has_data, threshold in *. cbn in *.
  apply Z.leb_le. apply Z.leb_le in Hq. lia.
Qed.

Lemma finders_agree_witness :
  result_of (FindTotalPages 70 Background (threshold 500) 10000)
  = result_of (FindTotalPagesConcurrent 70 in_order Background (threshold 500) 10000).
Proof.
  apply (finders_agree 70 in_order Background (threshold 500) 10000).
  - lia.
  - unfold in_int, int_min, int_max. lia.
  - intros p. reflexivity.
  - intros p q _ _ Hlt Hp Hq. apply Hp. unfold has_data, threshold in *. cbn in *.
    apply Z.leb_le. apply Z.leb_le in Hq. lia.
Defined.

(** ** Finding the boundary below the ceiling *)

Section Boundary.

Variables (ctx : Context) (checker : PageChecker).
Hypothesis Hfree : error_free checker ctx.
Hypothesis Hmono : monotone checker ctx.
Variable n : Z.
Hypothesis Hlast : last_page ctx checker n.

Lemma data_iff p : in_int p -> (has_data checker ctx p <-> p <= n).
Proof.
  intros Hp. destruct Hlast as (Hn & Hd & Habove). split.
  - intros H. destruct (Z_le_gt_dec p n) as [Hle | Hgt]; [exact Hle |].
    elim (Habove p Hp ltac:(lia)). exact H.
  - intros Hle. now apply (data_below ctx checker Hmono p n).
Qed.

(** Doubling from [page] reaches the first empty page in at most [k]
    probes when [page * 2^k] is above the boundary and below the ceiling. *)
Lemma growth_returns (m : Z) (k : nat) : in_int m -> forall fuel page tr,
  (k <= fuel)%nat -> 1 <= page <= n -> n < page * 2 ^ Z.of_nat k ->
  page * 2 ^ Z.of_nat k < m ->
  exists ub tr',
    findUpperBound_loop fuel ctx checker m page tr = (Some (ub, None), tr')
    /\ ub <> m.
Proof.
  intros Hm. induction k as [| k IH]; intros fuel page tr Hfuel Hp Hn Hk.
  - cbn in Hn. lia.
  - rewrite pow2_succ in Hn, Hk. destruct fuel as [| fuel]; [lia |].
    assert (Hpow : 1 <= 2 ^ Z.of_nat k) by (apply Z.lt_pred_le, Z.pow_pos_nonneg; lia).
    assert (Hdouble : page * 2 < m) by nia.
    cbn [findUpperBound_loop].
    assert (Hlt : (page <? m) = true) by (apply Z.ltb_lt; lia).
    rewrite Hlt, mul_exact by int_range.
    assert (Hclamp : (page * 2 >? m) = false) by (rewrite Z.gtb_ltb; apply Z.ltb_ge; lia).
    rewrite Hclamp. unfold bind, call.
    destruct (probe_answer ctx checker Hfree (page * 2)) as [[-> Hd] | [-> Hd]];
      cbn [fst snd negb].
    + apply data_iff in Hd; [| int_range].
      apply IH; [lia | lia | lia | lia].
    + exists (page * 2), (tr ++ [page * 2]). split; [reflexivity | lia].
Qed.

(** Below the ceiling both finders return the boundary. *)
Lemma finders_return_boundary fuel sched maxPage (k : nat) :
  (70 <= fuel)%nat -> ctx_Err ctx = None -> in_int maxPage ->
  1 <= n < 2 ^ Z.of_nat k -> 2 ^ Z.of_nat k < normalize maxPage ->
  result_of (FindTotalPages fuel ctx checker maxPage) = Some (n, None)
  /\ result_of (FindTotalPagesConcurrent fuel sched ctx checker maxPage)
     = Some (n, None).
Proof.
  intros Hfuel Hctx Hin Hn Hk. apply normalize_in_int in Hin.
  unfold result_of, run.
  rewrite FindTotalPages_unfold, FindTotalPagesConcurrent_unfold. cbv zeta.
  generalize dependent (normalize maxPage). intros m Hm Hk. cbn [app].
  assert (H1 : has_data checker ctx 1) by (apply data_iff; [int_range | lia]).
  destruct (probe_answer ctx checker Hfree 1) as [[-> _] | [_ H]];
    [| contradiction].
  assert (Hkfuel : (k <= fuel)%nat).
  { destruct (Nat.le_gt_cases k 63) as [H | H]; [lia |].
    pose proof (pow2_mono 63 k ltac:(lia)) as Hp.
    change (2 ^ Z.of_nat 63) with (2 ^ 63) in Hp. int_range. }
  destruct (growth_returns m k Hm fuel 1 [1] Hkfuel ltac:(lia) ltac:(lia) ltac:(lia))
    as (ub & tr1 & Hrun & Hne).
  unfold findUpperBound. rewrite Hrun.
  apply Z.eqb_neq in Hne as Hne'. rewrite Hne'.
  pose proof (growth_leaves_gap ctx checker Hfree Hmono fuel m [1] ub tr1
                Hm H1 Hrun Hne) as Hgap.
  destruct (searches_agree ctx checker Hfree Hmono fuel sched m ub tr1
              Hfuel Hm Hgap) as (v & e & t1 & t2 & -> & -> & Hnone & _).
  destruct (Hnone Hctx) as [-> Hv].
  rewrite (last_page_unique ctx checker v n Hv Hlast). split; reflexivity.
Qed.

End Boundary.

(** ** C2: the boundaries of the test table *)

Lemma threshold_last_page n ctx : in_int n -> last_page ctx (threshold n) n.
Proof.
  intros Hn. unfold last_page, has_data, threshold. cbn.
  split; [exact Hn |]. split; [apply Z.leb_refl |].
  intros q _ Hlt H. apply Z.leb_le in H. lia.
Qed.

(** C2. For every boundary [n] of 0, 1, 10, 100, 500, 1000, the probe
    [page <= n], a context that is not cancelled and a ceiling that is the
    default (a non-positive argument) or greater than 1024, both finders
    return [n] with a nil error. *)
Theorem monotonic_correctness
  (fuel : nat) (sched : Schedule) (ctx : Context) (n maxPage : Z) :
  (70 <= fuel)%nat -> ctx_Err ctx = None ->
  In n [0; 1; 10; 100; 500; 1000] ->
  in_int maxPage -> maxPage <= 0 \/ 1024 < maxPage ->
  result_of (FindTotalPages fuel ctx (threshold n) maxPage) = Some (n, None)
  /\ result_of (FindTotalPagesConcurrent fuel sched ctx (threshold n) maxPage)
     = Some (n, None).
Proof.
  intros Hfuel Hctx Hn Hin Hmax.
  assert (Hm : 2 ^ Z.of_nat 10 < normalize maxPage).
  { change (2 ^ Z.of_nat 10) with 1024. destruct Hmax as [H | H].
    - rewrite normalize_nonpositive by exact H. lia.
    - rewrite normalize_positive by lia. exact H. }
  assert (Hcases : n = 0 \/ 1 <= n < 2 ^ Z.of_nat 10).
  { change (2 ^ Z.of_nat 10) with 1024. cbn in Hn. lia. }
  destruct Hcases as [-> | Hrange].
  - split; reflexivity.
  - apply (finders_return_boundary ctx (threshold n) (threshold_error_free n ctx)
             (threshold_monotone n ctx) n) with (k := 10%nat); auto.
    apply threshold_last_page. change (2 ^ Z.of_nat 10) with 1024 in Hrange. int_range.
Qed.

Lemma monotonic_correctness_witness :
  result_of (FindTotalPages 70 Background (threshold 1000) 0) = Some (1000, None)
  /\ result_of (FindTotalPagesConcurrent 70 in_order Background (threshold 1000) 0)
     = Some (1000, None).
Proof.
  apply (monotonic_correctness 70 in_order Background 1000 0).
  - lia.
  - reflexivity.
  - cbn. auto 10.
  - unfold in_int, int_min, int_max. lia.
  - left. lia.
Defined.

(** ** C1: the ceiling page itself is empty *)

(** C1 fails at one page and ceiling 2: page 2 is probed and is empty, and
    the finder still answers the ceiling, 2, where the last page with data
    is 1.  [findUpperBound] returns [maxPage] both when it ran out of pages
    below the ceiling and when the probe of the ceiling page was empty, and
    [FindTotalPages] takes either for "no empty page found". *)
Theorem ceiling_returned_though_probed_empty :
  last_page Background (threshold 1) 1
  /\ 1 < 2
  /\ run (FindTotalPages 70 Background (threshold 1) 2) = (Some (2, None), [1; 2])
  /\ ~ has_data (threshold 1) Background 2.
Proof.
  split; [apply threshold_last_page; unfold in_int, int_min, int_max; lia |].
  split; [lia |]. split; [reflexivity |]. unfold has_data. cbn. discriminate.
Qed.

(** The same with a ceiling that is no power of two: five pages, ceiling 7. *)
Example ceiling_returned_after_clamp :
  run (FindTotalPages 70 Background (threshold 5) 7) = (Some (7, None), [1; 2; 4; 7]).
Proof. vm_compute. reflexivity. Qed.

(** X1. What holds of C1: for an error-free monotone probe whose last page
    with data is [n >= 1], a context that is not cancelled and a ceiling
    with a power of two strictly between [n] and it, both finders return
    [n] with a nil error. *)
Theorem boundary_found_below_ceiling
  (fuel : nat) (sched : Schedule) (ctx : Context) (checker : PageChecker)
  (n maxPage : Z) (k : nat) :
  (70 <= fuel)%nat -> ctx_Err ctx = None ->
  error_free checker ctx -> monotone checker ctx -> last_page ctx checker n ->
  in_int maxPage -> 1 <= n < 2 ^ Z.of_nat k -> 2 ^ Z.of_nat k < normalize maxPage ->
  result_of (FindTotalPages fuel ctx checker maxPage) = Some (n, None)
  /\ result_of (FindTotalPagesConcurrent fuel sched ctx checker maxPage)
     = Some (n, None).
Proof.
  intros Hfuel Hctx Hfree Hmono Hlast Hin Hn Hk.
  now apply (finders_return_boundary ctx checker Hfree Hmono n Hlast) with (k := k).
Qed.

Lemma boundary_found_below_ceiling_witness :
  result_of (FindTotalPages 70 Background (threshold 5) 9) = Some (5, None)
  /\ result_of (FindTotalPagesConcurrent 70 in_order Background (threshold 5) 9)
     = Some (5, None).
Proof.
  apply (boundary_found_below_ceiling 70 in_order Background (threshold 5) 5 9 3).
  - lia.
  - reflexivity.
  - intros p. reflexivity.
  - intros p q _ _ Hlt Hp Hq. apply Hp. unfold has_data, threshold in *. cbn in *.
    apply Z.leb_le. apply Z.leb_le in Hq. lia.
  - unfold last_page, has_data, threshold, in_int, int_min, int_max. cbn.
    split; [lia |]. split; [reflexivity |].
    intros q _ Hlt H. apply Z.leb_le in H. lia.
  - unfold in_int, int_min, int_max. lia.
  - cbn. lia.
  - cbn. lia.
Defined.

(** ** C10: the value returned with a nil error *)

(** C10 fails at the ceiling [math.MaxInt64] with a collection that never
    ends: page 1 has data, the growth phase doubles up to 2^62, the next
    doubling wraps to -2^63, an empty page, and both finders return
    [upperBound/2 = -2^62] with a nil error.  The claim holds for ceilings
    up to 2^62 ([result_bounds_without_overflow]). *)
Theorem overflowing_growth_returns_negative :
  has_data endless Background 1
  /\ result_of (FindTotalPages 70 Background endless int_max)
     = Some (- 2 ^ 62, None)
  /\ result_of (FindTotalPagesConcurrent 70 in_order Background endless int_max)
     = Some (- 2 ^ 62, None).
Proof. split; [reflexivity |]. split; vm_compute; reflexivity. Qed.

(** With a probe that is empty on page 0 only, the same ceiling gives 0
    although page 1 has data. *)
Example overflowing_growth_returns_zero :
  result_of (FindTotalPages 70 Background (fun _ p => (negb (p =? 0), None)) int_max)
  = Some (0, None).
Proof. vm_compute. reflexivity. Qed.

Section ResultRange.

Variables (ctx : Context) (checker : PageChecker).
Variables (lo hi : Z).
Hypothesis Hlo : 0 <= lo.
Hypothesis Hhi : hi < int_max.

Let within (r : Z * option error) : Prop := snd r = None -> lo <= fst r <= hi.

Lemma binarySearch_loop_range (fuel : nat) : forall left right lastValidPage,
  lo <= lastValidPage <= hi -> lo <= left -> right <= hi ->
  spec (fun _ => True) within
       (binarySearch_loop fuel ctx checker left right lastValidPage).
Proof.
  induction fuel as [| fuel IH]; intros left right lv Hlv Hl Hr;
    cbn [binarySearch_loop].
  - apply spec_out_of_fuel.
  - destruct (Z.leb_spec left right) as [Hle | Hgt];
      [| apply spec_ret; intros _; exact Hlv].
    destruct (ctx_Err ctx); [apply spec_ret; discriminate |].
    rewrite mid_exact by int_range.
    pose proof (quot2_bounds (right - left) ltac:(lia)) as Hq.
    set (mid := left + Z.quot (right - left) 2) in *.
    eapply spec_bind; [now apply spec_call |].
    intros r ->. destruct (checker ctx mid) as [hasData [err |]]; cbn.
    + apply spec_ret. discriminate.
    + destruct hasData.
      * rewrite add_exact by int_range. apply IH; lia.
      * rewrite sub_exact by int_range. apply IH; lia.
Qed.

Lemma linearScan_range (fuel : nat) : forall left page lastValidPage,
  lo <= lastValidPage <= hi -> lo <= left -> page <= hi ->
  spec (fun _ => True) within
       (linearScan fuel ctx checker left page lastValidPage).
Proof.
  induction fuel as [| fuel IH]; intros left page lv Hlv Hl Hp; cbn [linearScan].
  - apply spec_out_of_fuel.
  - rewrite Z.geb_leb. destruct (Z.leb_spec left page) as [Hle | Hgt];
      [| apply spec_ret; intros _; exact Hlv].
    eapply spec_bind; [now apply spec_call |].
    intros r ->. destruct (checker ctx page) as [hasData [err |]]; cbn.
    + apply spec_ret. discriminate.
    + destruct hasData; [apply spec_ret; intros _; cbn; lia |].
      rewrite sub_exact by int_range. apply IH; lia.
Qed.

Lemma binarySearchConcurrent_loop_range (fuel : nat) :
  forall sched left right lastValidPage,
  lo <= lastValidPage <= hi -> lo <= left -> right <= hi ->
  right - left < 2 ^ 62 ->
  spec (fun _ => True) within
       (binarySearchConcurrent_loop fuel sched ctx checker left right lastValidPage).
Proof.
  induction fuel as [| fuel IH]; intros sched left right lv Hlv Hl Hr Hw;
    cbn [binarySearchConcurrent_loop].
  - apply spec_out_of_fuel.
  - destruct (Z.leb_spec left right) as [Hle | Hgt];
      [| apply spec_ret; intros _; exact Hlv].
    destruct (ctx_Err ctx); [apply spec_ret; discriminate |].
    destruct (sub right left <=? 3); [now apply linearScan_range |].
    rewrite mid1_exact, mid2_exact by int_range.
    pose proof (quot3_bounds (right - left) ltac:(lia)) as Hq1.
    pose proof (quot3_bounds (2 * (right - left)) ltac:(lia)) as Hq2.
    set (mid1 := left + Z.quot (right - left) 3) in *.
    set (mid2 := left + Z.quot (2 * (right - left)) 3) in *.
    eapply spec_bind; [now apply spec_probePair |].
    intros results _.
    destruct (collect results mid1 mid2 false false) as [err | [m1 m2]];
      [apply spec_ret; discriminate |].
    destruct m2; [| destruct m1].
    + rewrite add_exact by int_range. apply IH; lia.
    + rewrite add_exact, sub_exact by int_range. apply IH; lia.
    + rewrite sub_exact by int_range. apply IH; lia.
Qed.

End ResultRange.

(** X2. C10 for ceilings up to 2^62, where doubling cannot overflow: a
    value either finder returns with a nil error is 0 exactly when page 1
    was reported empty, and lies between 1 and the ceiling when page 1 has
    data. *)
Theorem result_bounds_without_overflow
  (fuel : nat) (sched : Schedule) (ctx : Context) (checker : PageChecker)
  (maxPage v : Z) :
  normalize maxPage <= 2 ^ 62 ->
  result_of (FindTotalPages fuel ctx checker maxPage) = Some (v, None)
  \/ result_of (FindTotalPagesConcurrent fuel sched ctx checker maxPage)
     = Some (v, None) ->
  (v = 0 <-> fst (checker ctx 1) = false)
  /\ (fst (checker ctx 1) = true -> 1 <= v <= normalize maxPage).
Proof.
  intros Hm Hres. pose proof (normalize_range maxPage) as Hpos.
  unfold result_of, run in Hres.
  rewrite FindTotalPages_unfold, FindTotalPagesConcurrent_unfold in Hres.
  cbv zeta in Hres. remember (normalize maxPage) as m eqn:Em. clear Em.
  cbn [app] in Hres.
  destruct (checker ctx 1) as [[|] [err |]]; cbn [fst snd] in *.
  - destruct Hres as [Hres | Hres]; discriminate.
  - enough (1 <= v <= m) by (repeat split; try lia; try discriminate; auto).
    revert Hres.
    destruct (findUpperBound fuel ctx checker m [1]) as [[[ub [err |]] |] tr1] eqn:Hrun;
      intros Hres; try (destruct Hres as [Hres | Hres]; discriminate).
    destruct (findUpperBound_small_result _ _ _ _ _ _ _ (conj Hpos Hm) Hrun)
      as [Hub Hub2].
    destruct (Z.eqb_spec ub m) as [-> | Hne].
    { assert (v = m) as -> by (destruct Hres as [[= <-] | [= <-]]; reflexivity). lia. }
    destruct Hub2 as [-> | Hub2]; [contradiction |].
    pose proof (quot2_bounds ub ltac:(lia)) as Hq.
    assert (Hdiv : div ub 2 = Z.quot ub 2) by (apply div_exact; int_range).
    rewrite Hdiv in Hres.
    assert (Hhi : ub < int_max) by int_range.
    assert (Hlo : 0 <= Z.quot ub 2) by lia.
    destruct (binarySearch_loop_range ctx checker (Z.quot ub 2) ub Hlo Hhi fuel
                (Z.quot ub 2) ub (Z.quot ub 2) ltac:(lia) ltac:(lia) ltac:(lia) tr1)
      as (new1 & _ & _ & Hr1).
    destruct (binarySearchConcurrent_loop_range ctx checker (Z.quot ub 2) ub Hlo Hhi
                fuel sched (Z.quot ub 2) ub (Z.quot ub 2)
                ltac:(lia) ltac:(lia) ltac:(lia) ltac:(int_range) tr1)
      as (new2 & _ & _ & Hr2).
    unfold binarySearch, binarySearchConcurrent in Hres.
    destruct Hres as [Hres | Hres].
    + destruct (binarySearch_loop fuel ctx checker _ _ _ tr1) as [[[v1 [e1 |]] |] t1];
        try discriminate.
      injection Hres as <-. specialize (Hr1 _ eq_refl eq_refl). cbn in Hr1. lia.
    + destruct (binarySearchConcurrent_loop fuel sched ctx checker _ _ _ tr1)
        as [[[v2 [e2 |]] |] t2]; try discriminate.
      injection Hres as <-. specialize (Hr2 _ eq_refl eq_refl). cbn in Hr2. lia.
  - destruct Hres as [Hres | Hres]; discriminate.
  - assert (v = 0) as -> by (destruct Hres as [[= <-] | [= <-]]; reflexivity).
    repeat split; auto; discriminate.
Qed.

Lemma result_bounds_without_overflow_witness :
  (10 = 0 <-> fst (threshold 10 Background 1) = false)
  /\ (fst (threshold 10 Background 1) = true -> 1 <= 10 <= normalize 1000).
Proof.
  apply (result_bounds_without_overflow 70 in_order Background (threshold 10) 1000 10).
  - vm_compute. discriminate.
  - left. vm_compute. reflexivity.
Defined.

(** * Further properties of the finders *)

(** ** Total correctness with a probe count *)

Lemma total_ret {A} (P : Z -> Prop) (Q : A -> Prop) (n : nat) (a : A) :
  Q a -> total P Q n (ret a).
Proof.
  intros Ha tr. exists a, []. cbn. rewrite app_nil_r.
  repeat split; [constructor | exact Ha | lia].
Qed.

Lemma total_call (P : Z -> Prop) checker ctx p :
  P p -> total P (fun r => r = checker ctx p) 1 (call checker ctx p).
Proof.
  intros Hp tr. exists (checker ctx p), [p]. cbn.
  repeat split; [repeat constructor; exact Hp | lia].
Qed.

Lemma total_bind {A B} (P : Z -> Prop) (Q : A -> Prop) (Q' : B -> Prop)
  (n1 n2 : nat) (m : M A) (k : A -> M B) :
  total P Q n1 m -> (forall a, Q a -> total P Q' n2 (k a)) ->
  total P Q' (n1 + n2) (bind m k).
Proof.
  intros Hm Hk tr. unfold bind.
  destruct (Hm tr) as (a & new & Hrun & Hnew & Ha & Hlen). rewrite Hrun.
  destruct (Hk a Ha (tr ++ new)) as (b & new' & Hrun' & Hnew' & Hb & Hlen').
  exists b, (new ++ new'). rewrite Hrun', app_assoc.
  repeat split; [apply Forall_app; now split | exact Hb |].
  rewrite length_app. lia.
Qed.

Lemma total_weaken {A} (P P' : Z -> Prop) (Q Q' : A -> Prop) (n n' : nat) (m : M A) :
  (forall p, P p -> P' p) -> (forall a, Q a -> Q' a) -> (n <= n')%nat ->
  total P Q n m -> total P' Q' n' m.
Proof.
  intros HP HQ Hn Hm tr. destruct (Hm tr) as (a & new & Hrun & Hnew & Ha & Hlen).
  exists a, new. repeat split; [exact Hrun | | auto | lia].
  eapply Forall_impl; [| exact Hnew]. exact HP.
Qed.

Lemma total_probePair (P : Z -> Prop) il checker ctx mid1 mid2 :
  P mid1 -> P mid2 ->
  total P (fun _ => True) 2 (probePair il checker ctx mid1 mid2).
Proof.
  intros H1 H2 tr. unfold probePair. cbn zeta.
  eexists. exists (if calls_swapped il then [mid2; mid1] else [mid1; mid2]).
  repeat split.
  - destruct (calls_swapped il); repeat constructor; assumption.
  - destruct (calls_swapped il); cbn; lia.
Qed.

Lemma total_run {A} (P : Z -> Prop) (Q : A -> Prop) (n : nat) (m : M A) :
  total P Q n m ->
  exists a, result_of m = Some a /\ Q a
    /\ Forall P (trace_of m) /\ (Datatypes.length (trace_of m) <= n)%nat.
Proof.
  intros Hm. destruct (Hm []) as (a & new & Hrun & Hnew & Ha & Hlen).
  unfold result_of, trace_of, run. rewrite Hrun. cbn. eauto.
Qed.

Section Cost.

Variables (ctx : Context) (checker : PageChecker).

Lemma findUpperBound_loop_total (m : Z) (k : nat) :
  1 <= m <= 2 ^ 62 -> forall fuel page,
  (k < fuel)%nat -> 1 <= page -> m <= page * 2 ^ Z.of_nat k ->
  total (fun p => 2 <= p <= m)
        (fun r => snd r = None -> 1 <= fst r <= m /\ (fst r = m \/ 2 <= fst r))
        k (findUpperBound_loop fuel ctx checker m page).
Proof.
  intros Hm. induction k as [| k IH]; intros fuel page Hfuel Hp Hk;
    (destruct fuel as [| fuel]; [lia |]); cbn [findUpperBound_loop].
  - cbn in Hk. destruct (Z.ltb_spec page m) as [Hlt | Hge]; [lia |].
    apply total_ret. cbn. lia.
  - rewrite pow2_succ in Hk.
    destruct (Z.ltb_spec page m) as [Hlt | Hge]; [| apply total_ret; cbn; lia].
    rewrite mul_exact by int_range. rewrite Z.gtb_ltb.
    set (nextPage := if m <? page * 2 then m else page * 2).
    assert (Hn : 2 <= nextPage <= m /\ m <= nextPage * 2 ^ Z.of_nat k).
    { assert (1 <= 2 ^ Z.of_nat k) by (apply Z.lt_pred_le, Z.pow_pos_nonneg; lia).
      subst nextPage. destruct (Z.ltb_spec m (page * 2)); split; try lia; nia. }
    change (S k) with (1 + k)%nat.
    eapply total_bind; [apply total_call; apply Hn |].
    intros r ->. destruct (checker ctx nextPage) as [hasData [err |]]; cbn.
    + apply total_ret. cbn. discriminate.
    + destruct hasData; cbn; [apply IH; lia | apply total_ret; cbn; lia].
Qed.

Lemma binarySearch_loop_total (lo hi : Z) (f : nat) :
  0 <= lo -> hi < int_max -> forall fuel left right lastValidPage,
  (f < fuel)%nat -> lo <= left -> right <= hi ->
  right - left + 1 < 2 ^ Z.of_nat f ->
  total (fun p => lo <= p <= hi) (fun _ => True) f
        (binarySearch_loop fuel ctx checker left right lastValidPage).
Proof.
  intros Hlo Hhi. induction f as [| f IH]; intros fuel left right lv Hfuel Hl Hr Hw;
    (destruct fuel as [| fuel]; [lia |]); rewrite binarySearch_loop_S; cbv zeta.
  - cbn in Hw. destruct (Z.leb_spec left right) as [Hle | Hgt]; [lia |].
    now apply total_ret.
  - rewrite pow2_succ in Hw.
    destruct (Z.leb_spec left right) as [Hle | Hgt]; [| now apply total_ret].
    destruct (ctx_Err ctx); [now apply total_ret |].
    rewrite mid_exact by int_range.
    pose proof (quot2_bounds (right - left) ltac:(lia)) as Hq.
    set (mid := left + Z.quot (right - left) 2) in *.
    change (S f) with (1 + f)%nat.
    eapply total_bind; [apply total_call; lia |].
    intros r ->. destruct (checker ctx mid) as [hasData [err |]]; cbn.
    + now apply total_ret.
    + destruct hasData.
      * rewrite add_exact by int_range. apply IH; lia.
      * rewrite sub_exact by int_range. apply IH; lia.
Qed.

Lemma linearScan_total (lo hi : Z) (f : nat) :
  0 <= lo -> hi < int_max -> forall fuel left page lastValidPage,
  (f < fuel)%nat -> lo <= left -> page <= hi ->
  page - left + 1 <= Z.of_nat f ->
  total (fun p => lo <= p <= hi) (fun _ => True) f
        (linearScan fuel ctx checker left page lastValidPage).
Proof.
  intros Hlo Hhi. induction f as [| f IH]; intros fuel left page lv Hfuel Hl Hp Hw;
    (destruct fuel as [| fuel]; [lia |]); rewrite linearScan_S; rewrite Z.geb_leb.
  - destruct (Z.leb_spec left page) as [Hle | Hgt]; [cbn in Hw; lia |].
    now apply total_ret.
  - destruct (Z.leb_spec left page) as [Hle | Hgt]; [| now apply total_ret].
    change (S f) with (1 + f)%nat.
    eapply total_bind; [apply total_call; lia |].
    intros r ->. destruct (checker ctx page) as [hasData [err |]]; cbn.
    + now apply total_ret.
    + destruct hasData; [now apply total_ret |].
      rewrite sub_exact by int_range. apply IH; lia.
Qed.

Lemma binarySearchConcurrent_loop_total (lo hi : Z) (f : nat) :
  0 <= lo -> hi < int_max -> forall fuel sched left right lastValidPage,
  (f + 5 < fuel)%nat -> lo <= left -> right <= hi ->
  right - left < 2 ^ 62 -> right - left + 1 < 2 ^ Z.of_nat f ->
  total (fun p => lo <= p <= hi) (fun _ => True) (2 * f + 4)
        (binarySearchConcurrent_loop fuel sched ctx checker left right lastValidPage).
Proof.
  intros Hlo Hhi. induction f as [| f IH];
    intros fuel sched left right lv Hfuel Hl Hr H62 Hw;
    (destruct fuel as [| fuel]; [lia |]);
    rewrite binarySearchConcurrent_loop_S; cbv zeta.
  - cbn in Hw. destruct (Z.leb_spec left right) as [Hle | Hgt]; [lia |].
    now apply total_ret.
  - rewrite pow2_succ in Hw.
    destruct (Z.leb_spec left right) as [Hle | Hgt]; [| now apply total_ret].
    destruct (ctx_Err ctx); [now apply total_ret |].
    rewrite (sub_exact right left) by int_range.
    destruct (Z.leb_spec (right - left) 3) as [Hnarrow | Hwide].
    { apply total_weaken with (P := fun p => lo <= p <= hi) (Q := fun _ => True)
                              (n := 4%nat); auto; [lia |].
      apply linearScan_total; auto; lia. }
    rewrite <- (sub_exact right left) by int_range.
    rewrite mid1_exact, mid2_exact by int_range.
    pose proof (quot3_bounds (right - left) ltac:(lia)) as Hq1.
    pose proof (quot3_bounds (2 * (right - left)) ltac:(lia)) as Hq2.
    set (mid1 := left + Z.quot (right - left) 3) in *.
    set (mid2 := left + Z.quot (2 * (right - left)) 3) in *.
    replace (2 * S f + 4)%nat with (2 + (2 * f + 4))%nat by lia.
    eapply total_bind; [apply total_probePair; lia |].
    intros results _.
    destruct (collect results mid1 mid2 false false) as [err | [m1 m2]];
      [now apply total_ret |].
    destruct m2; [| destruct m1].
    + rewrite add_exact by int_range. apply IH; lia.
    + rewrite add_exact, sub_exact by int_range. apply IH; lia.
    + rewrite sub_exact by int_range. apply IH; lia.
Qed.

End Cost.

Lemma FindTotalPages_total fuel ctx checker maxPage (k : nat) :
  (64 <= fuel)%nat -> (k <= 62)%nat -> normalize maxPage <= 2 ^ Z.of_nat k ->
  total (fun p => 1 <= p <= normalize maxPage) (fun _ => True) (1 + (k + (k + 0)))
        (FindTotalPages fuel ctx checker maxPage).
Proof.
  intros Hfuel Hk Hm. pose proof (normalize_range maxPage) as Hpos.
  pose proof (pow2_mono k 62 Hk) as Hk62. change (2 ^ Z.of_nat 62) with (2 ^ 62) in Hk62.
  unfold FindTotalPages. cbv zeta. remember (normalize maxPage) as m eqn:Em. clear Em.
  eapply total_bind; [apply total_call; lia |].
  intros r ->. destruct (checker ctx 1) as [hasData [err |]]; cbn;
    [now apply total_ret |].
  destruct hasData; cbn; [| now apply total_ret].
  eapply total_bind
    with (Q := fun r => snd r = None -> 1 <= fst r <= m /\ (fst r = m \/ 2 <= fst r)).
  { apply total_weaken with (P := fun p => 2 <= p <= m) (n := k)
      (Q := fun r => snd r = None -> 1 <= fst r <= m /\ (fst r = m \/ 2 <= fst r));
      [intros; lia | auto | lia |].
    unfold findUpperBound.
    apply (findUpperBound_loop_total ctx checker m k ltac:(lia) fuel 1); lia. }
  intros [ub [err |]] Hub; cbn; [now apply total_ret |].
  destruct (Hub eq_refl) as [Hrange Hub2]. cbn in Hrange, Hub2.
  destruct (Z.eqb_spec ub m) as [-> | Hne]; [now apply total_ret |].
  destruct Hub2 as [-> | Hub2]; [contradiction |].
  pose proof (quot2_bounds ub ltac:(lia)) as Hq.
  rewrite div_exact by int_range.
  eapply total_bind with (Q := fun _ => True);
    [| intros [v [e |]] _; now apply total_ret].
  apply total_weaken with (P := fun p => Z.quot ub 2 <= p <= ub)
                          (Q := fun _ => True) (n := k); auto; [intros; lia |].
  unfold binarySearch.
  apply (binarySearch_loop_total ctx checker (Z.quot ub 2) ub k); try lia. int_range.
Qed.

Lemma FindTotalPagesConcurrent_total fuel sched ctx checker maxPage (k : nat) :
  (70 <= fuel)%nat -> (k <= 62)%nat -> normalize maxPage <= 2 ^ Z.of_nat k ->
  total (fun p => 1 <= p <= normalize maxPage) (fun _ => True)
        (1 + (k + (2 * k + 4 + 0)))
        (FindTotalPagesConcurrent fuel sched ctx checker maxPage).
Proof.
  intros Hfuel Hk Hm. pose proof (normalize_range maxPage) as Hpos.
  pose proof (pow2_mono k 62 Hk) as Hk62. change (2 ^ Z.of_nat 62) with (2 ^ 62) in Hk62.
  unfold FindTotalPagesConcurrent. cbv zeta.
  remember (normalize maxPage) as m eqn:Em. clear Em.
  eapply total_bind; [apply total_call; lia |].
  intros r ->. destruct (checker ctx 1) as [hasData [err |]]; cbn;
    [now apply total_ret |].
  destruct hasData; cbn; [| now apply total_ret].
  eapply total_bind
    with (Q := fun r => snd r = None -> 1 <= fst r <= m /\ (fst r = m \/ 2 <= fst r)).
  { intros tr. rewrite findUpperBoundConcurrent_eq. revert tr.
    apply total_weaken with (P := fun p => 2 <= p <= m) (n := k)
      (Q := fun r => snd r = None -> 1 <= fst r <= m /\ (fst r = m \/ 2 <= fst r));
      [intros; lia | auto | lia |].
    unfold findUpperBound.
    apply (findUpperBound_loop_total ctx checker m k ltac:(lia) fuel 1); lia. }
  intros [ub [err |]] Hub; cbn; [now apply total_ret |].
  destruct (Hub eq_refl) as [Hrange Hub2]. cbn in Hrange, Hub2.
  destruct (Z.eqb_spec ub m) as [-> | Hne]; [now apply total_ret |].
  destruct Hub2 as [-> | Hub2]; [contradiction |].
  pose proof (quot2_bounds ub ltac:(lia)) as Hq.
  rewrite div_exact by int_range.
  eapply total_bind with (Q := fun _ => True);
    [| intros [v [e |]] _; now apply total_ret].
  apply total_weaken with (P := fun p => Z.quot ub 2 <= p <= ub)
                          (Q := fun _ => True) (n := (2 * k + 4)%nat); auto;
    [intros; lia |].
  unfold binarySearchConcurrent.
  apply (binarySearchConcurrent_loop_total ctx checker (Z.quot ub 2) ub k); try lia.
  int_range.
Qed.

(** X3. For every probe and context and every ceiling of at most [2^k]
    with [k <= 62], the sequential finder returns (a budget of 64 loop
    iterations is never exhausted), after at most [2k + 1] probes, all of
    pages between 1 and the ceiling. *)
Theorem sequential_returns_within
  (fuel : nat) (ctx : Context) (checker : PageChecker) (maxPage : Z) (k : nat) :
  (64 <= fuel)%nat -> (k <= 62)%nat -> normalize maxPage <= 2 ^ Z.of_nat k ->
  (exists r, result_of (FindTotalPages fuel ctx checker maxPage) = Some r)
  /\ Forall (fun p => 1 <= p <= normalize maxPage)
       (trace_of (FindTotalPages fuel ctx checker maxPage))
  /\ (Datatypes.length (trace_of (FindTotalPages fuel ctx checker maxPage))
      <= 2 * k + 1)%nat.
Proof.
  intros Hfuel Hk Hm.
  destruct (total_run _ _ _ _ (FindTotalPages_total fuel ctx checker maxPage k Hfuel Hk Hm))
    as (r & Hres & _ & Hpages & Hlen).
  split; [now exists r |]. split; [exact Hpages | lia].
Qed.

Lemma sequential_returns_within_witness :
  (exists r, result_of (FindTotalPages 64 Background endless 0) = Some r)
  /\ Forall (fun p => 1 <= p <= normalize 0)
       (trace_of (FindTotalPages 64 Background endless 0))
  /\ (Datatypes.length (trace_of (FindTotalPages 64 Background endless 0))
      <= 2 * 17 + 1)%nat.
Proof.
  apply (sequential_returns_within 64 Background endless 0 17).
  - lia.
  - lia.
  - vm_compute. discriminate.
Defined.

(** X4. For every probe, context and scheduling and every ceiling of at
    most [2^k] with [k <= 62], the concurrent finder returns (a budget of 70
    loop iterations is never exhausted), after at most [3k + 5] probes, all
    of pages between 1 and the ceiling. *)
Theorem concurrent_returns_within
  (fuel : nat) (sched : Schedule) (ctx : Context) (checker : PageChecker)
  (maxPage : Z) (k : nat) :
  (70 <= fuel)%nat -> (k <= 62)%nat -> normalize maxPage <= 2 ^ Z.of_nat k ->
  (exists r, result_of (FindTotalPagesConcurrent fuel sched ctx checker maxPage) = Some r)
  /\ Forall (fun p => 1 <= p <= normalize maxPage)
       (trace_of (FindTotalPagesConcurrent fuel sched ctx checker maxPage))
  /\ (Datatypes.length (trace_of (FindTotalPagesConcurrent fuel sched ctx checker maxPage))
      <= 3 * k + 5)%nat.
Proof.
  intros Hfuel Hk Hm.
  destruct (total_run _ _ _ _
              (FindTotalPagesConcurrent_total fuel sched ctx checker maxPage k
                 Hfuel Hk Hm))
    as (r & Hres & _ & Hpages & Hlen).
  split; [now exists r |]. split; [exact Hpages | lia].
Qed.

Lemma concurrent_returns_within_witness :
  (exists r, result_of (FindTotalPagesConcurrent 70 in_order Background endless 0) = Some r)
  /\ Forall (fun p => 1 <= p <= normalize 0)
       (trace_of (FindTotalPagesConcurrent 70 in_order Background endless 0))
  /\ (Datatypes.length (trace_of (FindTotalPagesConcurrent 70 in_order Background endless 0))
      <= 3 * 17 + 5)%nat.
Proof.
  apply (concurrent_returns_within 70 in_order Background endless 0 17).
  - lia.
  - lia.
  - vm_compute. discriminate.
Defined.

(** ** A ceiling above 2^62 *)

Section Overflow.

Variables (ctx : Context) (checker : PageChecker).
Hypothesis Hfull : forall p, checker ctx p = (true, None).
Variable m : Z.
Hypothesis Hm : 2 ^ 62 < m.

Lemma stuck_at_zero fuel : forall tr,
  fst (findUpperBound_loop fuel ctx checker m 0 tr) = None.
Proof.
  induction fuel as [| fuel IH]; intros tr; cbn [findUpperBound_loop]; [reflexivity |].
  assert (H0 : (0 <? m) = true) by (apply Z.ltb_lt; lia).
  change (mul 0 2) with 0.
  assert (Hc : (0 >? m) = false) by (rewrite Z.gtb_ltb; apply Z.ltb_ge; lia).
  rewrite H0, Hc. unfold bind, call. rewrite Hfull. cbn [fst snd negb]. apply IH.
Qed.

Lemma stuck_after_wrap fuel : forall tr,
  fst (findUpperBound_loop fuel ctx checker m (- 2 ^ 63) tr) = None.
Proof.
  destruct fuel as [| fuel]; intros tr; cbn [findUpperBound_loop]; [reflexivity |].
  assert (H0 : (- 2 ^ 63 <? m) = true) by (apply Z.ltb_lt; lia).
  change (mul (- 2 ^ 63) 2) with 0.
  assert (Hc : (0 >? m) = false) by (rewrite Z.gtb_ltb; apply Z.ltb_ge; lia).
  rewrite H0, Hc. unfold bind, call. rewrite Hfull. cbn [fst snd negb].
  apply stuck_at_zero.
Qed.

Lemma doubling_never_returns (d : nat) : forall (j : nat) fuel tr,
  (j + d = 62)%nat ->
  fst (findUpperBound_loop fuel ctx checker m (2 ^ Z.of_nat j) tr) = None.
Proof.
  induction d as [| d IH]; intros j fuel tr Hj;
    (destruct fuel as [| fuel]; [reflexivity |]); cbn [findUpperBound_loop].
  - assert (j = 62%nat) as -> by lia. change (2 ^ Z.of_nat 62) with (2 ^ 62).
    assert (H0 : (2 ^ 62 <? m) = true) by (apply Z.ltb_lt; lia).
    change (mul (2 ^ 62) 2) with (- 2 ^ 63).
    assert (Hc : (- 2 ^ 63 >? m) = false) by (rewrite Z.gtb_ltb; apply Z.ltb_ge; lia).
    rewrite H0, Hc. unfold bind, call. rewrite Hfull. cbn [fst snd negb].
    apply stuck_after_wrap.
  - pose proof (pow2_mono (S j) 62 ltac:(lia)) as Hle.
    change (2 ^ Z.of_nat 62) with (2 ^ 62) in Hle. rewrite pow2_succ in Hle.
    assert (Hpos : 0 < 2 ^ Z.of_nat j) by (apply Z.pow_pos_nonneg; lia).
    assert (H0 : (2 ^ Z.of_nat j <? m) = true) by (apply Z.ltb_lt; lia).
    rewrite mul_exact by int_range.
    assert (Hc : (2 ^ Z.of_nat j * 2 >? m) = false)
      by (rewrite Z.gtb_ltb; apply Z.ltb_ge; lia).
    rewrite H0, Hc. unfold bind, call. rewrite Hfull. cbn [fst snd negb].
    replace (2 ^ Z.of_nat j * 2) with (2 ^ Z.of_nat (S j)) by (rewrite pow2_succ; lia).
    apply IH. lia.
Qed.

End Overflow.

(** X5. With a ceiling above 2^62 and a probe that reports data on every
    page, neither finder ever returns: the growth phase doubles up to 2^62,
    wraps to -2^63, then to 0, and stays on page 0 whatever the loop budget.
    The ceiling does not stop a probe that always answers true once it is
    above 2^62. *)
Theorem always_true_probe_never_returns
  (fuel : nat) (sched : Schedule) (ctx : Context) (checker : PageChecker)
  (maxPage : Z) :
  2 ^ 62 < maxPage ->
  (forall p, checker ctx p = (true, None)) ->
  result_of (FindTotalPages fuel ctx checker maxPage) = None
  /\ result_of (FindTotalPagesConcurrent fuel sched ctx checker maxPage) = None.
Proof.
  intros Hm Hfull. unfold result_of, run.
  rewrite FindTotalPages_unfold, FindTotalPagesConcurrent_unfold. cbv zeta.
  rewrite normalize_positive by lia. rewrite Hfull. cbn [app].
  pose proof (doubling_never_returns ctx checker Hfull maxPage Hm 62 0 fuel [1] eq_refl)
    as Hnone.
  change (2 ^ Z.of_nat 0) with 1 in Hnone. unfold findUpperBound.
  destruct (findUpperBound_loop fuel ctx checker maxPage 1 [1]) as [[r |] tr1];
    [discriminate |].
  split; reflexivity.
Qed.

Lemma always_true_probe_never_returns_witness :
  result_of (FindTotalPages 1000 Background (fun _ _ => (true, None)) int_max) = None
  /\ result_of (FindTotalPagesConcurrent 1000 in_order Background
                  (fun _ _ => (true, None)) int_max) = None.
Proof.
  apply (always_true_probe_never_returns 1000 in_order Background
           (fun _ _ => (true, None)) int_max).
  - vm_compute. reflexivity.
  - intros p. reflexivity.
Defined.

(** ** Data on every power of two below the ceiling *)

Section Saturation.

Variables (ctx : Context) (checker : PageChecker).
Variable m : Z.
Hypothesis Hm : 1 <= m <= 2 ^ 62.
Hypothesis Hpow : forall j : nat, 2 ^ Z.of_nat j < m -> checker ctx (2 ^ Z.of_nat j) = (true, None).
Hypothesis Hceil : snd (checker ctx m) = None.

Lemma growth_saturates (k : nat) : forall fuel (j : nat) tr,
  (k < fuel)%nat -> m <= 2 ^ Z.of_nat (j + k) ->
  fst (findUpperBound_loop fuel ctx checker m (2 ^ Z.of_nat j) tr) = Some (m, None).
Proof.
  induction k as [| k IH]; intros fuel j tr Hfuel Hk;
    (destruct fuel as [| fuel]; [lia |]); cbn [findUpperBound_loop].
  - rewrite Nat.add_0_r in Hk.
    destruct (Z.ltb_spec (2 ^ Z.of_nat j) m) as [Hlt | Hge]; [lia | reflexivity].
  - destruct (Z.ltb_spec (2 ^ Z.of_nat j) m) as [Hlt | Hge]; [| reflexivity].
    assert (Hpos : 0 < 2 ^ Z.of_nat j) by (apply Z.pow_pos_nonneg; lia).
    rewrite mul_exact by int_range. rewrite Z.gtb_ltb.
    replace (2 ^ Z.of_nat j * 2) with (2 ^ Z.of_nat (S j)) by (rewrite pow2_succ; lia).
    assert (Hexit : forall f tr', (0 < f)%nat ->
              fst (findUpperBound_loop f ctx checker m m tr') = Some (m, None)).
    { intros f tr' Hf. destruct f as [| f]; [lia |]. cbn [findUpperBound_loop].
      rewrite Z.ltb_irrefl. reflexivity. }
    assert (Hat_m : forall tr', fst
              (bind (call checker ctx m)
                 (fun r => match snd r with
                           | Some err => ret (0, Some err)
                           | None => if negb (fst r) then ret (m, None)
                                     else findUpperBound_loop fuel ctx checker m m
                           end) tr') = Some (m, None)).
    { intros tr'. unfold bind, call.
      destruct (checker ctx m) as [hasData err]. cbn in Hceil. subst err.
      cbn [fst snd]. destruct hasData; cbn [negb]; [| reflexivity].
      apply Hexit. lia. }
    destruct (Z.ltb_spec m (2 ^ Z.of_nat (S j))) as [Hclamp | Hfit]; [apply Hat_m |].
    destruct (Z.eq_dec (2 ^ Z.of_nat (S j)) m) as [Heq | Hne].
    + rewrite Heq. apply Hat_m.
    + unfold bind, call. rewrite Hpow by lia. cbn [fst snd negb].
      apply IH; [lia |]. now replace (S j + k)%nat with (j + S k)%nat by lia.
Qed.

End Saturation.

(** X6. When page 1 and every power of two below the ceiling have data
    (and the probe of the ceiling page does not fail), both finders return
    the ceiling with a nil error, whatever the probe says of the ceiling
    page and of every other page; ceiling at most 2^62. *)
Theorem ceiling_returned_when_powers_of_two_have_data
  (fuel : nat) (sched : Schedule) (ctx : Context) (checker : PageChecker)
  (maxPage : Z) :
  (64 <= fuel)%nat -> normalize maxPage <= 2 ^ 62 ->
  checker ctx 1 = (true, None) ->
  (forall j : nat, 2 ^ Z.of_nat j < normalize maxPage ->
     checker ctx (2 ^ Z.of_nat j) = (true, None)) ->
  snd (checker ctx (normalize maxPage)) = None ->
  result_of (FindTotalPages fuel ctx checker maxPage)
  = Some (normalize maxPage, None)
  /\ result_of (FindTotalPagesConcurrent fuel sched ctx checker maxPage)
     = Some (normalize maxPage, None).
Proof.
  intros Hfuel Hm H1 Hpow Hceil. pose proof (normalize_range maxPage) as Hpos.
  unfold result_of, run.
  rewrite FindTotalPages_unfold, FindTotalPagesConcurrent_unfold. cbv zeta.
  remember (normalize maxPage) as m eqn:Em. clear Em. rewrite H1. cbn [app].
  pose proof (growth_saturates ctx checker m (conj Hpos Hm) Hpow Hceil 62 fuel 0 [1]
                ltac:(lia) ltac:(cbn [Nat.add]; change (2 ^ Z.of_nat 62) with (2 ^ 62); lia))
    as Hgrow.
  change (2 ^ Z.of_nat 0) with 1 in Hgrow. unfold findUpperBound.
  destruct (findUpperBound_loop fuel ctx checker m 1 [1]) as [[[ub err] |] tr1];
    cbn in Hgrow; [| discriminate].
  injection Hgrow as -> ->. rewrite Z.eqb_refl. split; reflexivity.
Qed.

Lemma ceiling_returned_when_powers_of_two_have_data_witness :
  result_of (FindTotalPages 64 Background (threshold 5) 7) = Some (normalize 7, None)
  /\ result_of (FindTotalPagesConcurrent 64 in_order Background (threshold 5) 7)
     = Some (normalize 7, None).
Proof.
  apply (ceiling_returned_when_powers_of_two_have_data 64 in_order Background
           (threshold 5) 7).
  - lia.
  - vm_compute. discriminate.
  - reflexivity.
  - intros j Hj. change (normalize 7) with 7 in Hj.
    destruct j as [| [| [| j]]]; try reflexivity.
    exfalso. rewrite !pow2_succ in Hj.
    assert (0 < 2 ^ Z.of_nat j) by (apply Z.pow_pos_nonneg; lia). lia.
  - reflexivity.
Defined.

(** ** A probe that is not monotone *)

Section LocalBoundary.

Variables (ctx : Context) (checker : PageChecker).
Hypothesis Hfree : error_free checker ctx.
Hypothesis Hctx : ctx_Err ctx = None.
Variable hi : Z.
Hypothesis Hhi : hi < int_max.

Let found (r : Z * option error) : Prop :=
  snd r = None /\ local_boundary ctx checker (fst r).

Lemma bracket_closed left right lv b :
  bracket ctx checker left right lv b -> right < left ->
  local_boundary ctx checker lv.
Proof.
  intros (Hl & Hlr & Hrb & Hb & Hd & Hlt & Hlv) Hgt. split; [exact Hd |].
  assert (lv + 1 = b) as -> by lia. exact Hb.
Qed.

Lemma binarySearch_loop_local (fuel : nat) : forall left right lastValidPage b,
  bracket ctx checker left right lastValidPage b -> b <= hi ->
  spec (fun _ => True) found
       (binarySearch_loop fuel ctx checker left right lastValidPage).
Proof.
  induction fuel as [| fuel IH]; intros left right lv b B Hb; cbn [binarySearch_loop].
  - apply spec_out_of_fuel.
  - destruct (Z.leb_spec left right) as [Hle | Hgt].
    2:{ apply spec_ret. split; [reflexivity |]. now apply (bracket_closed left right lv b). }
    rewrite Hctx. destruct B as (Hl & Hlr & Hrb & Hbe & Hd & Hlt & Hlv).
    rewrite mid_exact by int_range.
    pose proof (quot2_bounds (right - left) ltac:(lia)) as Hq.
    set (mid := left + Z.quot (right - left) 2) in *.
    eapply spec_bind; [now apply spec_call |].
    intros r ->. destruct (probe_answer ctx checker Hfree mid) as [[-> Hm] | [-> Hm]]; cbn.
    + rewrite add_exact by int_range.
      assert (mid <> b) by (intros ->; contradiction).
      apply (IH _ _ _ b); [| exact Hb]. unfold bracket. repeat split; auto; lia.
    + rewrite sub_exact by int_range.
      assert (mid <> lv) by (intros ->; contradiction).
      apply (IH _ _ _ mid); [| lia]. unfold bracket. repeat split; auto; lia.
Qed.

Lemma linearScan_local (fuel : nat) : forall left page lastValidPage b,
  0 <= left -> left <= page + 1 -> page = b \/ page = b - 1 -> b <= hi ->
  ~ has_data checker ctx b -> has_data checker ctx lastValidPage ->
  lastValidPage = left - 1 \/ (lastValidPage = left /\ left <= page) ->
  spec (fun _ => True) found
       (linearScan fuel ctx checker left page lastValidPage).
Proof.
  induction fuel as [| fuel IH]; intros left page lv b Hl Hlp Hpb Hb Hbe Hd Hlv;
    cbn [linearScan].
  - apply spec_out_of_fuel.
  - rewrite Z.geb_leb. destruct (Z.leb_spec left page) as [Hle | Hgt].
    2:{ apply spec_ret. split; [reflexivity |]. split; [exact Hd |]. cbn [fst].
        destruct Hpb as [-> | ->].
        - assert (lv = b) as -> by lia. contradiction.
        - assert (lv + 1 = b) as -> by lia. exact Hbe. }
    eapply spec_bind; [now apply spec_call |].
    intros r ->. destruct (probe_answer ctx checker Hfree page) as [[-> Hm] | [-> Hm]]; cbn.
    + apply spec_ret. split; [reflexivity |]. split; [exact Hm |]. cbn [fst].
      destruct Hpb as [-> | ->]; [contradiction |].
      now replace (b - 1 + 1) with b by lia.
    + rewrite sub_exact by int_range.
      apply (IH _ _ _ page); auto; try lia.
      destruct Hlv as [Hlv | [Hlv Hle']]; [now left |].
      right. split; [exact Hlv |].
      assert (page <> lv) by (intros ->; contradiction). lia.
Qed.

Lemma binarySearchConcurrent_loop_local (fuel : nat) :
  forall sched left right lastValidPage b,
  bracket ctx checker left right lastValidPage b -> b <= hi ->
  right - left < 2 ^ 62 ->
  spec (fun _ => True) found
       (binarySearchConcurrent_loop fuel sched ctx checker left right lastValidPage).
Proof.
  induction fuel as [| fuel IH]; intros sched left right lv b B Hb Hw;
    cbn [binarySearchConcurrent_loop].
  - apply spec_out_of_fuel.
  - destruct (Z.leb_spec left right) as [Hle | Hgt].
    2:{ apply spec_ret. split; [reflexivity |]. now apply (bracket_closed left right lv b). }
    rewrite Hctx. destruct B as (Hl & Hlr & Hrb & Hbe & Hd & Hlt & Hlv).
    rewrite (sub_exact right left) by int_range.
    destruct (Z.leb_spec (right - left) 3) as [Hnarrow | Hwide].
    { apply (linearScan_local fuel left right lv b); auto; lia. }
    rewrite <- (sub_exact right left) by int_range.
    rewrite mid1_exact, mid2_exact by int_range.
    pose proof (quot3_bounds (right - left) ltac:(lia)) as Hq1.
    pose proof (quot3_bounds (2 * (right - left)) ltac:(lia)) as Hq2.
    set (mid1 := left + Z.quot (right - left) 3) in *.
    set (mid2 := left + Z.quot (2 * (right - left)) 3) in *.
    eapply spec_bind; [now apply spec_probePair_value |].
    intros results Hres. cbv beta zeta in Hres.
    pose proof (collect_two
      (mkResult mid1 (fst (checker ctx mid1)) (snd (checker ctx mid1)))
      (mkResult mid2 (fst (checker ctx mid2)) (snd (checker ctx mid2)))
      mid1 mid2 eq_refl eq_refl ltac:(lia) (Hfree mid1) (Hfree mid2)) as [Hc1 Hc2].
    assert (Hcollect : collect results mid1 mid2 false false
                       = inr (fst (checker ctx mid1), fst (checker ctx mid2))).
    { rewrite Hres. destruct (delivery_swapped (sched O)); assumption. }
    rewrite Hcollect. clear Hc1 Hc2 Hcollect Hres results.
    destruct (probe_answer ctx checker Hfree mid2) as [[-> Hm2] | [-> Hm2]]; cbn [fst].
    + rewrite add_exact by int_range.
      assert (mid2 <> b) by (intros ->; contradiction).
      apply (IH _ _ _ _ b); [| exact Hb | lia]. unfold bracket. repeat split; auto; lia.
    + destruct (probe_answer ctx checker Hfree mid1) as [[-> Hm1] | [-> Hm1]]; cbn [fst].
      * rewrite add_exact, sub_exact by int_range.
        apply (IH _ _ _ _ mid2); [| lia | lia]. unfold bracket. repeat split; auto; lia.
      * rewrite sub_exact by int_range.
        assert (mid1 <> lv) by (intros ->; contradiction).
        apply (IH _ _ _ _ mid1); [| lia | lia]. unfold bracket. repeat split; auto; lia.
Qed.

End LocalBoundary.

Section LocalGrowth.

Variables (ctx : Context) (checker : PageChecker).
Hypothesis Hfree : error_free checker ctx.

(** Without overflow the growth phase ends at the ceiling or on an empty
    page whose half has data. *)
Lemma findUpperBound_loop_local (m : Z) (fuel : nat) :
  1 <= m <= 2 ^ 62 -> forall page, 1 <= page -> has_data checker ctx page ->
  spec (fun _ => True)
       (fun r => snd r = None /\
                 (fst r <> m ->
                  2 <= fst r < m /\ has_data checker ctx (Z.quot (fst r) 2)
                  /\ ~ has_data checker ctx (fst r)))
       (findUpperBound_loop fuel ctx checker m page).
Proof.
  intros Hm. induction fuel as [| fuel IH]; intros page Hp Hd; cbn [findUpperBound_loop].
  - apply spec_out_of_fuel.
  - destruct (Z.ltb_spec page m) as [Hlt | Hge];
      [| apply spec_ret; split; [reflexivity | cbn; congruence]].
    rewrite mul_exact by int_range. rewrite Z.gtb_ltb.
    set (nextPage := if m <? page * 2 then m else page * 2).
    assert (Hn : 2 <= nextPage <= m /\ (nextPage = m \/ nextPage = page * 2)).
    { subst nextPage. destruct (Z.ltb_spec m (page * 2)); split; auto; lia. }
    destruct Hn as [Hrange Hnis].
    eapply spec_bind; [now apply spec_call |].
    intros r ->.
    destruct (probe_answer ctx checker Hfree nextPage) as [[-> Hnd] | [-> Hnd]]; cbn.
    + apply IH; [lia | exact Hnd].
    + apply spec_ret. split; [reflexivity |]. cbn. intros Hne.
      destruct Hnis as [Heq | Heq]; [contradiction |].
      split; [lia |]. split; [| exact Hnd].
      rewrite Heq, Z.quot_mul by lia. exact Hd.
Qed.

End LocalGrowth.

(** X7. For a probe that never fails but need not be monotone, a context
    that is not cancelled and a ceiling of at most 2^62, a value either
    finder returns is 0 with page 1 empty, or the ceiling, or a page that
    has data and whose successor has none. *)
Theorem result_is_a_local_boundary
  (fuel : nat) (sched : Schedule) (ctx : Context) (checker : PageChecker)
  (maxPage v : Z) (err : option error) :
  error_free checker ctx -> ctx_Err ctx = None -> normalize maxPage <= 2 ^ 62 ->
  result_of (FindTotalPages fuel ctx checker maxPage) = Some (v, err)
  \/ result_of (FindTotalPagesConcurrent fuel sched ctx checker maxPage)
     = Some (v, err) ->
  err = None
  /\ (v = 0 /\ ~ has_data checker ctx 1
      \/ v = normalize maxPage
      \/ local_boundary ctx checker v).
Proof.
  intros Hfree Hctx Hm Hres. pose proof (normalize_range maxPage) as Hpos.
  unfold result_of, run in Hres.
  rewrite FindTotalPages_unfold, FindTotalPagesConcurrent_unfold in Hres.
  cbv zeta in Hres. remember (normalize maxPage) as m eqn:Em. clear Em.
  cbn [app] in Hres.
  destruct (probe_answer ctx checker Hfree 1) as [[H1 Hd1] | [H1 Hd1]];
    rewrite H1 in Hres; cbn [fst snd] in Hres.
  2:{ assert (v = 0 /\ err = None) as [-> ->]
        by (destruct Hres as [[= <- <-] | [= <- <-]]; auto).
      auto. }
  destruct (findUpperBound_loop_local ctx checker Hfree m fuel (conj Hpos Hm) 1
              ltac:(lia) Hd1 [1]) as (new & _ & _ & Hgrow).
  unfold findUpperBound in Hres.
  destruct (findUpperBound_loop fuel ctx checker m 1 [1]) as [[[ub uerr] |] tr1];
    [| destruct Hres as [Hres | Hres]; discriminate].
  destruct (Hgrow _ eq_refl) as [Hnone Hgap]. cbn in Hnone, Hgap. subst uerr.
  destruct (Z.eqb_spec ub m) as [-> | Hne].
  { assert (v = m /\ err = None) as [-> ->]
      by (destruct Hres as [[= <- <-] | [= <- <-]]; auto).
    auto. }
  destruct (Hgap Hne) as (Hub & Hhalf & Hempty).
  pose proof (quot2_bounds ub ltac:(lia)) as Hq.
  assert (Hdiv : div ub 2 = Z.quot ub 2) by (apply div_exact; int_range).
  rewrite Hdiv in Hres.
  assert (Hhi : ub < int_max) by int_range.
  assert (B : bracket ctx checker (Z.quot ub 2) ub (Z.quot ub 2) ub).
  { unfold bracket. repeat split; auto; lia. }
  destruct (binarySearch_loop_local ctx checker Hfree Hctx ub Hhi fuel _ _ _ ub B
              ltac:(lia) tr1) as (new1 & _ & _ & Hr1).
  destruct (binarySearchConcurrent_loop_local ctx checker Hfree Hctx ub Hhi fuel
              sched _ _ _ ub B ltac:(lia) ltac:(int_range) tr1)
    as (new2 & _ & _ & Hr2).
  unfold binarySearch, binarySearchConcurrent in Hres.
  destruct Hres as [Hres | Hres].
  - destruct (binarySearch_loop fuel ctx checker _ _ _ tr1) as [[[v1 e1] |] t1];
      [| discriminate].
    destruct (Hr1 _ eq_refl) as [He Hloc]. cbn in He, Hloc. subst e1.
    injection Hres as <- <-. auto.
  - destruct (binarySearchConcurrent_loop fuel sched ctx checker _ _ _ tr1)
      as [[[v2 e2] |] t2]; [| discriminate].
    destruct (Hr2 _ eq_refl) as [He Hloc]. cbn in He, Hloc. subst e2.
    injection Hres as <- <-. auto.
Qed.

Lemma result_is_a_local_boundary_witness :
  let checker : PageChecker := fun _ p => ((p <=? 5) || (p =? 7), None) in
  @None error = None
  /\ (5 = 0 /\ ~ has_data checker Background 1
      \/ 5 = normalize 1000
      \/ local_boundary Background checker 5).
Proof.
  intros checker.
  apply (result_is_a_local_boundary 64 in_order Background checker 1000 5 None).
  - intros p. reflexivity.
  - reflexivity.
  - vm_compute. discriminate.
  - left. vm_compute. reflexivity.
Defined.

(** ** Probe errors in the concurrent finder *)

Section ConcurrentErrors.

Variables (ctx : Context) (checker : PageChecker).

Let ok (p : Z) : Prop := snd (checker ctx p) = None.

Lemma aborted_is_round wrapper new res :
  aborted ctx checker wrapper new res -> aborted_round ctx checker wrapper new res.
Proof.
  intros (pre & p & e & -> & Hpre & He & Hres).
  exists pre, [p], p, e. cbn. repeat split; auto.
Qed.

Lemma aborted_round_cons wrapper p new res :
  ok p -> aborted_round ctx checker wrapper new res ->
  aborted_round ctx checker wrapper (p :: new) res.
Proof.
  intros Hp (pre & last & q & e & -> & Hpre & Hlen & Hq & He & Hres).
  exists (p :: pre), last, q, e. repeat split; auto; lia.
Qed.

Lemma aborted_round_app wrapper l new res :
  Forall ok l -> aborted_round ctx checker wrapper new res ->
  aborted_round ctx checker wrapper (l ++ new) res.
Proof.
  intros Hl. induction Hl as [| p l Hp Hl IH]; intros H; cbn; [exact H |].
  apply aborted_round_cons; auto.
Qed.

Lemma aborted_round_rewrap prefix new v e :
  aborted_round ctx checker (fun e => e) new (Some (v, Some e)) ->
  aborted_round ctx checker (Wrapf prefix) new (Some (0, Some (Wrapf prefix e))).
Proof.
  intros (pre & last & q & e' & -> & Hpre & Hlen & Hq & He & [= -> ->]).
  exists pre, last, q, e'. auto 7.
Qed.

Lemma linearScan_errors fuel : forall left page lastValidPage tr,
  exists new,
    snd (linearScan fuel ctx checker left page lastValidPage tr) = tr ++ new /\
    (Forall ok new
     \/ aborted ctx checker (fun e => e) new
          (fst (linearScan fuel ctx checker left page lastValidPage tr))).
Proof.
  induction fuel as [| fuel IH]; intros left page lv tr; cbn [linearScan].
  - exists []. cbn. rewrite app_nil_r. split; [reflexivity |]. left. constructor.
  - destruct (page >=? left).
    2:{ exists []. cbn. rewrite app_nil_r. split; [reflexivity |]. left. constructor. }
    unfold bind, call.
    destruct (checker ctx page) as [hasData [err |]] eqn:E; cbn [fst snd].
    + exists [page]. cbn. split; [reflexivity |]. right.
      exists [], page, err. rewrite E. repeat split. constructor.
    + assert (Hok : ok page) by (unfold ok; now rewrite E).
      destruct hasData.
      * exists [page]. cbn. split; [reflexivity |]. left. now repeat constructor.
      * destruct (IH left (sub page 1) lv (tr ++ [page])) as (new & Htr & H).
        exists (page :: new). rewrite Htr, <- app_assoc. split; [reflexivity |].
        destruct H as [Hall | Hab]; [left; now constructor |].
        right. now apply aborted_cons.
Qed.

(** What the loop over the channel makes of a round's two results. *)
Lemma collect_pair (swapped : bool) mid1 mid2 :
  let res1 := mkResult mid1 (fst (checker ctx mid1)) (snd (checker ctx mid1)) in
  let res2 := mkResult mid2 (fst (checker ctx mid2)) (snd (checker ctx mid2)) in
  match collect (if swapped then [res2; res1] else [res1; res2])
          mid1 mid2 false false with
  | inl e => exists q, In q [mid1; mid2] /\ snd (checker ctx q) = Some e
  | inr _ => ok mid1 /\ ok mid2
  end.
Proof.
  cbv zeta. unfold ok.
  destruct (snd (checker ctx mid1)) as [e1 |] eqn:E1;
    destruct (snd (checker ctx mid2)) as [e2 |] eqn:E2;
    destruct swapped; cbn; rewrite ?E1, ?E2; cbn.
  all: repeat match goal with
       | |- context [if ?c then _ else _] => destruct c; cbn; rewrite ?E1, ?E2; cbn
       end.
  all: try (exists mid1; split; [now left | assumption]).
  all: try (exists mid2; split; [right; now left | assumption]).
  all: auto.
Qed.

Lemma binarySearchConcurrent_loop_errors fuel :
  forall sched left right lastValidPage tr,
  exists new,
    snd (binarySearchConcurrent_loop fuel sched ctx checker left right lastValidPage tr)
    = tr ++ new /\
    (Forall ok new
     \/ aborted_round ctx checker (fun e => e) new
          (fst (binarySearchConcurrent_loop fuel sched ctx checker
                  left right lastValidPage tr))).
Proof.
  induction fuel as [| fuel IH]; intros sched left right lv tr;
    cbn [binarySearchConcurrent_loop].
  - exists []. cbn. rewrite app_nil_r. split; [reflexivity |]. left. constructor.
  - destruct (left <=? right).
    2:{ exists []. cbn. rewrite app_nil_r. split; [reflexivity |]. left. constructor. }
    destruct (ctx_Err ctx).
    { exists []. cbn. rewrite app_nil_r. split; [reflexivity |]. left. constructor. }
    destruct (sub right left <=? 3).
    { destruct (linearScan_errors fuel left right lv tr) as (new & Htr & H).
      exists new. split; [exact Htr |].
      destruct H as [H | H]; [now left | right; now apply aborted_is_round]. }
    set (mid1 := add left (div (sub right left) 3)).
    set (mid2 := add left (div (mul 2 (sub right left)) 3)).
    unfold bind, probePair. cbv zeta.
    set (pages := if calls_swapped (sched 0%nat) then [mid2; mid1] else [mid1; mid2]).
    assert (Hlen : (Datatypes.length pages <= 2)%nat)
      by (subst pages; destruct (calls_swapped _); cbn; lia).
    assert (Hin : forall q, In q [mid1; mid2] -> In q pages).
    { subst pages. intros q [<- | [<- | []]]; destruct (calls_swapped _); cbn; auto. }
    pose proof (collect_pair (delivery_swapped (sched 0%nat)) mid1 mid2) as Hc.
    cbv zeta in Hc. revert Hc.
    match goal with
    | |- context [collect ?l mid1 mid2 false false] =>
      generalize (collect l mid1 mid2 false false)
    end.
    intros [err | [m1 m2]] Hc.
    + destruct Hc as (q & Hq & He). exists pages. cbn. split; [reflexivity |]. right.
      exists [], pages, q, err. cbn. repeat split; auto.
    + destruct Hc as [Hok1 Hok2].
      assert (Hpages : Forall ok pages).
      { subst pages. destruct (calls_swapped _); repeat constructor; assumption. }
      assert (Hrec : forall l r v,
        exists new,
          snd (binarySearchConcurrent_loop fuel (next_round sched) ctx checker l r v
                 (tr ++ pages)) = tr ++ new /\
          (Forall ok new
           \/ aborted_round ctx checker (fun e => e) new
                (fst (binarySearchConcurrent_loop fuel (next_round sched) ctx checker
                        l r v (tr ++ pages))))).
      { intros l r v. destruct (IH (next_round sched) l r v (tr ++ pages))
          as (new & Htr & H).
        exists (pages ++ new). rewrite Htr, <- app_assoc. split; [reflexivity |].
        destruct H as [Hall | Hab]; [left; apply Forall_app; now split |].
        right. now apply aborted_round_app. }
      destruct m2; [| destruct m1]; apply Hrec.
Qed.

End ConcurrentErrors.

Lemma FindTotalPagesConcurrent_errors fuel sched ctx checker maxPage :
  Forall (fun p => snd (checker ctx p) = None)
    (trace_of (FindTotalPagesConcurrent fuel sched ctx checker maxPage))
  \/ exists prefix,
       In prefix [msgPage1; msgUpperBound; msgBinarySearch]
       /\ aborted_round ctx checker (Wrapf prefix)
            (trace_of (FindTotalPagesConcurrent fuel sched ctx checker maxPage))
            (result_of (FindTotalPagesConcurrent fuel sched ctx checker maxPage)).
Proof.
  unfold trace_of, result_of, run. rewrite FindTotalPagesConcurrent_unfold. cbn zeta.
  generalize (normalize maxPage). intros m. cbn [app].
  destruct (checker ctx 1) as [hasData [err |]] eqn:E1.
  { right. exists msgPage1. split; [now left |].
    destruct hasData; exists [], [1], 1, err; rewrite E1; cbn; repeat split; auto. }
  assert (Hok1 : snd (checker ctx 1) = None) by now rewrite E1.
  destruct hasData; [| left; now repeat constructor].
  unfold findUpperBound.
  destruct (findUpperBound_loop_errors ctx checker fuel m 1 [1]) as (new & Htr & H).
  destruct (findUpperBound_loop fuel ctx checker m 1 [1]) as [[[ub uerr] |] tr1];
    cbn [fst snd] in *; subst tr1.
  2:{ destruct H as [[Hall _] | (pre & p & e & _ & _ & _ & [=])].
      left. now constructor. }
  destruct uerr as [uerr |].
  { destruct H as [[_ Hres] | Hab]; [now elim (Hres ub uerr) |].
    right. exists msgUpperBound. split; [right; now left |]. cbn [fst snd].
    apply (aborted_round_cons ctx checker _ 1 new _ Hok1).
    apply aborted_round_rewrap with (v := ub). now apply aborted_is_round. }
  destruct H as [[Hall _] | (pre & p & e & _ & _ & _ & [=])].
  destruct (ub =? m); [left; now constructor |].
  unfold binarySearchConcurrent.
  destruct (binarySearchConcurrent_loop_errors ctx checker fuel sched
              (div ub 2) ub (div ub 2) ([1] ++ new)) as (new2 & Htr2 & H2).
  destruct (binarySearchConcurrent_loop fuel sched ctx checker
              (div ub 2) ub (div ub 2) ([1] ++ new))
    as [[[lp lerr] |] tr2]; cbn [fst snd] in *; subst tr2.
  2:{ destruct H2 as [Hall2 | (pre & last & q & e & _ & _ & _ & _ & _ & [=])].
      left. cbn. constructor; [exact Hok1 |]. apply Forall_app. now split. }
  assert (Hpre : Forall (fun p => snd (checker ctx p) = None) ([1] ++ new))
    by (cbn; now constructor).
  destruct H2 as [Hall2 | Hab].
  { left. destruct lerr; cbn [fst snd]; apply Forall_app; now split. }
  destruct lerr as [lerr |];
    [| destruct Hab as (pre & last & q & e & _ & _ & _ & _ & _ & [=])].
  right. exists msgBinarySearch. split; [right; right; now left |]. cbn [fst snd].
  apply aborted_round_app; [exact Hpre |].
  now apply aborted_round_rewrap with (v := lp).
Qed.

(** Both probes of the first round (pages 341 and 426) fail: the finder
    returns the error that was delivered first. *)
Example round_returns_first_delivered_error :
  let flaky : PageChecker :=
    fun _ p =>
      if p =? 341 then (false, Some (ErrorString "341"))
      else if p =? 426 then (false, Some (ErrorString "426"))
      else (p <=? 300, None) in
  run (FindTotalPagesConcurrent 70 in_order Background flaky 10000)
  = (Some (0, Some (Wrapf msgBinarySearch (ErrorString "341"))),
     [1; 2; 4; 8; 16; 32; 64; 128; 256; 512; 341; 426])
  /\ run (FindTotalPagesConcurrent 70 (fun _ => mkInterleaving true true)
            Background flaky 10000)
     = (Some (0, Some (Wrapf msgBinarySearch (ErrorString "426"))),
        [1; 2; 4; 8; 16; 32; 64; 128; 256; 512; 426; 341]).
Proof. vm_compute. split; reflexivity. Qed.

(** ** Scheduling *)

Lemma wrap_eq_iff a b : wrap a = wrap b <-> (a - b) mod 2 ^ 64 = 0.
Proof.
  unfold wrap. split; intros H.
  - assert (E : (a + 2 ^ 63) mod 2 ^ 64 = (b + 2 ^ 63) mod 2 ^ 64) by lia.
    replace (a - b) with ((a + 2 ^ 63) - (b + 2 ^ 63)) by lia.
    rewrite Zminus_mod, E, Z.sub_diag. reflexivity.
  - f_equal.
    replace (a + 2 ^ 63) with ((b + 2 ^ 63) + (a - b)) by lia.
    rewrite Zplus_mod, H, Z.add_0_r, Z.mod_mod by lia. reflexivity.
Qed.

Lemma mids_differ left right :
  (sub right left <=? 3) = false ->
  add left (div (sub right left) 3) <> add left (div (mul 2 (sub right left)) 3).
Proof.
  intros Hd. apply Z.leb_gt in Hd.
  pose proof (wrap_in_int (right - left)) as Hin.
  unfold sub in *. set (d := wrap (right - left)) in *.
  unfold add. intros E. apply wrap_eq_iff in E.
  replace (left + div d 3 - (left + div (mul 2 d) 3))
    with (div d 3 - div (mul 2 d) 3) in E by lia.
  assert (Hq : in_int (Z.quot d 3)).
  { unfold in_int, int_min, int_max in *. split.
    - pose proof (Z.quot_pos d 3 ltac:(lia) ltac:(lia)). lia.
    - pose proof (Z.quot_le_upper_bound d 3 (2 ^ 63 - 1) ltac:(lia) ltac:(lia)). lia. }
  unfold div in E. rewrite (wrap_id _ Hq) in E.
  pose proof (wrap_in_int (2 * d)) as Hm. unfold mul in E.
  set (m := wrap (2 * d)) in *.
  assert (Hq2 : in_int (Z.quot m 3)).
  { unfold in_int, int_min, int_max in *.
    Z.to_euclidean_division_equations; lia. }
  rewrite (wrap_id _ Hq2) in E.
  assert (Hne : Z.quot d 3 <> Z.quot m 3).
  { subst m. unfold wrap. unfold in_int, int_min, int_max in *.
    Z.to_euclidean_division_equations; lia. }
  assert (Hsmall : - 2 ^ 64 < Z.quot d 3 - Z.quot m 3 < 2 ^ 64).
  { unfold in_int, int_min, int_max in *. lia. }
  apply Z.mod_divide in E; [| lia]. destruct E as [k Hk]. lia.
Qed.

Section Sched.

Variables (ctx : Context) (checker : PageChecker).

Lemma linearScan_param (fuel : nat) : forall left page lv tr,
  linearScan fuel ctx checker left page lv tr
  = (fst (linearScan fuel ctx checker left page lv []),
     tr ++ snd (linearScan fuel ctx checker left page lv [])).
Proof.
  induction fuel as [| fuel IH]; intros left page lv tr; cbn [linearScan].
  - unfold out_of_fuel. cbn. now rewrite app_nil_r.
  - destruct (page >=? left).
    + unfold bind, call. cbn [fst snd].
      destruct (snd (checker ctx page)); [unfold ret; cbn; reflexivity |].
      destruct (fst (checker ctx page)); [unfold ret; cbn; reflexivity |].
      rewrite (IH _ _ _ (tr ++ [page])), (IH _ _ _ ([] ++ [page])). cbn.
      now rewrite <- app_assoc.
    + unfold ret. cbn. now rewrite app_nil_r.
Qed.

Lemma collect_any_order (b b' : bool) mid1 mid2 :
  mid1 <> mid2 ->
  let res1 := mkResult mid1 (fst (checker ctx mid1)) (snd (checker ctx mid1)) in
  let res2 := mkResult mid2 (fst (checker ctx mid2)) (snd (checker ctx mid2)) in
  match collect (if b then [res2; res1] else [res1; res2]) mid1 mid2 false false,
        collect (if b' then [res2; res1] else [res1; res2]) mid1 mid2 false false with
  | inl _, inl _ => True
  | inr f, inr f' => f = f'
  | _, _ => False
  end.
Proof.
  intros Hne. cbv zeta.
  assert (N1 : (mid2 =? mid1) = false) by (apply Z.eqb_neq; congruence).
  destruct (snd (checker ctx mid1)) as [e1 |] eqn:E1;
    destruct (snd (checker ctx mid2)) as [e2 |] eqn:E2;
    destruct b, b'; cbn; rewrite ?E1, ?E2, ?Z.eqb_refl, ?N1; cbn;
    rewrite ?E1, ?E2, ?Z.eqb_refl, ?N1; cbn; auto.
Qed.

Lemma same_outcome_refl r : same_outcome r r.
Proof. destruct r as [[v e] |]; cbn; tauto. Qed.

Lemma binarySearchConcurrent_loop_sched (fuel : nat) :
  forall sched sched' left right lv tr tr',
  Permutation tr tr' ->
  same_outcome
    (fst (binarySearchConcurrent_loop fuel sched ctx checker left right lv tr))
    (fst (binarySearchConcurrent_loop fuel sched' ctx checker left right lv tr'))
  /\ Permutation
       (snd (binarySearchConcurrent_loop fuel sched ctx checker left right lv tr))
       (snd (binarySearchConcurrent_loop fuel sched' ctx checker left right lv tr')).
Proof.
  induction fuel as [| fuel IH]; intros sched sched' left right lv tr tr' Hp;
    cbn [binarySearchConcurrent_loop].
  - cbn. now split.
  - destruct (left <=? right); [| cbn; now split].
    destruct (ctx_Err ctx); [cbn; tauto |].
    destruct (sub right left <=? 3) eqn:Ed.
    + rewrite (linearScan_param fuel left right lv tr),
        (linearScan_param fuel left right lv tr'). cbn [fst snd].
      split; [apply same_outcome_refl | now apply Permutation_app_tail].
    + pose proof (mids_differ left right Ed) as Hne.
      set (mid1 := add left (div (sub right left) 3)) in *.
      set (mid2 := add left (div (mul 2 (sub right left)) 3)) in *.
      unfold bind, probePair. cbv zeta.
      pose proof (collect_any_order (delivery_swapped (sched O))
                    (delivery_swapped (sched' O)) mid1 mid2 Hne) as Hc.
      cbv zeta in Hc.
      assert (Hp' : Permutation
                (tr ++ (if calls_swapped (sched O) then [mid2; mid1] else [mid1; mid2]))
                (tr' ++ (if calls_swapped (sched' O) then [mid2; mid1] else [mid1; mid2]))).
      { apply Permutation_app; [exact Hp |].
        destruct (calls_swapped (sched O)), (calls_swapped (sched' O));
          first [apply Permutation_refl | apply perm_swap]. }
      destruct (collect (if delivery_swapped (sched O) then _ else _) mid1 mid2 false false)
        as [e | [m1 m2]];
        destruct (collect (if delivery_swapped (sched' O) then _ else _) mid1 mid2 false false)
        as [e' | [m1' m2']]; try contradiction.
      * cbn. split; [| exact Hp']. split; [reflexivity | split; discriminate].
      * injection Hc as <- <-.
        destruct m2; [| destruct m1]; apply IH; exact Hp'.
Qed.

End Sched.

(** X21. The interleaving of the two goroutines of a ternary round does
    not change what the concurrent finder computes.  For every probe,
    context, ceiling and loop budget, two runs under different schedules
    either both exhaust the budget or both return, with the same value and
    with an error in the one exactly when there is an error in the other
    (so the results are equal when there is no error); and both runs probe
    the same pages, the same number of times. *)
Theorem schedule_decides_only_the_reported_error
  (fuel : nat) (sched sched' : Schedule) (ctx : Context) (checker : PageChecker)
  (maxPage : Z) :
  same_outcome (result_of (FindTotalPagesConcurrent fuel sched ctx checker maxPage))
    (result_of (FindTotalPagesConcurrent fuel sched' ctx checker maxPage))
  /\ Permutation (trace_of (FindTotalPagesConcurrent fuel sched ctx checker maxPage))
       (trace_of (FindTotalPagesConcurrent fuel sched' ctx checker maxPage)).
Proof.
  unfold result_of, trace_of, run.
  rewrite !FindTotalPagesConcurrent_unfold. cbv zeta.
  destruct (checker ctx 1) as [[|] [err |]];
    try (cbn; split; [tauto || (split; [reflexivity | split; discriminate]) | reflexivity]).
  destruct (findUpperBound fuel ctx checker _ _) as [[[ub [err |]] |] tr1];
    try (cbn; split; [tauto || (split; [reflexivity | split; discriminate]) | reflexivity]).
  destruct (ub =? normalize maxPage);
    [cbn; split; [tauto | reflexivity] |].
  unfold binarySearchConcurrent.
  destruct (binarySearchConcurrent_loop_sched ctx checker fuel sched sched'
              (div ub 2) ub (div ub 2) tr1 tr1 (Permutation_refl _)) as [Ho Hp].
  destruct (binarySearchConcurrent_loop fuel sched ctx checker _ _ _ tr1)
    as [[[lp [e |]] |] t2];
    destruct (binarySearchConcurrent_loop fuel sched' ctx checker _ _ _ tr1)
    as [[[lp' [e' |]] |] t2']; cbn in Ho, Hp |- *;
    try contradiction; (split; [| exact Hp]); try tauto.
  - split; [reflexivity | split; discriminate].
  - destruct Ho as [_ [_ H]]. now specialize (H eq_refl).
  - destruct Ho as [_ [H _]]. now specialize (H eq_refl).
Qed.

(** * The entity page checkers *)

(** ** The finders see the probe only through its answers *)

Section Extensionality.

Variables (ctx : Context) (checker checker' : PageChecker).
Hypothesis Hsame : forall p, checker ctx p = checker' ctx p.

Lemma findUpperBound_loop_ext fuel maxPage : forall page tr,
  findUpperBound_loop fuel ctx checker maxPage page tr
  = findUpperBound_loop fuel ctx checker' maxPage page tr.
Proof.
  induction fuel as [| fuel IH]; intros page tr; cbn [findUpperBound_loop];
    [reflexivity |].
  destruct (page <? maxPage); [| reflexivity].
  unfold bind, call. rewrite Hsame.
  destruct (snd (checker' ctx _)); [reflexivity |].
  destruct (negb (fst (checker' ctx _))); [reflexivity | apply IH].
Qed.

Lemma binarySearch_loop_ext fuel : forall left right lastValidPage tr,
  binarySearch_loop fuel ctx checker left right lastValidPage tr
  = binarySearch_loop fuel ctx checker' left right lastValidPage tr.
Proof.
  induction fuel as [| fuel IH]; intros left right lv tr; cbn [binarySearch_loop];
    [reflexivity |].
  destruct (left <=? right); [| reflexivity].
  destruct (ctx_Err ctx); [reflexivity |].
  unfold bind, call. rewrite Hsame.
  destruct (snd (checker' ctx _)); [reflexivity |].
  destruct (fst (checker' ctx _)); apply IH.
Qed.

Lemma linearScan_ext fuel : forall left page lastValidPage tr,
  linearScan fuel ctx checker left page lastValidPage tr
  = linearScan fuel ctx checker' left page lastValidPage tr.
Proof.
  induction fuel as [| fuel IH]; intros left page lv tr; cbn [linearScan];
    [reflexivity |].
  destruct (page >=? left); [| reflexivity].
  unfold bind, call. rewrite Hsame.
  destruct (snd (checker' ctx _)); [reflexivity |].
  destruct (fst (checker' ctx _)); [reflexivity | apply IH].
Qed.

Lemma binarySearchConcurrent_loop_ext fuel : forall sched left right lastValidPage tr,
  binarySearchConcurrent_loop fuel sched ctx checker left right lastValidPage tr
  = binarySearchConcurrent_loop fuel sched ctx checker' left right lastValidPage tr.
Proof.
  induction fuel as [| fuel IH]; intros sched left right lv tr;
    cbn [binarySearchConcurrent_loop]; [reflexivity |].
  destruct (left <=? right); [| reflexivity].
  destruct (ctx_Err ctx); [reflexivity |].
  destruct (sub right left <=? 3); [apply linearScan_ext |].
  unfold bind, probePair. cbv zeta. rewrite !Hsame.
  destruct (collect _ _ _ false false) as [err | [m1 m2]]; [reflexivity |].
  destruct m2; [| destruct m1]; apply IH.
Qed.

Lemma finders_ext fuel sched maxPage :
  run (FindTotalPages fuel ctx checker maxPage)
  = run (FindTotalPages fuel ctx checker' maxPage)
  /\ run (FindTotalPagesConcurrent fuel sched ctx checker maxPage)
     = run (FindTotalPagesConcurrent fuel sched ctx checker' maxPage).
Proof.
  unfold run. rewrite !FindTotalPages_unfold, !FindTotalPagesConcurrent_unfold.
  cbv zeta. unfold findUpperBound, binarySearch, binarySearchConcurrent.
  rewrite Hsame.
  destruct (checker' ctx 1) as [[|] [err |]]; try (split; reflexivity).
  rewrite findUpperBound_loop_ext.
  destruct (findUpperBound_loop fuel ctx checker' _ 1 _) as [[[ub [err |]] |] tr1];
    try (split; reflexivity).
  destruct (ub =? normalize maxPage); [split; reflexivity |].
  rewrite binarySearch_loop_ext, binarySearchConcurrent_loop_ext.
  split; reflexivity.
Qed.

End Extensionality.

(** ** What the entity checkers send *)

(** X9. The page counts found over the leads and tasks page checkers do
    not depend on the [Limit] and [Page] of the caller's filter (nor, for
    tasks, on its [Filter] and [Order]): the checkers always ask for
    [limit=1] and the probed page, so a run of either finder is the same
    whatever those fields hold. *)
Theorem entity_checkers_ignore_limit_and_page
  (Lead Task Any : Type)
  (getLeads : Context -> string -> LeadsResponse Lead * option error)
  (getTasks : Context -> string -> TasksResponse Task * option error)
  (lf : LeadsFilter) (tf : TasksFilter Any)
  (limit page : Z) (flt : option (string -> option Any)) (order : string)
  (fuel : nat) (sched : Schedule) (ctx : Context) (maxPage : Z) :
  let lf' := mkLeadsFilter (lf_Query lf) limit page (lf_With lf) (lf_Order lf)
               (lf_StatusID lf) (lf_PipelineID lf) (lf_UpdatedAt lf) in
  let tf' := mkTasksFilter Any limit page flt order
               (tf_ResponsibleUserID Any tf) (tf_IsCompleted Any tf) in
  (run (FindTotalPages fuel ctx (CreateLeadsPageChecker getLeads (Some lf')) maxPage)
   = run (FindTotalPages fuel ctx (CreateLeadsPageChecker getLeads (Some lf)) maxPage)
   /\ run (FindTotalPagesConcurrent fuel sched ctx
             (CreateLeadsPageChecker getLeads (Some lf')) maxPage)
      = run (FindTotalPagesConcurrent fuel sched ctx
               (CreateLeadsPageChecker getLeads (Some lf)) maxPage))
  /\ (run (FindTotalPages fuel ctx (CreateTasksPageChecker getTasks (Some tf')) maxPage)
      = run (FindTotalPages fuel ctx (CreateTasksPageChecker getTasks (Some tf)) maxPage)
      /\ run (FindTotalPagesConcurrent fuel sched ctx
                (CreateTasksPageChecker getTasks (Some tf')) maxPage)
         = run (FindTotalPagesConcurrent fuel sched ctx
                  (CreateTasksPageChecker getTasks (Some tf)) maxPage)).
Proof.
  intros lf' tf'. split; apply finders_ext; intros p; reflexivity.
Qed.

(** X10. The leads and tasks page checkers give one and the same answer
    for all non-positive pages: the listing endpoints send the [page]
    parameter only when it is positive, so the probe of a page [p <= 0] is
    the request without a page. *)
Theorem nonpositive_pages_share_one_request
  (Lead Task Any : Type)
  (getLeads : Context -> string -> LeadsResponse Lead * option error)
  (getTasks : Context -> string -> TasksResponse Task * option error)
  (lf : option LeadsFilter) (tf : option (TasksFilter Any))
  (ctx : Context) (p p' : Z) :
  p <= 0 -> p' <= 0 ->
  CreateLeadsPageChecker getLeads lf ctx p = CreateLeadsPageChecker getLeads lf ctx p'
  /\ CreateTasksPageChecker getTasks tf ctx p = CreateTasksPageChecker getTasks tf ctx p'.
Proof.
  intros Hp Hp'.
  assert (H : (p >? 0) = false) by (rewrite Z.gtb_ltb; apply Z.ltb_ge; lia).
  assert (H' : (p' >? 0) = false) by (rewrite Z.gtb_ltb; apply Z.ltb_ge; lia).
  unfold CreateLeadsPageChecker, CreateTasksPageChecker, CreatePageChecker,
    LeadsService_ListWithResponse, TasksService_ListWithResponse, leadsPath, tasksPath.
  split.
  - destruct lf as [g |]; cbn [lf_Page lf_Limit lf_Query lf_With lf_Order lf_StatusID
                                 lf_PipelineID lf_UpdatedAt]; rewrite H, H'; reflexivity.
  - destruct tf as [g |]; cbn [tf_Page tf_Limit tf_ResponsibleUserID tf_IsCompleted];
      rewrite H, H'; reflexivity.
Qed.

Lemma nonpositive_pages_share_one_request_witness :
  CreateLeadsPageChecker echoLeads None Background 0
  = CreateLeadsPageChecker echoLeads None Background (-5)
  /\ CreateTasksPageChecker echoTasks (@None (TasksFilter unit)) Background 0
     = CreateTasksPageChecker echoTasks (@None (TasksFilter unit)) Background (-5).
Proof.
  apply (nonpositive_pages_share_one_request unit unit unit echoLeads echoTasks
           None None Background 0 (-5)); lia.
Defined.

(** ** The request path names the page *)

Lemma string_app_assoc (a b c : string) :
  ((a ++ b) ++ c = a ++ (b ++ c))%string.
Proof. induction a as [| ch a IH]; cbn; [reflexivity | now rewrite IH]. Qed.

Lemma string_length_app (a b : string) :
  String.length (a ++ b) = (String.length a + String.length b)%nat.
Proof. induction a as [| ch a IH]; cbn; [reflexivity | now rewrite IH]. Qed.

Lemma string_app_inv_head (a x y : string) :
  (a ++ x = a ++ y)%string -> x = y.
Proof.
  induction a as [| ch a IH]; cbn; intros H; [exact H |].
  injection H as H. now apply IH.
Qed.

Lemma string_app_inv_tail (b : string) : forall x y : string,
  (x ++ b = y ++ b)%string -> x = y.
Proof.
  induction x as [| cx x IH]; intros [| cy y] H; cbn in H.
  - reflexivity.
  - apply (f_equal String.length) in H. cbn in H.
    rewrite string_length_app in H. lia.
  - apply (f_equal String.length) in H. cbn in H.
    rewrite string_length_app in H. lia.
  - injection H as Hc H. subst cy. f_equal. now apply IH.
Qed.

Lemma itoa_inj (n n' : Z) : itoa n = itoa n' -> n = n'.
Proof.
  unfold itoa. intros H.
  assert (Hnil : forall z, Z.to_int z <> Decimal.Pos Decimal.Nil
                           /\ Z.to_int z <> Decimal.Neg Decimal.Nil).
  { intros [| q | q]; cbn; split; try discriminate;
      intros E; injection E as E; now apply DecimalPos.Unsigned.to_uint_nonnil in E. }
  apply (f_equal NilZero.int_of_string) in H.
  rewrite !NilZero.isi in H by apply Hnil.
  injection H as H. now apply DecimalZ.to_int_inj.
Qed.

Lemma fold_left_app_inv_tail (g : Z -> string) (l : list Z) : forall a b : string,
  fold_left (fun path x => (path ++ g x)%string) l a
  = fold_left (fun path x => (path ++ g x)%string) l b -> a = b.
Proof.
  induction l as [| x l IH]; cbn; intros a b H; [exact H |].
  apply IH in H. now apply string_app_inv_tail in H.
Qed.

Ltac strip_tail H :=
  repeat first
    [ apply string_app_inv_tail in H
    | apply fold_left_app_inv_tail in H ].

(** X11. Two listing requests that differ only in a positive [Page] have
    different paths, for leads and for tasks: whatever the other fields of
    the filter are, the path tells the page that is asked for.  In
    particular the probes of two different pages by the leads and tasks
    page checkers (which set [Limit] to 1) are different requests. *)
Theorem request_path_names_the_page
  (Any : Type) (lf : LeadsFilter) (tf : TasksFilter Any) (p p' : Z) :
  0 < p -> 0 < p' -> p <> p' ->
  leadsPath (Some (mkLeadsFilter (lf_Query lf) (lf_Limit lf) p (lf_With lf)
                     (lf_Order lf) (lf_StatusID lf) (lf_PipelineID lf)
                     (lf_UpdatedAt lf)))
  <> leadsPath (Some (mkLeadsFilter (lf_Query lf) (lf_Limit lf) p' (lf_With lf)
                        (lf_Order lf) (lf_StatusID lf) (lf_PipelineID lf)
                        (lf_UpdatedAt lf)))
  /\ tasksPath (Some (mkTasksFilter Any (tf_Limit Any tf) p (tf_Filter Any tf)
                        (tf_Order Any tf) (tf_ResponsibleUserID Any tf)
                        (tf_IsCompleted Any tf)))
     <> tasksPath (Some (mkTasksFilter Any (tf_Limit Any tf) p' (tf_Filter Any tf)
                           (tf_Order Any tf) (tf_ResponsibleUserID Any tf)
                           (tf_IsCompleted Any tf))).
Proof.
  intros Hp Hp' Hne.
  assert (G : (p >? 0) = true) by (rewrite Z.gtb_ltb; apply Z.ltb_lt; lia).
  assert (G' : (p' >? 0) = true) by (rewrite Z.gtb_ltb; apply Z.ltb_lt; lia).
  assert (Hpage : forall a : string,
             (a ++ ("page=" ++ itoa p ++ "&") = a ++ ("page=" ++ itoa p' ++ "&"))%string
             -> False).
  { intros a H. apply string_app_inv_head in H.
    apply (string_app_inv_head "page=") in H.
    apply string_app_inv_tail in H. now apply itoa_inj in H. }
  split; intros H.
  - unfold leadsPath in H.
    cbn [lf_Query lf_Limit lf_Page lf_With lf_Order lf_StatusID lf_PipelineID
         lf_UpdatedAt] in H.
    rewrite G, G' in H. cbv zeta in H.
    destruct (lf_UpdatedAt lf) as [updatedAt |];
      [destruct (updatedAt "to"%string); destruct (updatedAt "from"%string) |];
      destruct (lf_PipelineID lf >? 0);
      destruct (negb (String.eqb (lf_Order lf) ""));
      destruct (negb (String.eqb (lf_With lf) ""));
      strip_tail H; exact (Hpage _ H).
  - unfold tasksPath in H.
    cbn [tf_Limit tf_Page tf_ResponsibleUserID tf_IsCompleted] in H.
    rewrite G, G' in H. cbv zeta in H.
    destruct (tf_IsCompleted Any tf) as [[|] |];
      destruct (tf_ResponsibleUserID Any tf >? 0);
      strip_tail H; exact (Hpage _ H).
Qed.

Lemma request_path_names_the_page_witness :
  leadsPath (Some (mkLeadsFilter "vip" 50 3 "contacts" "id" [142; 143] 7 None))
  <> leadsPath (Some (mkLeadsFilter "vip" 50 30 "contacts" "id" [142; 143] 7 None))
  /\ tasksPath (Some (mkTasksFilter unit 50 3 None "id" 9 (Some true)))
     <> tasksPath (Some (mkTasksFilter unit 50 30 None "id" 9 (Some true))).
Proof.
  apply (request_path_names_the_page unit
           (mkLeadsFilter "vip" 50 0 "contacts" "id" [142; 143] 7 None)
           (mkTasksFilter unit 50 0 None "id" 9 (Some true)) 3 30); lia.
Defined.

(** * The client: authentication and the request loop *)

Section ClientProperties.

Variable World : Type.
Variable rt : Runtime World.

Lemma unlocked_mutex (c : Client World) :
  unlocked c -> tokenMu c = mkRWMutex 0 false.
Proof.
  destruct c as [? ? ? ? ? ? ? ? [r wr] ?]; intros [H1 H2]; cbn in *; now subst.
Qed.

(** [addAuth] on a free mutex, branch by branch. *)
Lemma addAuth_unlocked (ctx : Context) (req : Request) (c : Client World) (w : World) :
  unlocked c ->
  Client_addAuth rt ctx req (c, w) =
  if authType c =? AuthTypePermanentToken then
    Returns ((Request_Header_Set "Authorization" ("Bearer " ++ permanentToken c) req,
              None), (c, w))
  else if authType c =? AuthTypeOAuth2 then
    match currentToken c with
    | None => Returns ((req, Some (ErrorString "no OAuth2 token available")), (c, w))
    | Some tok =>
      if Token_IsExpired (time_Now rt w) tok
      then Fatal "sync: RUnlock of unlocked RWMutex"
      else Returns ((Request_Header_Set "Authorization"
                       ("Bearer " ++ AccessToken tok) req, None), (c, w))
    end
  else Returns ((req, Some (ErrorString "no authentication method configured")), (c, w)).
Proof.
  intros Hu. apply unlocked_mutex in Hu.
  destruct c as [sd dm bu au pt oc ts ct mu dbg]; cbn in Hu; subst mu.
  unfold Client_addAuth, abind, getClient, RLock, RUnlock, Now; cbn.
  destruct (au =? AuthTypePermanentToken); [reflexivity |].
  destruct (au =? AuthTypeOAuth2); [| reflexivity].
  destruct ct as [tok |]; [| reflexivity].
  destruct (Token_IsExpired (time_Now rt w) tok) eqn:E; cbn; rewrite E; cbn;
    reflexivity.
Qed.

Lemma set_currentToken_same (c : Client World) :
  set_currentToken (currentToken c) c = c.
Proof. now destruct c. Qed.

(** [refreshToken] on a free mutex: the mutex is free again on every
    return, an error leaves the client as it was, and a success replaces
    the token and nothing else. *)
Lemma refreshToken_unlocked (ctx : Context) (c : Client World) (w : World) :
  unlocked c ->
  match Client_refreshToken rt ctx (c, w) with
  | Returns (err, (c', w')) =>
    match err with
    | Some _ => c' = c
    | None =>
      exists cur req tok,
        currentToken c = Some cur /\ RefreshToken cur <> EmptyString
        /\ req_Method req = "POST"%string
        /\ req_URL req
           = ("https://" ++ subdomain c ++ "." ++ domain c ++ "/oauth2/access_token")%string
        /\ fst (httpClient_Do rt req w)
           = (mkResponse 200 (resp_Body (fst (fst (httpClient_Do rt req w)))), None)
        /\ json_Decode_Token rt (resp_Body (fst (fst (httpClient_Do rt req w))))
           = (mkToken (AccessToken tok) (RefreshToken tok) (TokenType tok)
                (ExpiresIn tok)
                (ExpiresAt (fst (json_Decode_Token rt
                                   (resp_Body (fst (fst (httpClient_Do rt req w))))))),
              None)
        /\ ExpiresAt tok
           = time_Now rt (snd (httpClient_Do rt req w)) + mul (ExpiresIn tok) Second
        /\ c' = set_currentToken (Some tok) c
    end
  | Panics _ => oauth2Config c = None
  | Fatal _ | Blocked | Unfinished => False
  end.
Proof.
  intros Hu. apply unlocked_mutex in Hu.
  destruct c as [sd dm bu au pt oc ts ct mu dbg]; cbn in Hu; subst mu.
  unfold Client_refreshToken, refreshToken_locked, abind, getClient, Lock, Unlock,
    Now, world, world_, aret, panic; cbn.
  destruct ct as [cur |]; cbn; [| reflexivity].
  destruct (String.eqb_spec (RefreshToken cur) EmptyString); cbn; [reflexivity |].
  destruct oc as [cfg |]; cbn; [| reflexivity].
  destruct (http_NewRequestWithContext rt ctx _ _); cbn; [reflexivity |].
  match goal with |- context [httpClient_Do rt ?r w] =>
    set (req := r);
    destruct (httpClient_Do rt req w) as [[resp [err |]] w1] eqn:Edo end;
    cbn; [reflexivity |].
  destruct (Z.eqb_spec (resp_StatusCode resp) 200) as [E200 |]; cbn; [| reflexivity].
  destruct (json_Decode_Token rt (resp_Body resp)) as [d [err |]] eqn:Ed; cbn;
    [reflexivity |].
  assert (G : exists cur0 req0 tok,
    Some cur = Some cur0 /\ RefreshToken cur0 <> EmptyString
    /\ req_Method req0 = "POST"%string
    /\ req_URL req0 = ("https://" ++ sd ++ "." ++ dm ++ "/oauth2/access_token")%string
    /\ fst (httpClient_Do rt req0 w)
       = (mkResponse 200 (resp_Body (fst (fst (httpClient_Do rt req0 w)))), None)
    /\ json_Decode_Token rt (resp_Body (fst (fst (httpClient_Do rt req0 w))))
       = (mkToken (AccessToken tok) (RefreshToken tok) (TokenType tok)
            (ExpiresIn tok)
            (ExpiresAt (fst (json_Decode_Token rt
                               (resp_Body (fst (fst (httpClient_Do rt req0 w))))))),
          None)
    /\ ExpiresAt tok
       = time_Now rt (snd (httpClient_Do rt req0 w)) + mul (ExpiresIn tok) Second
    /\ mkClient sd dm bu au pt (Some cfg) ts
         (Some (mkToken (AccessToken d) (RefreshToken d) (TokenType d) (ExpiresIn d)
                  (time_Now rt w1 + mul (ExpiresIn d) Second)))
         (mkRWMutex 0 false) dbg
       = set_currentToken (Some tok)
           (mkClient sd dm bu au pt (Some cfg) ts (Some cur) (mkRWMutex 0 false) dbg)).
  { exists cur, req,
      (mkToken (AccessToken d) (RefreshToken d) (TokenType d) (ExpiresIn d)
         (time_Now rt w1 + mul (ExpiresIn d) Second)).
    rewrite Edo. cbn. rewrite Ed. cbn.
    destruct resp as [sc body]; cbn in *; subst sc. destruct d; cbn.
    repeat (split; [first [reflexivity | assumption] |]). reflexivity. }
  destruct ts as [save |]; cbn; [destruct (save ctx _ _ w1) as [[e |] w2]; cbn |];
    exact G.
Qed.

Lemma abind_Returns {A B} (m : Act World A) (k : A -> Act World B) s r :
  abind m k s = Returns r ->
  exists a s1, m s = Returns (a, s1) /\ k a s1 = Returns r.
Proof.
  unfold abind. destruct (m s) as [[a s1] | | | |]; try discriminate.
  intros H. now exists a, s1.
Qed.

Lemma abind_eq {A B} (m : Act World A) (k : A -> Act World B) s a s1 :
  m s = Returns (a, s1) -> abind m k s = k a s1.
Proof. unfold abind. now intros ->. Qed.

Lemma abind_Fatal {A B} (m : Act World A) (k : A -> Act World B) s msg :
  m s = Fatal msg -> abind m k s = Fatal msg.
Proof. unfold abind. now intros ->. Qed.

(** What [do] returns: a response below 400 and no error, or no response
    and one of its own errors. *)
Lemma do_result fuel : forall ctx method path s r st',
  Client_do rt fuel ctx method path s = Returns (r, st') ->
  match r with
  | (Some resp, None) => resp_StatusCode resp < 400
  | (None, Some e) => do_error e
  | _ => False
  end.
Proof.
  assert (W : forall prefix inner,
             In prefix ["rate limiter error: "; "invalid URL: ";
                        "failed to create request: "; "authentication error: ";
                        "request failed: "; "token refresh failed: "]%string ->
             do_error (inl (Wrapf prefix inner))).
  { intros prefix inner Hin. now exists prefix, inner. }
  induction fuel as [| fuel IH]; intros ctx method path s r st' H; [discriminate |].
  cbn [Client_do] in H.
  apply abind_Returns in H as (err & s1 & _ & H).
  destruct err as [e |]; [injection H as <- _; apply W; cbn; tauto |].
  apply abind_Returns in H as (c & s2 & _ & H).
  destruct (snd (url_Parse rt _)) as [e |]; [injection H as <- _; apply W; cbn; tauto |].
  destruct (http_NewRequestWithContext rt ctx method _) as [e |];
    [injection H as <- _; apply W; cbn; tauto |].
  apply abind_Returns in H as (a & s3 & _ & H).
  destruct (snd a) as [e |]; [injection H as <- _; apply W; cbn; tauto |].
  apply abind_Returns in H as (u1 & s4 & _ & H).
  apply abind_Returns in H as (r1 & s5 & _ & H).
  destruct (snd r1) as [e |]; [injection H as <- _; apply W; cbn; tauto |].
  apply abind_Returns in H as (u2 & s6 & _ & H).
  apply abind_Returns in H as (c2 & s7 & _ & H).
  destruct ((resp_StatusCode (fst r1) =? 401) && (authType c2 =? AuthTypeOAuth2)).
  - apply abind_Returns in H as (err & s8 & _ & H).
    destruct err as [e |]; [injection H as <- _; apply W; cbn; tauto |].
    now apply IH in H.
  - destruct (resp_StatusCode (fst r1) >=? 400) eqn:E; injection H as <- _.
    + cbn. rewrite Z.geb_leb in E. now apply Z.leb_le in E.
    + rewrite Z.geb_leb in E. now apply Z.leb_gt in E.
Qed.

(** [refreshToken] when nothing fails. *)
Lemma refreshToken_succeeds (ctx : Context) (c : Client World) (w : World)
  (cur : Token) :
  always_unauthorized rt ctx c ->
  unlocked c -> currentToken c = Some cur -> RefreshToken cur <> EmptyString ->
  oauth2Config c <> None ->
  exists tok w',
    Client_refreshToken rt ctx (c, w)
    = Returns (None, (set_currentToken (Some tok) c, w'))
    /\ RefreshToken tok <> EmptyString.
Proof.
  intros (Hrl & Hnew & Hdo & Hdec) Hu Hc Hr Hcfg.
  apply unlocked_mutex in Hu.
  destruct c as [sd dm bu au pt oc ts ct mu dbg]; cbn in Hu, Hc, Hcfg; subst mu ct.
  unfold Client_refreshToken, refreshToken_locked, abind, getClient, Lock, Unlock,
    Now, world, world_, aret, panic; cbn.
  destruct (String.eqb_spec (RefreshToken cur) EmptyString); [contradiction |]; cbn.
  destruct oc as [cfg |]; [| contradiction]; cbn.
  rewrite Hnew; cbn.
  match goal with |- context [httpClient_Do rt ?r w] =>
    set (req := r); pose proof (Hdo req w) as [Hd1 Hd2];
    destruct (httpClient_Do rt req w) as [[resp err] w1] eqn:Edo end.
  cbn in Hd1, Hd2 |- *. subst err.
  unfold token_endpoint in Hd2. cbn in Hd2. rewrite String.eqb_refl in Hd2.
  rewrite Hd2; cbn.
  destruct (Hdec (resp_Body resp)) as [Hx Hy].
  destruct (json_Decode_Token rt (resp_Body resp)) as [d err]; cbn in Hx, Hy |- *.
  subst err.
  destruct ts as [save |]; cbn;
    [destruct (save ctx _ _ w1) as [[e |] w2]; cbn |];
    eexists _, _; (split; [reflexivity | exact Hy]).
Qed.

Lemma debug_log (b : bool) (f : World -> World) (c : Client World) (w : World) :
  exists w', (if b then world_ World f else aret tt) (c, w) = Returns (tt, (c, w')).
Proof. destruct b; eexists; reflexivity. Qed.

End ClientProperties.

(** X12. With OAuth2 authentication, a token that has expired and a token
    mutex on which no read lock is held, [addAuth] never returns and never
    gets to [refreshToken]: the read lock is released a second time before
    the refresh, which stops the program with
    [sync: RUnlock of unlocked RWMutex] (or, if the mutex is locked for
    writing, [addAuth] waits at its first [RLock]). *)
Theorem addAuth_expired_token_never_returns
  (World : Type) (rt : Runtime World) (ctx : Context) (req : Request)
  (c : Client World) (w : World) (tok : Token) :
  authType c = AuthTypeOAuth2 ->
  currentToken c = Some tok ->
  Token_IsExpired (time_Now rt w) tok = true ->
  readers (tokenMu c) = 0%nat ->
  (forall out, Client_addAuth rt ctx req (c, w) <> Returns out)
  /\ (writer (tokenMu c) = false ->
      Client_addAuth rt ctx req (c, w) = Fatal "sync: RUnlock of unlocked RWMutex").
Proof.
  intros Hauth Htok Hexp Hr.
  destruct c as [sd dm bu au pt oc ts ct [r wr] dbg]; cbn in *; subst.
  unfold Client_addAuth, abind, getClient, RLock, RUnlock, Now; cbn.
  destruct wr; cbn.
  - split; [intros out; discriminate | discriminate].
  - rewrite Hexp. cbn. split; [intros out; discriminate | reflexivity].
Qed.

Lemma addAuth_expired_token_never_returns_witness :
  (forall out,
     Client_addAuth (exampleRuntime 1000 200) Background
       (mkRequest "GET" "https://example.amocrm.ru/api/v4/leads" [] None)
       (exampleClient (Some staleToken), 0%nat) <> Returns out)
  /\ (writer (tokenMu (exampleClient (Some staleToken))) = false ->
      Client_addAuth (exampleRuntime 1000 200) Background
        (mkRequest "GET" "https://example.amocrm.ru/api/v4/leads" [] None)
        (exampleClient (Some staleToken), 0%nat)
      = Fatal "sync: RUnlock of unlocked RWMutex").
Proof.
  apply (addAuth_expired_token_never_returns nat (exampleRuntime 1000 200) Background
           (mkRequest "GET" "https://example.amocrm.ru/api/v4/leads" [] None)
           (exampleClient (Some staleToken)) 0%nat staleToken); reflexivity.
Defined.

(** X13. On a free token mutex, [addAuth] returns a nil error exactly when
    the client uses a permanent token, or uses OAuth2 with a current token
    that has not expired; the request then carries
    [Authorization: Bearer <token>], and the client and the world are as
    before: [addAuth] never makes a request of its own and never replaces
    the token. *)
Theorem addAuth_succeeds_iff
  (World : Type) (rt : Runtime World) (ctx : Context) (req req' : Request)
  (c : Client World) (w : World) (st' : Client World * World) :
  unlocked c ->
  Client_addAuth rt ctx req (c, w) = Returns ((req', None), st')
  <-> st' = (c, w)
      /\ (authType c = AuthTypePermanentToken
          /\ req' = Request_Header_Set "Authorization"
                      ("Bearer " ++ permanentToken c) req
          \/ authType c = AuthTypeOAuth2
             /\ exists tok,
                  currentToken c = Some tok
                  /\ Token_IsExpired (time_Now rt w) tok = false
                  /\ req' = Request_Header_Set "Authorization"
                              ("Bearer " ++ AccessToken tok) req).
Proof.
  intros Hu. rewrite (addAuth_unlocked World rt ctx req c w Hu).
  destruct (authType c =? AuthTypePermanentToken) eqn:E1.
  { apply Z.eqb_eq in E1. split.
    - intros H. injection H as H1 H2. subst. split; [reflexivity |]. now left.
    - intros [-> [[_ ->] | [H2 _]]]; [reflexivity |].
      rewrite E1 in H2. discriminate. }
  apply Z.eqb_neq in E1.
  destruct (authType c =? AuthTypeOAuth2) eqn:E2.
  { apply Z.eqb_eq in E2.
    destruct (currentToken c) as [tok |] eqn:Et.
    - destruct (Token_IsExpired (time_Now rt w) tok) eqn:Ex.
      + split; [discriminate |].
        intros [_ [[H1 _] | [_ [tok' [Ht' [Hx' _]]]]]]; [contradiction |].
        injection Ht' as <-. rewrite Ex in Hx'. discriminate.
      + split.
        * intros H. injection H as H1 H2. subst. split; [reflexivity |].
          right. split; [exact E2 |]. now exists tok.
        * intros [-> [[H1 _] | [_ [tok' [Ht' [_ ->]]]]]]; [contradiction |].
          now injection Ht' as <-.
    - split; [discriminate |].
      intros [_ [[H1 _] | [_ [tok' [Ht' _]]]]]; [contradiction | discriminate]. }
  apply Z.eqb_neq in E2.
  split; [discriminate |].
  intros [_ [[H1 _] | [H2 _]]]; contradiction.
Qed.

Lemma addAuth_succeeds_iff_witness :
  Client_addAuth (exampleRuntime 100 200) Background
    (mkRequest "GET" "https://example.amocrm.ru/api/v4/leads" [] None)
    (exampleClient (Some staleToken), 0%nat)
  = Returns ((mkRequest "GET" "https://example.amocrm.ru/api/v4/leads"
                [("Authorization"%string, "Bearer stale"%string)] None, None),
             (exampleClient (Some staleToken), 0%nat)).
Proof.
  apply (addAuth_succeeds_iff nat (exampleRuntime 100 200) Background
           (mkRequest "GET" "https://example.amocrm.ru/api/v4/leads" [] None)
           (mkRequest "GET" "https://example.amocrm.ru/api/v4/leads"
                [("Authorization"%string, "Bearer stale"%string)] None)
           (exampleClient (Some staleToken)) 0%nat
           (exampleClient (Some staleToken), 0%nat)).
  - split; reflexivity.
  - split; [reflexivity |]. right. split; [reflexivity |].
    exists staleToken. repeat split.
Defined.

(** X14. On a free token mutex [refreshToken] never waits and never stops
    the program, and whenever it returns the mutex is free again.  If it
    returns an error the client is exactly as before; if it returns nil,
    the client had a refresh token, the token endpoint
    [https://<subdomain>.<domain>/oauth2/access_token] answered a POST with
    200, and only the current token changed: it expires [ExpiresIn] seconds
    after the reading of the clock that follows the exchange. *)
Theorem refreshToken_keeps_lock_and_client
  (World : Type) (rt : Runtime World) (ctx : Context) (c : Client World) (w : World) :
  unlocked c ->
  Client_refreshToken rt ctx (c, w) <> Blocked
  /\ (forall msg, Client_refreshToken rt ctx (c, w) <> Fatal msg)
  /\ (forall err c' w',
        Client_refreshToken rt ctx (c, w) = Returns (err, (c', w')) ->
        unlocked c'
        /\ (err <> None -> c' = c)
        /\ (err = None ->
            exists cur req tok,
              currentToken c = Some cur /\ RefreshToken cur <> EmptyString
              /\ req_Method req = "POST"%string
              /\ req_URL req = token_endpoint c
              /\ resp_StatusCode (fst (fst (httpClient_Do rt req w))) = 200
              /\ ExpiresAt tok
                 = time_Now rt (snd (httpClient_Do rt req w))
                   + mul (ExpiresIn tok) Second
              /\ c' = set_currentToken (Some tok) c)).
Proof.
  intros Hu. pose proof (refreshToken_unlocked World rt ctx c w Hu) as H.
  destruct (Client_refreshToken rt ctx (c, w)) as [[err [c1 w1]] | | | |];
    try contradiction.
  - split; [discriminate |]. split; [discriminate |].
    intros err' c' w' E. injection E as <- <- <-.
    destruct err as [e |].
    + subst c1. split; [exact Hu |]. split; [reflexivity | discriminate].
    + destruct H as (cur & req & tok & Hc & Hr & Hm & Hurl & Hdo & _ & Hexp & Hc1).
      split; [| split; [intros N; now contradiction N |]].
      * subst c1. destruct c; exact Hu.
      * intros _. exists cur, req, tok. rewrite Hdo. cbn. tauto.
  - split; [discriminate |]. split; [discriminate |]. intros; discriminate.
Qed.

Lemma refreshToken_keeps_lock_and_client_witness :
  Client_refreshToken (exampleRuntime 1000 200) Background
    (exampleClient (Some staleToken), 0%nat) <> Blocked
  /\ (forall msg,
        Client_refreshToken (exampleRuntime 1000 200) Background
          (exampleClient (Some staleToken), 0%nat) <> Fatal msg)
  /\ (forall err c' w',
        Client_refreshToken (exampleRuntime 1000 200) Background
          (exampleClient (Some staleToken), 0%nat) = Returns (err, (c', w')) ->
        unlocked c'
        /\ (err <> None -> c' = exampleClient (Some staleToken))
        /\ (err = None ->
            exists cur req tok,
              currentToken (exampleClient (Some staleToken)) = Some cur
              /\ RefreshToken cur <> EmptyString
              /\ req_Method req = "POST"%string
              /\ req_URL req = token_endpoint (exampleClient (Some staleToken))
              /\ resp_StatusCode
                   (fst (fst (httpClient_Do (exampleRuntime 1000 200) req 0%nat))) = 200
              /\ ExpiresAt tok
                 = time_Now (exampleRuntime 1000 200)
                     (snd (httpClient_Do (exampleRuntime 1000 200) req 0%nat))
                   + mul (ExpiresIn tok) Second
              /\ c' = set_currentToken (Some tok) (exampleClient (Some staleToken)))).
Proof.
  apply (refreshToken_keeps_lock_and_client nat (exampleRuntime 1000 200) Background
           (exampleClient (Some staleToken)) 0%nat).
  split; reflexivity.
Defined.

Section DoStages.

Variable World : Type.
Variable rt : Runtime World.

(** [do] returns as [do_ends] says. *)
Lemma do_ends_sound fuel : forall ctx method path s r s',
  Client_do rt fuel ctx method path s = Returns (r, s') ->
  do_ends rt ctx method path s r s'.
Proof.
  induction fuel as [| fuel IH]; intros ctx method path [c w] r s' H; [discriminate |].
  cbn [Client_do] in H.
  unfold abind at 1, world in H. cbn [fst snd] in H.
  destruct (rateLimiter_Wait rt ctx w) as [[e |] w1] eqn:Elim; cbn [fst snd] in H.
  { injection H as <- <-. now constructor. }
  unfold abind at 1, getClient in H. cbn [fst snd] in H.
  destruct (url_Parse rt (baseURL c ++ path)) as [url [e |]] eqn:Eurl; cbn [fst snd] in H.
  { injection H as <- <-. now apply url_fails with url. }
  destruct (http_NewRequestWithContext rt ctx method url) as [e |] eqn:Enew.
  { injection H as <- <-. now apply request_fails with url. }
  assert (Hprep : prepared World rt ctx method path c w w1 url) by (repeat split; assumption).
  unfold abind at 1 in H.
  change (Request_Header_Set "User-Agent" "amocrm-go/1.0"
            (Request_Header_Set "Content-Type" "application/json"
               (mkRequest method url [] None)))
    with (do_request method url) in H.
  destruct (Client_addAuth rt ctx (do_request method url) (c, w1))
    as [[[req [e |]] [c2 w2]] | | | |] eqn:Eauth; try discriminate; cbn [fst snd] in H.
  { injection H as <- <-. now apply authentication_fails with w1 url req. }
  assert (Hsent : sent World rt ctx method path c w url req c2 w2) by now exists w1.
  unfold abind at 1 in H.
  assert (Elog : forall msg fields (w0 : World) (c0 : Client World),
            (if debug c then world_ World (logger_Debug rt msg fields) else aret tt) (c0, w0)
            = Returns (tt, (c0, after_debug rt c msg fields w0))).
  { intros. unfold after_debug. now destruct (debug c). }
  rewrite Elog in H.
  unfold abind at 1, world in H. cbn [fst snd] in H.
  match type of H with context [httpClient_Do rt req ?w0] =>
    destruct (httpClient_Do rt req w0) as [[resp [e |]] w3] eqn:Edo end;
    cbn [fst snd] in H.
  { injection H as <- <-. now apply transport_fails with url req w2 resp. }
  unfold abind at 1 in H. rewrite Elog in H.
  unfold abind at 1, getClient in H. cbn [fst snd] in H.
  match type of H with context [after_debug rt c "API Response" ?f w3] =>
    set (w4 := after_debug rt c "API Response" f w3) in * end.
  assert (Hans : answered World rt ctx method path c w resp c2 w4).
  { exists url, req, w2, w3. auto. }
  destruct (Z.eqb_spec (resp_StatusCode resp) 401) as [E401 | E401];
    [destruct (Z.eqb_spec (authType c2) AuthTypeOAuth2) as [Eo | Eo] |];
    cbn [andb] in H.
  - unfold abind at 1 in H.
    destruct (Client_refreshToken rt ctx (c2, w4)) as [[[e |] s5] | | | |] eqn:Eref;
      try discriminate.
    + injection H as <- <-. now apply refresh_fails with resp c2 w4.
    + apply IH in H. now apply retried with resp c2 w4 s5.
  - destruct (resp_StatusCode resp >=? 400) eqn:E; injection H as <- <-.
    + apply server_error; [exact Hans | tauto |].
      rewrite Z.geb_leb in E. now apply Z.leb_le in E.
    + apply success; [exact Hans |]. rewrite Z.geb_leb in E. now apply Z.leb_gt in E.
  - destruct (resp_StatusCode resp >=? 400) eqn:E; injection H as <- <-.
    + apply server_error; [exact Hans | tauto |].
      rewrite Z.geb_leb in E. now apply Z.leb_le in E.
    + apply success; [exact Hans |]. rewrite Z.geb_leb in E. now apply Z.leb_gt in E.
Qed.

End DoStages.

(** X15. Whatever the runtime does, when [do] (nil body) returns it ends
    as [do_ends] says, stage by stage: with the error of the rate limiter,
    of the URL parser, of the request constructor, of [addAuth], of the
    transport or of [refreshToken], each wrapped under the message of its
    own stage and returned by that stage on the state the stages before it
    left; with an [APIError] that carries the status (at least 400, and not
    a 401 of an OAuth2 client) and the body of the response the transport
    returned; with that response and a nil error when its status is below
    400; or as the retry that follows a 401 and a successful refresh ends.
    So it returns either a response and a nil error, or no response and an
    error: never neither, never both. *)
Theorem do_returns_response_or_error
  (World : Type) (rt : Runtime World) (fuel : nat) (ctx : Context)
  (method path : string) (s s' : Client World * World)
  (r : option Response * option (error + APIError)) :
  Client_do rt fuel ctx method path s = Returns (r, s') ->
  do_ends rt ctx method path s r s'
  /\ ((exists resp, r = (Some resp, None) /\ resp_StatusCode resp < 400)
      \/ (exists e, r = (None, Some e) /\ do_error e)).
Proof.
  intros H. split.
  - exact (do_ends_sound World rt fuel ctx method path s r s' H).
  - apply do_result in H.
    destruct r as [[resp |] [e |]]; try contradiction.
    + left. now exists resp.
    + right. now exists e.
Qed.

Lemma do_returns_response_or_error_witness :
  do_ends (exampleRuntime 100 404) Background "GET" "/leads"
    (exampleClient (Some staleToken), 0%nat)
    (@None Response, Some (@inr error APIError (mkAPIError 404 "body")))
    (exampleClient (Some staleToken), 1%nat)
  /\ ((exists resp,
         (@None Response, Some (@inr error APIError (mkAPIError 404 "body")))
         = (Some resp, None)
         /\ resp_StatusCode resp < 400)
      \/ (exists e,
            (@None Response, Some (@inr error APIError (mkAPIError 404 "body")))
            = (None, Some e)
            /\ do_error e)).
Proof.
  apply (do_returns_response_or_error nat (exampleRuntime 100 404) 3 Background
           "GET" "/leads" (exampleClient (Some staleToken), 0%nat)
           (exampleClient (Some staleToken), 1%nat)).
  reflexivity.
Defined.

(** X16. A [GetJSON] of a client that uses OAuth2 with an expired token
    (token mutex free, rate limiter, URL and request construction without
    error) stops the program with [sync: RUnlock of unlocked RWMutex]: no
    request is sent, no token is refreshed, no error is returned. *)
Theorem GetJSON_expired_token_stops_program
  (World : Type) (rt : Runtime World) (R : Type)
  (decode : string -> R -> R * option error) (fuel : nat) (ctx : Context)
  (path : string) (result : R) (c : Client World) (w w1 : World) (tok : Token) :
  authType c = AuthTypeOAuth2 ->
  currentToken c = Some tok ->
  unlocked c ->
  rateLimiter_Wait rt ctx w = (None, w1) ->
  snd (url_Parse rt (baseURL c ++ path)) = None ->
  http_NewRequestWithContext rt ctx "GET" (fst (url_Parse rt (baseURL c ++ path)))
  = None ->
  Token_IsExpired (time_Now rt w1) tok = true ->
  Client_GetJSON rt decode (S fuel) ctx path result (c, w)
  = Fatal "sync: RUnlock of unlocked RWMutex".
Proof.
  intros Hauth Htok Hu Hrl Hurl Hnew Hexp.
  unfold Client_GetJSON. apply abind_Fatal. cbn [Client_do].
  rewrite (abind_eq World _ _ _ None (c, w1))
    by (unfold world; cbn; now rewrite Hrl).
  rewrite (abind_eq World _ _ _ c (c, w1)) by reflexivity.
  rewrite Hurl, Hnew. apply abind_Fatal.
  rewrite (addAuth_unlocked World rt ctx _ c w1 Hu), Hauth, Htok, Hexp.
  reflexivity.
Qed.

Lemma GetJSON_expired_token_stops_program_witness :
  Client_GetJSON (exampleRuntime 1000 200) (fun _ (r : unit) => (r, None)) 1
    Background "/leads" tt (exampleClient (Some staleToken), 0%nat)
  = Fatal "sync: RUnlock of unlocked RWMutex".
Proof.
  apply (GetJSON_expired_token_stops_program nat (exampleRuntime 1000 200) unit
           (fun _ r => (r, None)) 0 Background "/leads" tt
           (exampleClient (Some staleToken)) 0%nat 0%nat staleToken);
    first [reflexivity | split; reflexivity].
Defined.

(** X17. [do] retries a 401 without bound.  For an OAuth2 client with a
    refresh token, in a runtime where nothing fails, the token endpoint
    always grants a token that can be refreshed in turn and every other
    request is answered 401, no budget of calls makes [do] return: it is
    still retrying when the budget ends, unless a token it was granted has
    expired by the next request, which stops the program. *)
Theorem do_retries_unauthorized_without_bound
  (World : Type) (rt : Runtime World) (fuel : nat) (ctx : Context)
  (method path : string) (c : Client World) (w : World) (cur : Token) :
  always_unauthorized rt ctx c ->
  unlocked c ->
  authType c = AuthTypeOAuth2 ->
  oauth2Config c <> None ->
  currentToken c = Some cur ->
  RefreshToken cur <> EmptyString ->
  snd (url_Parse rt (baseURL c ++ path)) = None ->
  fst (url_Parse rt (baseURL c ++ path)) <> token_endpoint c ->
  Client_do rt fuel ctx method path (c, w) = Unfinished
  \/ Client_do rt fuel ctx method path (c, w)
     = Fatal "sync: RUnlock of unlocked RWMutex".
Proof.
  revert c w cur.
  induction fuel as [| fuel IH];
    intros c w cur Hall Hu Hauth Hcfg Hcur Hr Hurl Hne; [now left |].
  pose proof Hall as (Hrl & Hnew & Hdo & Hdec).
  cbn [Client_do].
  rewrite (abind_eq World _ _ _ None (c, snd (rateLimiter_Wait rt ctx w)))
    by (unfold world; cbn; now rewrite Hrl).
  rewrite (abind_eq World _ _ _ c (c, snd (rateLimiter_Wait rt ctx w))) by reflexivity.
  rewrite Hurl, Hnew.
  set (w1 := snd (rateLimiter_Wait rt ctx w)).
  match goal with |- context [Client_addAuth rt ctx ?r] => set (req := r) end.
  pose proof (addAuth_unlocked World rt ctx req c w1 Hu) as Ea.
  rewrite Hauth, Hcur in Ea. cbn in Ea.
  destruct (Token_IsExpired (time_Now rt w1) cur).
  { right. now rewrite (abind_Fatal World (Client_addAuth rt ctx req) _ (c, w1) _ Ea). }
  rewrite (abind_eq World (Client_addAuth rt ctx req) _ (c, w1) _ _ Ea). cbn [fst snd].
  match goal with |- context [abind (if debug c then world_ World ?f else aret tt)] =>
    destruct (debug_log World (debug c) f c w1) as [w2 E2] end.
  rewrite (abind_eq World _ _ _ _ _ E2).
  match goal with |- context [world World (httpClient_Do rt ?r)] =>
    destruct (Hdo r w2) as [Hd1 Hd2];
    rewrite (abind_eq World _ _ _ (fst (httpClient_Do rt r w2))
               (c, snd (httpClient_Do rt r w2))) by reflexivity
  end.
  rewrite Hd1.
  cbn [req_URL Request_Header_Set req] in Hd2.
  apply String.eqb_neq in Hne. rewrite Hne in Hd2.
  match goal with |- context [abind (if debug c then world_ World ?f else aret tt) _ (c, ?w3)] =>
    destruct (debug_log World (debug c) f c w3) as [w4 E4] end.
  rewrite (abind_eq World _ _ _ _ _ E4).
  rewrite (abind_eq World _ _ _ c (c, w4)) by reflexivity.
  rewrite Hd2, Hauth. change ((401 =? 401) && (AuthTypeOAuth2 =? AuthTypeOAuth2)) with true.
  cbv iota.
  destruct (refreshToken_succeeds World rt ctx c w4 cur Hall Hu Hcur Hr Hcfg)
    as (tok & w5 & E5 & Htok).
  rewrite (abind_eq World (Client_refreshToken rt ctx) _ (c, w4) _ _ E5).
  apply String.eqb_neq in Hne.
  apply (IH _ _ tok); destruct c;
    first [exact Hall | exact Hu | exact Hauth | exact Hcfg | exact Htok
          | exact Hurl | exact Hne | reflexivity].
Qed.

Lemma do_retries_unauthorized_without_bound_witness :
  Client_do (exampleRuntime 100 401) 25 Background "GET" "/leads"
    (exampleClient (Some staleToken), 0%nat) = Unfinished
  \/ Client_do (exampleRuntime 100 401) 25 Background "GET" "/leads"
       (exampleClient (Some staleToken), 0%nat)
     = Fatal "sync: RUnlock of unlocked RWMutex".
Proof.
  apply (do_retries_unauthorized_without_bound nat (exampleRuntime 100 401) 25
           Background "GET" "/leads" (exampleClient (Some staleToken)) 0%nat
           staleToken).
  - split; [reflexivity |]. split; [reflexivity |]. split.
    + intros req w. unfold token_endpoint, exampleTokenURL. cbn.
      destruct (String.eqb (req_URL req) _); split; reflexivity.
    + intros body. split; [reflexivity | discriminate].
  - split; reflexivity.
  - reflexivity.
  - discriminate.
  - reflexivity.
  - discriminate.
  - reflexivity.
  - discriminate.
Defined.

(** X18. [GetJSON] and [DeleteJSON] never dereference a nil response: they
    panic only if [do] itself does.  When [GetJSON] returns, [do] returned
    in the same state, and either the request failed, [result] is
    untouched and the error is the one of [do]; or the response has a
    status below 400, and then a 204 leaves [result] untouched with a nil
    error and any other status has its body decoded into [result], the
    decoder's error being returned. *)
Theorem GetJSON_decodes_only_successes
  (World : Type) (rt : Runtime World) (R : Type)
  (decode : string -> R -> R * option error) (fuel : nat) (ctx : Context)
  (path : string) (result : R) (s : Client World * World) :
  (forall msg,
     (Client_GetJSON rt decode fuel ctx path result s = Panics msg ->
      Client_do rt fuel ctx "GET" path s = Panics msg)
     /\ (Client_DeleteJSON rt fuel ctx path s = Panics msg ->
         Client_do rt fuel ctx "DELETE" path s = Panics msg))
  /\ (forall res err s',
        Client_GetJSON rt decode fuel ctx path result s = Returns ((res, err), s') ->
        (exists e,
           Client_do rt fuel ctx "GET" path s = Returns ((None, Some e), s')
           /\ do_error e /\ res = result /\ err = Some e)
        \/ (exists resp,
              Client_do rt fuel ctx "GET" path s = Returns ((Some resp, None), s')
              /\ resp_StatusCode resp < 400
              /\ (resp_StatusCode resp = 204 /\ res = result /\ err = None
                  \/ resp_StatusCode resp <> 204
                     /\ res = fst (decode (resp_Body resp) result)
                     /\ err = option_map inl (snd (decode (resp_Body resp) result))))).
Proof.
  split.
  - intros msg. unfold Client_GetJSON, Client_DeleteJSON, abind. split.
    + pose proof (do_result World rt fuel ctx "GET" path s) as D.
      destruct (Client_do rt fuel ctx "GET" path s) as [[r s1] | | | |];
        try discriminate; [| congruence].
      specialize (D r s1 eq_refl). destruct r as [[resp |] [e |]]; try contradiction.
      * destruct (resp_StatusCode resp =? 204); discriminate.
      * discriminate.
    + pose proof (do_result World rt fuel ctx "DELETE" path s) as D.
      destruct (Client_do rt fuel ctx "DELETE" path s) as [[r s1] | | | |];
        try discriminate; [| congruence].
      specialize (D r s1 eq_refl). destruct r as [[resp |] [e |]]; try contradiction;
        discriminate.
  - intros res err s'. unfold Client_GetJSON, abind.
    pose proof (do_result World rt fuel ctx "GET" path s) as D.
    destruct (Client_do rt fuel ctx "GET" path s) as [[r s1] | | | |];
      try discriminate.
    specialize (D r s1 eq_refl). destruct r as [[resp |] [e |]]; try contradiction.
    + destruct (Z.eqb_spec (resp_StatusCode resp) 204) as [E | E]; intros H;
        injection H as <- <- <-; right; exists resp;
        (split; [reflexivity |]); (split; [exact D |]).
      * left. repeat split. exact E.
      * right. repeat split. exact E.
    + intros H. injection H as <- <- <-. left. exists e. repeat split. exact D.
Qed.

(** X22. [ExchangeCode] on a free token mutex always returns, with the
    mutex free again.  A nil error means that the token was installed.
    An error leaves the client exactly as it was, with one exception: when
    the token storage fails to save, the error
    [failed to save token: ...] is returned although the new token has
    already been installed as the current token. *)
Theorem ExchangeCode_installs_token_before_saving
  (World : Type) (rt : Runtime World) (ctx : Context) (code : string)
  (c : Client World) (w : World) :
  unlocked c ->
  match AuthService_ExchangeCode rt ctx code (c, w) with
  | Returns (err, (c', w')) =>
    unlocked c'
    /\ match err with
       | None => exists tok, c' = set_currentToken (Some tok) c
       | Some e =>
         (exists tok inner,
            e = Wrapf "failed to save token: " inner
            /\ c' = set_currentToken (Some tok) c
            /\ tokenStorage c <> None)
         \/ (c' = c /\ forall inner, e <> Wrapf "failed to save token: " inner)
       end
  | _ => False
  end.
Proof.
  intros Hu. pose proof Hu as Hm. apply unlocked_mutex in Hm.
  destruct c as [sd dm bu au pt oc ts ct mu dbg]; cbn in Hm; subst mu.
  unfold AuthService_ExchangeCode, httpClient_Post, abind, getClient, Lock, Unlock,
    Now, world, world_, aret; cbn.
  destruct (au =? AuthTypeOAuth2); cbn;
    [| split; [exact Hu | right; split; [reflexivity | intros; discriminate]]].
  destruct oc as [cfg |]; cbn;
    [| split; [exact Hu | right; split; [reflexivity | intros; discriminate]]].
  destruct (http_NewRequestWithContext rt Background _ _) as [e |]; cbn;
    [split; [exact Hu | right; split; [reflexivity | intros; discriminate]] |].
  match goal with |- context [httpClient_Do rt ?r w] =>
    destruct (httpClient_Do rt r w) as [[resp [err |]] w1] end; cbn;
    [split; [exact Hu | right; split; [reflexivity | intros; discriminate]] |].
  destruct (resp_StatusCode resp =? 200); cbn;
    [| split; [exact Hu | right; split; [reflexivity | intros; discriminate]]].
  destruct (json_Decode_Token rt (resp_Body resp)) as [d [err |]]; cbn;
    [split; [exact Hu | right; split; [reflexivity | intros; discriminate]] |].
  destruct ts as [save |]; cbn.
  - destruct (save ctx _ _ w1) as [[e |] w2]; cbn; (split; [exact Hu |]).
    + left. eexists _, e. split; [reflexivity |]. split; [reflexivity | discriminate].
    + eexists. reflexivity.
  - split; [exact Hu |]. eexists. reflexivity.
Qed.

Lemma ExchangeCode_installs_token_before_saving_witness :
  match AuthService_ExchangeCode (exampleRuntime 1000 200) Background "code"
          (brokenDiskClient, 0%nat) with
  | Returns (err, (c', w')) =>
    unlocked c'
    /\ match err with
       | None => exists tok, c' = set_currentToken (Some tok) brokenDiskClient
       | Some e =>
         (exists tok inner,
            e = Wrapf "failed to save token: " inner
            /\ c' = set_currentToken (Some tok) brokenDiskClient
            /\ tokenStorage brokenDiskClient <> None)
         \/ (c' = brokenDiskClient
             /\ forall inner, e <> Wrapf "failed to save token: " inner)
       end
  | _ => False
  end.
Proof.
  apply (ExchangeCode_installs_token_before_saving nat (exampleRuntime 1000 200)
           Background "code" brokenDiskClient 0%nat).
  split; reflexivity.
Defined.

(** * Task results *)

Lemma trimBlank_blank (data : string) :
  Forall (fun c => isBlank c = true) (list_ascii_of_string data) ->
  trimBlank data = EmptyString.
Proof.
  induction data as [| c rest IH]; cbn; intros H; [reflexivity |].
  inversion H as [| ? ? Hc Hrest]; subst. rewrite Hc. now apply IH.
Qed.

Lemma trimBlank_app (ws : string) (c : ascii) (rest : string) :
  Forall (fun b => isBlank b = true) (list_ascii_of_string ws) ->
  isBlank c = false ->
  trimBlank (ws ++ String c rest) = String c rest.
Proof.
  induction ws as [| b ws IH]; cbn; intros H Hc; [now rewrite Hc |].
  inversion H as [| ? ? Hb Hws]; subst. rewrite Hb. now apply IH.
Qed.

(** X19. [TaskResult.UnmarshalJSON] at its edges.  Input that is empty,
    all blanks (space, tab, line feed, carriage return) or exactly [null]
    gives an empty [Text] and a nil error without consulting a decoder.
    It fails only when a decoder fails, and then the receiver is left as
    it was and the error is the decoder's, wrapped under the array or the
    object message.  Otherwise the first byte that is not blank chooses
    the decoder (an opening bracket the array decoder, which gives the
    first item or the empty text; anything else the object decoder), and
    the decoder is handed the whole input, blanks included. *)
Theorem UnmarshalJSON_edges
  (unmarshalArray : string -> list string * option error)
  (unmarshalObject : string -> string * option error)
  (tr : TaskResult) (data : string) :
  (Forall (fun c => isBlank c = true) (list_ascii_of_string data) \/ data = "null"%string ->
   TaskResult_UnmarshalJSON unmarshalArray unmarshalObject tr data
   = (mkTaskResult EmptyString, None))
  /\ (forall e,
        snd (TaskResult_UnmarshalJSON unmarshalArray unmarshalObject tr data) = Some e ->
        fst (TaskResult_UnmarshalJSON unmarshalArray unmarshalObject tr data) = tr
        /\ (exists inner,
              snd (unmarshalArray data) = Some inner
              /\ e = Wrapf "failed to unmarshal result array: " inner
            \/ snd (unmarshalObject data) = Some inner
               /\ e = Wrapf "failed to unmarshal result object: " inner))
  /\ (forall ws c rest,
        Forall (fun b => isBlank b = true) (list_ascii_of_string ws) ->
        isBlank c = false ->
        data = (ws ++ String c rest)%string ->
        data <> "null"%string ->
        TaskResult_UnmarshalJSON unmarshalArray unmarshalObject tr data
        = if Ascii.eqb c "["
          then match unmarshalArray data with
               | (_, Some err) => (tr, Some (Wrapf "failed to unmarshal result array: " err))
               | (items, None) => (mkTaskResult (hd EmptyString items), None)
               end
          else match unmarshalObject data with
               | (_, Some err) => (tr, Some (Wrapf "failed to unmarshal result object: " err))
               | (text, None) => (mkTaskResult text, None)
               end).
Proof.
  split; [| split].
  - intros [H | ->]; [| reflexivity].
    unfold TaskResult_UnmarshalJSON.
    destruct ((String.length data =? 0)%nat || String.eqb data "null"); [reflexivity |].
    now rewrite (trimBlank_blank data H).
  - intros e. unfold TaskResult_UnmarshalJSON.
    destruct ((String.length data =? 0)%nat || String.eqb data "null"); [discriminate |].
    cbv zeta. destruct (trimBlank data) as [| c rest]; [discriminate |].
    destruct (Ascii.eqb c "[").
    + destruct (unmarshalArray data) as [items [err |]]; cbn.
      * intros H. injection H as <-. split; [reflexivity |]. exists err. now left.
      * destruct items; discriminate.
    + destruct (unmarshalObject data) as [text [err |]]; cbn; [| discriminate].
      intros H. injection H as <-. split; [reflexivity |]. exists err. now right.
  - intros ws c rest Hws Hc -> Hnull.
    unfold TaskResult_UnmarshalJSON.
    apply String.eqb_neq in Hnull. rewrite Hnull.
    assert (L : (String.length (ws ++ String c rest) =? 0)%nat = false).
    { apply Nat.eqb_neq. clear. induction ws; cbn; lia. }
    rewrite L. cbn [orb]. cbv zeta. rewrite (trimBlank_app ws c rest Hws Hc).
    destruct (Ascii.eqb c "[").
    + destruct (unmarshalArray _) as [items [err |]]; cbn; [reflexivity |].
      now destruct items.
    + destruct (unmarshalObject _) as [text [err |]]; reflexivity.
Qed.

(** * Iterating with the next link *)

Section Iterate.

Variable Contact : Type.
Variable ctx : Context.
Variable ListWithResponse :
  Context -> ContactsFilter -> ContactsResponse Contact * option error.

Lemma small_add (j : nat) : (j < 10)%nat -> add (Z.of_nat j) 1 = Z.of_nat (S j).
Proof.
  intros H. rewrite add_exact; [lia |]. unfold in_int, int_min, int_max. lia.
Qed.

Lemma iterate_loop (fuel : nat) : forall (j : nat) (total : Z) (tr : Trace),
  (j < 10)%nat -> (10 - j <= fuel)%nat ->
  exists (k : nat) (total' n : Z) (err : option error),
    (j < k <= 10)%nat
    /\ exampleIterateWithLinks_loop fuel ctx ListWithResponse total (Z.of_nat j)
         (linksFilter (S j)) tr
       = (Some (total', n, err), tr ++ map Z.of_nat (seq (S j) (k - j)))
    /\ (forall i, (j < i < k)%nat -> links_on ctx ListWithResponse i)
    /\ match err with
       | Some e =>
         snd (ListWithResponse ctx (linksFilter k)) = Some e
         /\ n = Z.of_nat (k - 1)
         /\ total' = fold_left add
                       (map (contactsOn ctx ListWithResponse) (seq (S j) (k - 1 - j)))
                       total
       | None =>
         snd (ListWithResponse ctx (linksFilter k)) = None
         /\ n = Z.of_nat k
         /\ total' = fold_left add
                       (map (contactsOn ctx ListWithResponse) (seq (S j) (k - j)))
                       total
         /\ (k = 10%nat
             \/ HasNext (cr_Links (fst (ListWithResponse ctx (linksFilter k)))) = false)
       end.
Proof.
  induction fuel as [| fuel IH]; intros j total tr Hj Hfuel; [lia |].
  cbn [exampleIterateWithLinks_loop]. unfold bind at 1.
  change (cf_Page (linksFilter (S j))) with (Z.of_nat (S j)).
  destruct (snd (ListWithResponse ctx (linksFilter (S j)))) as [e |] eqn:Eerr.
  { exists (S j), total, (Z.of_nat j), (Some e).
    split; [lia |]. split.
    - unfold ret. replace (S j - j)%nat with 1%nat by lia. reflexivity.
    - split; [intros i Hi; lia |]. split; [exact Eerr |].
      split; [f_equal; lia |]. replace (S j - 1 - j)%nat with 0%nat by lia.
      reflexivity. }
  cbv zeta. rewrite (small_add j Hj).
  fold (contactsOn ctx ListWithResponse (S j)).
  destruct (HasNext (cr_Links (fst (ListWithResponse ctx (linksFilter (S j))))))
    eqn:Enext; cbn [negb].
  2:{ exists (S j), (add total (contactsOn ctx ListWithResponse (S j))),
        (Z.of_nat (S j)), None.
      split; [lia |]. split.
      - unfold ret. replace (S j - j)%nat with 1%nat by lia. reflexivity.
      - split; [intros i Hi; lia |]. split; [exact Eerr |].
        split; [reflexivity |]. replace (S j - j)%nat with 1%nat by lia.
        split; [reflexivity | now right]. }
  destruct (Z.of_nat (S j) >=? 10) eqn:Eten.
  { assert (S j = 10)%nat by (rewrite Z.geb_leb in Eten; apply Z.leb_le in Eten; lia).
    exists (S j), (add total (contactsOn ctx ListWithResponse (S j))),
      (Z.of_nat (S j)), None.
    split; [lia |]. split.
    - unfold ret. replace (S j - j)%nat with 1%nat by lia. reflexivity.
    - split; [intros i Hi; lia |]. split; [exact Eerr |].
      split; [reflexivity |]. replace (S j - j)%nat with 1%nat by lia.
      split; [reflexivity | now left]. }
  assert (Hj' : (S j < 10)%nat)
    by (rewrite Z.geb_leb in Eten; apply Z.leb_gt in Eten; lia).
  change (cf_Query (linksFilter (S j))) with EmptyString.
  change (cf_Limit (linksFilter (S j))) with 250.
  change (cf_With (linksFilter (S j))) with EmptyString.
  change (cf_Order (linksFilter (S j))) with EmptyString.
  rewrite (small_add (S j) Hj').
  change (mkContactsFilter EmptyString 250 (Z.of_nat (S (S j))) EmptyString EmptyString)
    with (linksFilter (S (S j))).
  destruct (IH (S j) (add total (contactsOn ctx ListWithResponse (S j)))
              (tr ++ [Z.of_nat (S j)]) Hj' ltac:(lia))
    as (k & total' & n & err & Hk & Hrun & Hbefore & Hend).
  exists k, total', n, err.
  split; [lia |]. split.
  - rewrite Hrun. f_equal. rewrite <- app_assoc. f_equal.
    replace (k - j)%nat with (S (k - S j)) by lia. reflexivity.
  - split.
    + intros i Hi. destruct (Nat.eq_dec i (S j)) as [-> | Hne].
      * split; assumption.
      * apply Hbefore. lia.
    + destruct err as [e |].
      * destruct Hend as (H1 & H2 & H3). split; [exact H1 |]. split; [exact H2 |].
        replace (k - 1 - j)%nat with (S (k - 1 - S j)) by lia. exact H3.
      * destruct Hend as (H1 & H2 & H3 & H4). split; [exact H1 |].
        split; [exact H2 |]. split; [| exact H4].
        replace (k - j)%nat with (S (k - S j)) by lia. exact H3.
Qed.

End Iterate.

(** X20. [exampleIterateWithLinks] asks for the pages 1, 2, ..., k in this
    order, with at most 10 requests, whatever the server answers (a budget
    of 10 loop iterations is never exhausted).  Every page before the last
    one was served without error and linked to a next page.  The loop
    ends at the first page that fails (the counts are then those of the
    pages before it), or at the first page without a next link, or at page
    10; [pageCount] is then k and [totalContacts] the sum of the contacts
    of the k pages. *)
Theorem iterate_asks_consecutive_pages_up_to_ten
  (Contact : Type) (fuel : nat) (ctx : Context)
  (ListWithResponse : Context -> ContactsFilter -> ContactsResponse Contact * option error) :
  (10 <= fuel)%nat ->
  exists (k : nat) (totalContacts pageCount : Z) (err : option error),
    (1 <= k <= 10)%nat
    /\ run (exampleIterateWithLinks fuel ctx ListWithResponse)
       = (Some (totalContacts, pageCount, err), map Z.of_nat (seq 1 k))
    /\ (forall i, (1 <= i < k)%nat -> links_on ctx ListWithResponse i)
    /\ match err with
       | Some e =>
         snd (ListWithResponse ctx (linksFilter k)) = Some e
         /\ pageCount = Z.of_nat (k - 1)
         /\ totalContacts
            = fold_left add (map (contactsOn ctx ListWithResponse) (seq 1 (k - 1))) 0
       | None =>
         snd (ListWithResponse ctx (linksFilter k)) = None
         /\ pageCount = Z.of_nat k
         /\ totalContacts
            = fold_left add (map (contactsOn ctx ListWithResponse) (seq 1 k)) 0
         /\ (k = 10%nat
             \/ HasNext (cr_Links (fst (ListWithResponse ctx (linksFilter k)))) = false)
       end.
Proof.
  intros Hfuel.
  destruct (iterate_loop Contact ctx ListWithResponse fuel 0 0 [] ltac:(lia) ltac:(lia))
    as (k & total & n & err & Hk & Hrun & Hbefore & Hend).
  exists k, total, n, err.
  rewrite Nat.sub_0_r in Hrun.
  split; [lia |]. split; [exact Hrun |]. split; [intros i Hi; apply Hbefore; lia |].
  destruct err as [e |].
  - now rewrite Nat.sub_0_r in Hend.
  - now rewrite Nat.sub_0_r in Hend.
Qed.

Lemma iterate_asks_consecutive_pages_up_to_ten_witness :
  exists (k : nat) (totalContacts pageCount : Z) (err : option error),
    (1 <= k <= 10)%nat
    /\ run (exampleIterateWithLinks 12 Background threePages)
       = (Some (totalContacts, pageCount, err), map Z.of_nat (seq 1 k))
    /\ (forall i, (1 <= i < k)%nat -> links_on Background threePages i)
    /\ match err with
       | Some e =>
         snd (threePages Background (linksFilter k)) = Some e
         /\ pageCount = Z.of_nat (k - 1)
         /\ totalContacts
            = fold_left add (map (contactsOn Background threePages) (seq 1 (k - 1))) 0
       | None =>
         snd (threePages Background (linksFilter k)) = None
         /\ pageCount = Z.of_nat k
         /\ totalContacts
            = fold_left add (map (contactsOn Background threePages) (seq 1 k)) 0
         /\ (k = 10%nat
             \/ HasNext (cr_Links (fst (threePages Background (linksFilter k)))) = false)
       end.
Proof.
  apply (iterate_asks_consecutive_pages_up_to_ten unit 12 Background threePages). lia.
Defined.

(** * The finders, invocation by invocation

    The properties of this part are about the second embedding of the
    finders ([Stateful]): the probe may answer differently every time it is
    called and the context may become done between two probes.  They speak
    of the run through the list of the answers of its probes, in call
    order ([answers]); the phase of a probe is told by the answers: the
    first probe is the page-1 check, the growth phase lasts as long as
    every probe finds data, the search is what follows the first probe
    after the first that finds no data. *)

(** ** At a constant probe and context the two embeddings agree *)

Lemma Stateful_findUpperBoundConcurrent_eq fuel ctx checker maxPage : forall page tr,
  Stateful.findUpperBoundConcurrent_loop fuel ctx checker maxPage page tr
  = Stateful.findUpperBound_loop fuel ctx checker maxPage page tr.
Proof.
  induction fuel as [| fuel IH]; intros page tr; cbn; [reflexivity |].
  destruct (page <? maxPage); [| reflexivity].
  unfold bind, Stateful.call.
  destruct (snd (checker tr (ctx tr) _)); [reflexivity |].
  destruct (negb (fst (checker tr (ctx tr) _))); [reflexivity | apply IH].
Qed.

Lemma Stateful_FindTotalPages_unfold fuel ctx checker maxPage tr :
  Stateful.FindTotalPages fuel ctx checker maxPage tr
  = let m := normalize maxPage in
    match checker tr (ctx tr) 1 with
    | (_, Some err) => (Some (0, Some (Wrapf msgPage1 err)), tr ++ [1])
    | (false, None) => (Some (0, None), tr ++ [1])
    | (true, None) =>
      match Stateful.findUpperBound fuel ctx checker m (tr ++ [1]) with
      | (None, tr1) => (None, tr1)
      | (Some (_, Some err), tr1) => (Some (0, Some (Wrapf msgUpperBound err)), tr1)
      | (Some (ub, None), tr1) =>
        if ub =? m then (Some (m, None), tr1)
        else
          match Stateful.binarySearch fuel ctx checker (div ub 2) ub tr1 with
          | (None, tr2) => (None, tr2)
          | (Some (_, Some err), tr2) =>
            (Some (0, Some (Wrapf msgBinarySearch err)), tr2)
          | (Some (lp, None), tr2) => (Some (lp, None), tr2)
          end
      end
    end.
Proof.
  unfold Stateful.FindTotalPages, bind, Stateful.call, ret. cbn zeta.
  destruct (checker tr (ctx tr) 1) as [[|] [err |]]; cbn; try reflexivity.
  destruct (Stateful.findUpperBound _ _ _ _ _) as [[[ub [err |]] |] tr1]; cbn;
    try reflexivity.
  destruct (ub =? normalize maxPage); [reflexivity |].
  destruct (Stateful.binarySearch _ _ _ _ _ _) as [[[lp [err |]] |] tr2];
    reflexivity.
Qed.

Lemma Stateful_FindTotalPagesConcurrent_unfold fuel sched ctx checker maxPage tr :
  Stateful.FindTotalPagesConcurrent fuel sched ctx checker maxPage tr
  = let m := normalize maxPage in
    match checker tr (ctx tr) 1 with
    | (_, Some err) => (Some (0, Some (Wrapf msgPage1 err)), tr ++ [1])
    | (false, None) => (Some (0, None), tr ++ [1])
    | (true, None) =>
      match Stateful.findUpperBound fuel ctx checker m (tr ++ [1]) with
      | (None, tr1) => (None, tr1)
      | (Some (_, Some err), tr1) => (Some (0, Some (Wrapf msgUpperBound err)), tr1)
      | (Some (ub, None), tr1) =>
        if ub =? m then (Some (m, None), tr1)
        else
          match Stateful.binarySearchConcurrent fuel sched ctx checker (div ub 2) ub tr1
          with
          | (None, tr2) => (None, tr2)
          | (Some (_, Some err), tr2) =>
            (Some (0, Some (Wrapf msgBinarySearch err)), tr2)
          | (Some (lp, None), tr2) => (Some (lp, None), tr2)
          end
      end
    end.
Proof.
  unfold Stateful.FindTotalPagesConcurrent, bind, Stateful.call, ret. cbn zeta.
  destruct (checker tr (ctx tr) 1) as [[|] [err |]]; cbn; try reflexivity.
  unfold Stateful.findUpperBoundConcurrent, Stateful.findUpperBound.
  rewrite Stateful_findUpperBoundConcurrent_eq.
  destruct (Stateful.findUpperBound_loop _ _ _ _ _ _) as [[[ub [err |]] |] tr1]; cbn;
    try reflexivity.
  destruct (ub =? normalize maxPage); [reflexivity |].
  destruct (Stateful.binarySearchConcurrent _ _ _ _ _ _ _) as [[[lp [err |]] |] tr2];
    reflexivity.
Qed.

Section Conformance.

Variables (ctx : Context) (checker : PageChecker).

Let C := constant_context ctx.
Let P := constant_probe checker.

Lemma stateful_findUpperBound_loop fuel maxPage : forall page tr,
  Stateful.findUpperBound_loop fuel C P maxPage page tr
  = findUpperBound_loop fuel ctx checker maxPage page tr.
Proof.
  induction fuel as [| fuel IH]; intros page tr; cbn; [reflexivity |].
  destruct (page <? maxPage); [| reflexivity].
  unfold bind, Stateful.call, call, P, C, constant_probe, constant_context.
  destruct (snd (checker ctx _)); [reflexivity |].
  destruct (negb (fst (checker ctx _))); [reflexivity | apply IH].
Qed.

Lemma stateful_findUpperBoundConcurrent_loop fuel maxPage : forall page tr,
  Stateful.findUpperBoundConcurrent_loop fuel C P maxPage page tr
  = findUpperBoundConcurrent_loop fuel ctx checker maxPage page tr.
Proof.
  induction fuel as [| fuel IH]; intros page tr; cbn; [reflexivity |].
  destruct (page <? maxPage); [| reflexivity].
  unfold bind, Stateful.call, call, P, C, constant_probe, constant_context.
  destruct (snd (checker ctx _)); [reflexivity |].
  destruct (negb (fst (checker ctx _))); [reflexivity | apply IH].
Qed.

Lemma stateful_binarySearch_loop fuel : forall left right lv tr,
  Stateful.binarySearch_loop fuel C P left right lv tr
  = binarySearch_loop fuel ctx checker left right lv tr.
Proof.
  induction fuel as [| fuel IH]; intros left right lv tr; cbn; [reflexivity |].
  destruct (left <=? right); [| reflexivity].
  unfold bind, Stateful.Err, Stateful.call, call, P, C, constant_probe,
    constant_context.
  destruct (ctx_Err ctx); [reflexivity |].
  destruct (snd (checker ctx _)); [reflexivity |].
  destruct (fst (checker ctx _)); apply IH.
Qed.

Lemma stateful_linearScan fuel : forall left page lv tr,
  Stateful.linearScan fuel C P left page lv tr
  = linearScan fuel ctx checker left page lv tr.
Proof.
  induction fuel as [| fuel IH]; intros left page lv tr; cbn; [reflexivity |].
  destruct (page >=? left); [| reflexivity].
  unfold bind, Stateful.call, call, P, C, constant_probe, constant_context.
  destruct (snd (checker ctx _)); [reflexivity |].
  destruct (fst (checker ctx _)); [reflexivity | apply IH].
Qed.

Lemma stateful_probePair il mid1 mid2 tr :
  Stateful.probePair il P C mid1 mid2 tr = probePair il checker ctx mid1 mid2 tr.
Proof.
  unfold Stateful.probePair, probePair, P, C, constant_probe, constant_context.
  destruct (calls_swapped il); reflexivity.
Qed.

Lemma stateful_binarySearchConcurrent_loop fuel : forall sched left right lv tr,
  Stateful.binarySearchConcurrent_loop fuel sched C P left right lv tr
  = binarySearchConcurrent_loop fuel sched ctx checker left right lv tr.
Proof.
  induction fuel as [| fuel IH]; intros sched left right lv tr; cbn; [reflexivity |].
  destruct (left <=? right); [| reflexivity].
  unfold bind at 1. unfold Stateful.Err. fold C. 
  change (ctx_Err (C tr)) with (ctx_Err ctx).
  destruct (ctx_Err ctx); [reflexivity |].
  destruct (sub right left <=? 3); [apply stateful_linearScan |].
  unfold bind. rewrite stateful_probePair.
  destruct (probePair _ _ _ _ _ _) as [[results |] tr1]; [| reflexivity].
  destruct (collect _ _ _ _ _) as [err | [m1 m2]]; [reflexivity |].
  destruct m2; [| destruct m1]; apply IH.
Qed.

Lemma stateful_finders_at_constant fuel sched maxPage tr :
  Stateful.FindTotalPages fuel C P maxPage tr = FindTotalPages fuel ctx checker maxPage tr
  /\ Stateful.FindTotalPagesConcurrent fuel sched C P maxPage tr
     = FindTotalPagesConcurrent fuel sched ctx checker maxPage tr.
Proof.
  rewrite FindTotalPages_unfold, FindTotalPagesConcurrent_unfold.
  rewrite Stateful_FindTotalPages_unfold, Stateful_FindTotalPagesConcurrent_unfold.
  cbv zeta. change (P tr (C tr) 1) with (checker ctx 1).
  destruct (checker ctx 1) as [[|] [e |]]; try (split; reflexivity).
  unfold Stateful.findUpperBound, findUpperBound, Stateful.binarySearch, binarySearch,
    Stateful.binarySearchConcurrent, binarySearchConcurrent.
  rewrite stateful_findUpperBound_loop.
  destruct (findUpperBound_loop _ _ _ _ _ _) as [[[ub [e |]] |] tr1];
    try (split; reflexivity).
  destruct (ub =? normalize maxPage); [split; reflexivity |].
  rewrite stateful_binarySearch_loop, stateful_binarySearchConcurrent_loop.
  split; reflexivity.
Qed.

End Conformance.

(** ** Runs of the stateful finders, answer by answer *)

Lemma answers_app checker ctx : forall l1 tr l2,
  answers checker ctx tr (l1 ++ l2)
  = answers checker ctx tr l1 ++ answers checker ctx (tr ++ l1) l2.
Proof.
  induction l1 as [| p l1 IH]; intros tr l2; cbn.
  - now rewrite app_nil_r.
  - rewrite IH, <- app_assoc. reflexivity.
Qed.

Lemma no_bad_in_good {A} (good : A -> Prop) (l pre : list A) x post :
  Forall good l -> ~ good x -> l <> pre ++ x :: post.
Proof.
  intros Hl Hx ->. apply Forall_app in Hl as [_ Hl]. inversion Hl; subst.
  contradiction.
Qed.

Section Runs.

Variables (ctx : Stateful.LiveContext) (checker : Stateful.PageChecker).

Lemma growth_run (m : Z) (fuel : nat) : forall page tr,
  exists new r,
    Stateful.findUpperBound_loop fuel ctx checker m page tr = (r, tr ++ new)
    /\ match r with
       | None => Forall gave_data (answers checker ctx tr new)
       | Some (v, Some e) =>
         v = 0 /\ exists pre d,
           answers checker ctx tr new = pre ++ [(d, Some e)] /\ Forall gave_data pre
       | Some (v, None) =>
         v = m /\ Forall gave_data (answers checker ctx tr new)
         \/ exists pre,
              answers checker ctx tr new = pre ++ [(false, None)]
              /\ Forall gave_data pre /\ last new 0 = v
       end.
Proof.
  induction fuel as [| fuel IH]; intros page tr; cbn [Stateful.findUpperBound_loop].
  - exists [], None. rewrite app_nil_r. split; [reflexivity | constructor].
  - destruct (page <? m).
    2:{ exists [], (Some (m, None)). rewrite app_nil_r. split; [reflexivity |]. left.
        split; [reflexivity | constructor]. }
    cbv zeta. set (nextPage := if mul page 2 >? m then m else mul page 2).
    unfold bind, Stateful.call.
    destruct (checker tr (ctx tr) nextPage) as [d [e |]] eqn:Ea; cbn [fst snd].
    + exists [nextPage], (Some (0, Some e)). cbn. rewrite Ea. split; [reflexivity |].
      split; [reflexivity |]. exists [], d. split; [reflexivity | constructor].
    + destruct d; cbn [negb].
      * destruct (IH nextPage (tr ++ [nextPage])) as (new & r & Hrun & Hres).
        exists (nextPage :: new), r. rewrite Hrun, <- app_assoc.
        split; [reflexivity |]. cbn [answers]. rewrite Ea.
        destruct r as [[v [e |]] |].
        -- destruct Hres as (-> & pre & d0 & Hpre & Hok). split; [reflexivity |].
           exists ((true, None) :: pre), d0. rewrite Hpre. split; [reflexivity |].
           constructor; [reflexivity | exact Hok].
        -- destruct Hres as [[-> Hok] | (pre & Hpre & Hok & Hlast)].
           ++ left. split; [reflexivity |]. constructor; [reflexivity | exact Hok].
           ++ right. exists ((true, None) :: pre). rewrite Hpre.
              split; [reflexivity |]. split; [constructor; [reflexivity | exact Hok] |].
              destruct new as [| q new]; [destruct pre; discriminate |]. exact Hlast.
        -- constructor; [reflexivity | exact Hres].
      * exists [nextPage], (Some (nextPage, None)). cbn. rewrite Ea.
        split; [reflexivity |]. right.
        exists []. repeat split. constructor.
Qed.

(** The search loop of the sequential finder: every probe is issued
    while the context is not done. *)
Lemma search_run (fuel : nat) : forall left right lv tr,
  exists new r,
    Stateful.binarySearch_loop fuel ctx checker left right lv tr = (r, tr ++ new)
    /\ (forall h p rest, new = h ++ p :: rest -> ctx_Err (ctx (tr ++ h)) = None)
    /\ match r with
       | Some (v, Some e) =>
         v = 0
         /\ ((exists pre d,
                answers checker ctx tr new = pre ++ [(d, Some e)]
                /\ Forall gave_no_error pre)
             \/ Forall gave_no_error (answers checker ctx tr new)
                /\ ctx_Err (ctx (tr ++ new)) = Some e)
       | _ => Forall gave_no_error (answers checker ctx tr new)
       end.
Proof.
  induction fuel as [| fuel IH]; intros left right lv tr;
    cbn [Stateful.binarySearch_loop].
  - exists [], None. rewrite app_nil_r. split; [reflexivity |].
    split; [intros [|] ? ? ?; discriminate | constructor].
  - destruct (left <=? right).
    2:{ exists [], (Some (lv, None)). rewrite app_nil_r. split; [reflexivity |].
        split; [intros [|] ? ? ?; discriminate | constructor]. }
    unfold bind at 1, Stateful.Err.
    destruct (ctx_Err (ctx tr)) as [cerr |] eqn:Ec.
    { exists [], (Some (0, Some cerr)). rewrite app_nil_r. split; [reflexivity |].
      split; [intros [|] ? ? ?; discriminate |]. split; [reflexivity |]. right.
      split; [constructor | exact Ec]. }
    cbv zeta. set (mid := add left (div (sub right left) 2)).
    unfold bind, Stateful.call.
    destruct (checker tr (ctx tr) mid) as [d [e |]] eqn:Ea; cbn [fst snd].
    + exists [mid], (Some (0, Some e)). split; [reflexivity |]. split.
      * intros [| q h] p rest E; [now rewrite app_nil_r |].
        injection E as _ E. destruct h; discriminate.
      * split; [reflexivity |]. left. exists [], d. cbn. rewrite Ea.
        split; [reflexivity | constructor].
    + assert (Hstep : forall l r lv',
        exists new r0,
          Stateful.binarySearch_loop fuel ctx checker l r lv' (tr ++ [mid])
          = (r0, tr ++ mid :: new)
          /\ (forall h p rest, mid :: new = h ++ p :: rest ->
              ctx_Err (ctx (tr ++ h)) = None)
          /\ match r0 with
             | Some (v, Some e) =>
               v = 0
               /\ ((exists pre d0,
                      answers checker ctx tr (mid :: new) = pre ++ [(d0, Some e)]
                      /\ Forall gave_no_error pre)
                   \/ Forall gave_no_error (answers checker ctx tr (mid :: new))
                      /\ ctx_Err (ctx (tr ++ mid :: new)) = Some e)
             | _ => Forall gave_no_error (answers checker ctx tr (mid :: new))
             end).
      { intros l r lv'.
        destruct (IH l r lv' (tr ++ [mid])) as (new & r0 & Hrun & Hctx & Hres).
        exists new, r0. rewrite Hrun, <- app_assoc. split; [reflexivity |]. split.
        - intros [| q h] p rest E; cbn in E.
          + now rewrite app_nil_r.
          + injection E as <- E. specialize (Hctx h p rest E).
            now rewrite <- app_assoc in Hctx.
        - cbn [answers]. rewrite Ea.
          assert (Hd : gave_no_error (d, @None error)) by reflexivity.
          destruct r0 as [[v [e |]] |].
          + destruct Hres as [-> [(pre & d0 & Hpre & Hok) | [Hok Hc]]];
              (split; [reflexivity |]).
            * left. exists ((d, None) :: pre), d0. rewrite Hpre.
              split; [reflexivity | now constructor].
            * right. split; [now constructor |]. now rewrite <- app_assoc in Hc.
          + now constructor.
          + now constructor. }
      destruct d;
        [destruct (Hstep (add mid 1) right mid) as (new & r0 & H1 & H2 & H3)
        | destruct (Hstep left (sub mid 1) lv) as (new & r0 & H1 & H2 & H3)];
        exists (mid :: new), r0; auto.
Qed.

End Runs.

Lemma gave_data_no_error l : Forall gave_data l -> Forall gave_no_error l.
Proof. apply Forall_impl. now intros a ->. Qed.

Lemma error_is_bad d e : ~ gave_no_error (d, Some e).
Proof. discriminate. Qed.

(** The sequential finder, phase by phase, in terms of the answers. *)
Lemma FindTotalPages_answers fuel ctx checker maxPage :
  let tr := trace_of (Stateful.FindTotalPages fuel ctx checker maxPage) in
  let res := result_of (Stateful.FindTotalPages fuel ctx checker maxPage) in
  let ans := answers checker ctx [] tr in
  (* no probe failed *)
  Forall gave_no_error ans
  /\ (forall v e, res = Some (v, Some e) ->
      exists cerr growth search,
        e = Wrapf msgBinarySearch cerr /\ v = 0
        /\ ctx_Err (ctx tr) = Some cerr
        /\ ans = growth ++ (false, None) :: search
        /\ growth <> [] /\ Forall gave_data growth)
  \/ (* a probe failed: it is the last one *)
  exists pre d e prefix,
    ans = pre ++ [(d, Some e)]
    /\ Forall gave_no_error pre
    /\ res = Some (0, Some (Wrapf prefix e))
    /\ (pre = [] /\ prefix = msgPage1
        \/ pre <> [] /\ Forall gave_data pre /\ prefix = msgUpperBound
        \/ exists growth search,
             pre = growth ++ (false, None) :: search
             /\ growth <> [] /\ Forall gave_data growth
             /\ Forall gave_no_error search
             /\ prefix = msgBinarySearch).
Proof.
  cbv zeta. unfold trace_of, result_of, run.
  rewrite Stateful_FindTotalPages_unfold. cbv zeta. cbn [app].
  destruct (checker [] (ctx []) 1) as [d1 [e1 |]] eqn:E1.
  { (* page 1 fails *)
    right. exists [], d1, e1, msgPage1.
    destruct d1; cbn; rewrite E1; repeat split; auto. }
  destruct d1.
  2:{ left. cbn. rewrite E1. split; [repeat constructor |]. intros; discriminate. }
  unfold Stateful.findUpperBound.
  destruct (growth_run ctx checker (normalize maxPage) fuel 1 [1])
    as (gnew & gr & Hg & Hgres).
  rewrite Hg.
  assert (Hans : forall l,
    answers checker ctx [] ([1] ++ l) = (true, None) :: answers checker ctx [1] l).
  { intros l. cbn. now rewrite E1. }
  destruct gr as [[ub [e |]] |].
  - (* the growth phase fails *)
    destruct Hgres as (_ & gpre & d & Hgpre & Hgok).
    right. exists ((true, None) :: gpre), d, e, msgUpperBound.
    cbn [fst snd]. rewrite Hans, Hgpre.
    split; [reflexivity |]. split.
    { constructor; [reflexivity | now apply gave_data_no_error]. }
    split; [reflexivity |]. right. left.
    split; [discriminate |]. split; [| reflexivity]. now constructor.
  - destruct (Z.eqb_spec ub (normalize maxPage)) as [Hub | Hub].
    { left. cbn [fst snd]. rewrite Hans. split; [| intros; discriminate].
      constructor; [reflexivity |].
      destruct Hgres as [[_ Hok] | (gpre & -> & Hok & _)].
      - now apply gave_data_no_error.
      - apply Forall_app. split; [now apply gave_data_no_error | repeat constructor]. }
    destruct Hgres as [[Hm _] | (gpre & Hgpre & Hgok & _)]; [contradiction |].
    unfold Stateful.binarySearch.
    destruct (search_run ctx checker fuel (div ub 2) ub (div ub 2) ([1] ++ gnew))
      as (snew & sr & Hs & Hsctx & Hsres).
    rewrite Hs. rewrite <- app_assoc.
    assert (Hall : answers checker ctx [] ([1] ++ gnew ++ snew)
                   = ((true, None) :: gpre) ++ (false, None)
                     :: answers checker ctx ([1] ++ gnew) snew).
    { rewrite Hans, answers_app, Hgpre, <- app_assoc. reflexivity. }
    assert (Hgrowth : Forall gave_data ((true, None) :: gpre)) by now constructor.
    destruct sr as [[lp [e |]] |]; cbn [fst snd].
    + destruct Hsres as [_ [(spre & d & Hspre & Hsok) | [Hsok Hc]]].
      * right.
        exists (((true, None) :: gpre) ++ (false, None) :: spre), d, e, msgBinarySearch.
        rewrite Hall, Hspre.
        split; [now rewrite <- app_assoc, <- app_comm_cons |]. split.
        { apply Forall_app. split; [now apply gave_data_no_error |].
          constructor; [reflexivity | exact Hsok]. }
        split; [reflexivity |]. right. right.
        exists ((true, None) :: gpre), spre.
        split; [reflexivity |]. split; [discriminate |]. auto.
      * left. rewrite Hall. split.
        { apply Forall_app. split; [now apply gave_data_no_error |].
          constructor; [reflexivity | exact Hsok]. }
        intros v e0 H. injection H as <- <-.
        exists e, ((true, None) :: gpre), (answers checker ctx ([1] ++ gnew) snew).
        rewrite <- app_assoc in Hc.
        split; [reflexivity |]. split; [reflexivity |]. split; [exact Hc |].
        split; [reflexivity |]. split; [discriminate | exact Hgrowth].
    + left. rewrite Hall. split; [| intros; discriminate].
      apply Forall_app. split; [now apply gave_data_no_error |].
      constructor; [reflexivity | exact Hsres].
    + left. rewrite Hall. split; [| intros; discriminate].
      apply Forall_app. split; [now apply gave_data_no_error |].
      constructor; [reflexivity | exact Hsres].
  - left. cbn [fst snd]. rewrite Hans. split; [| intros; discriminate].
    constructor; [reflexivity | now apply gave_data_no_error].
Qed.

Lemma only_bad_is_last {A} (good : A -> Prop) (pre' : list A) x' :
  Forall good pre' -> forall pre x post, ~ good x ->
  pre ++ x :: post = pre' ++ [x'] ->
  pre = pre' /\ x = x' /\ post = [].
Proof.
  induction pre' as [| a pre' IH]; intros Hp pre x post Hx E.
  - destruct pre as [| b pre]; cbn in E.
    + injection E as -> ->. auto.
    + injection E as _ E. destruct pre; discriminate.
  - inversion Hp; subst. destruct pre as [| b pre]; cbn in E.
    + injection E as -> _. contradiction.
    + injection E as -> E. destruct (IH ltac:(assumption) pre x post Hx E) as (-> & -> & ->).
      auto.
Qed.

(** C4, amended. Whenever an invocation of the probe by the sequential
    finder returns an error, whatever the probe answered before and
    whatever the context does, that invocation is the last one, no
    invocation before it failed, the value returned is 0 and the error
    returned is the error of that invocation wrapped under the message of
    its phase: "failed to check page 1: " when it is the first invocation,
    "failed to find upper bound: " when every invocation before it found
    data (a growth probe), "binary search failed: " when an invocation
    after the first had found no data (a search probe).  Only the first
    message names a page. *)
Theorem probe_error_aborts_search
  (fuel : nat) (ctx : Stateful.LiveContext) (checker : Stateful.PageChecker)
  (maxPage : Z) (pre post : list (bool * option error)) (d : bool) (e : error) :
  answers checker ctx [] (trace_of (Stateful.FindTotalPages fuel ctx checker maxPage))
  = pre ++ (d, Some e) :: post ->
  post = []
  /\ Forall gave_no_error pre
  /\ exists prefix,
       result_of (Stateful.FindTotalPages fuel ctx checker maxPage)
       = Some (0, Some (Wrapf prefix e))
       /\ (pre = [] /\ prefix = msgPage1
           \/ pre <> [] /\ Forall gave_data pre /\ prefix = msgUpperBound
           \/ exists growth search,
                pre = growth ++ (false, None) :: search
                /\ growth <> [] /\ Forall gave_data growth
                /\ Forall gave_no_error search
                /\ prefix = msgBinarySearch).
Proof.
  intros Hsplit.
  destruct (FindTotalPages_answers fuel ctx checker maxPage)
    as [[Hok _] | (pre' & d' & e' & prefix & Hans & Hpre & Hres & Hphase)].
  - exfalso. rewrite Hsplit in Hok.
    exact (no_bad_in_good _ _ pre (d, Some e) post Hok (error_is_bad d e) eq_refl).
  - rewrite Hans in Hsplit. symmetry in Hsplit.
    destruct (only_bad_is_last _ pre' (d', Some e') Hpre pre (d, Some e) post
                (error_is_bad d e) Hsplit) as (-> & E & ->).
    injection E as -> ->.
    split; [reflexivity |]. split; [exact Hpre |]. now exists prefix.
Qed.

Lemma probe_error_aborts_search_witness :
  @nil (bool * option error) = []
  /\ Forall gave_no_error [(true, @None error); (false, None)]
  /\ exists prefix,
       result_of (Stateful.FindTotalPages 64 (constant_context Background)
                    (fails_on_call 2 (ErrorString "flaky") (threshold 1)) 1000)
       = Some (0, Some (Wrapf prefix (ErrorString "flaky")))
       /\ ([(true, @None error); (false, None)] = [] /\ prefix = msgPage1
           \/ [(true, @None error); (false, None)] <> []
              /\ Forall gave_data [(true, @None error); (false, None)]
              /\ prefix = msgUpperBound
           \/ exists growth search,
                [(true, @None error); (false, None)]
                = growth ++ (false, None) :: search
                /\ growth <> [] /\ Forall gave_data growth
                /\ Forall gave_no_error search
                /\ prefix = msgBinarySearch).
Proof.
  apply (probe_error_aborts_search 64 (constant_context Background)
           (fails_on_call 2 (ErrorString "flaky") (threshold 1)) 1000
           [(true, None); (false, None)] [] false (ErrorString "flaky")).
  vm_compute. reflexivity.
Defined.

(** The third invocation of that run probes page 1 again, which had data
    at the first one. *)
Example failing_invocation_of_a_page_that_had_data :
  run (Stateful.FindTotalPages 64 (constant_context Background)
         (fails_on_call 2 (ErrorString "flaky") (threshold 1)) 1000)
  = (Some (0, Some (Wrapf msgBinarySearch (ErrorString "flaky"))), [1; 2; 1]).
Proof. vm_compute. reflexivity. Qed.

(** ** The concurrent search, answer by answer *)

Lemma aborted_with_cons a ans e :
  gave_no_error a -> aborted_with ans e -> aborted_with (a :: ans) e.
Proof.
  intros Ha (pre & d & e0 & post & -> & Hpre & Hpost).
  exists (a :: pre), d, e0, post. split; [reflexivity |]. split; [now constructor | exact Hpost].
Qed.

Lemma aborted_with_app l ans e :
  Forall gave_no_error l -> aborted_with ans e -> aborted_with (l ++ ans) e.
Proof.
  induction l as [| a l IH]; intros Hl H; [exact H |].
  inversion Hl; subst. cbn. apply aborted_with_cons; auto.
Qed.

Section ConcurrentRuns.

Variables (ctx : Stateful.LiveContext) (checker : Stateful.PageChecker).

Lemma scan_run (fuel : nat) : forall left page lv tr,
  exists new r,
    Stateful.linearScan fuel ctx checker left page lv tr = (r, tr ++ new)
    /\ match r with
       | Some (v, Some e) =>
         v = 0 /\ exists pre d,
           answers checker ctx tr new = pre ++ [(d, Some e)]
           /\ Forall gave_no_error pre
       | _ => Forall gave_no_error (answers checker ctx tr new)
       end.
Proof.
  induction fuel as [| fuel IH]; intros left page lv tr; cbn [Stateful.linearScan].
  - exists [], None. rewrite app_nil_r. split; [reflexivity | constructor].
  - destruct (page >=? left).
    2:{ exists [], (Some (lv, None)). rewrite app_nil_r.
        split; [reflexivity | constructor]. }
    unfold bind, Stateful.call.
    destruct (checker tr (ctx tr) page) as [d [e |]] eqn:Ea; cbn [fst snd].
    + exists [page], (Some (0, Some e)). cbn. rewrite Ea. split; [reflexivity |].
      split; [reflexivity |]. exists [], d. split; [reflexivity | constructor].
    + destruct d.
      * exists [page], (Some (page, None)). cbn. rewrite Ea.
        split; [reflexivity | repeat constructor].
      * destruct (IH left (sub page 1) lv (tr ++ [page])) as (new & r & Hrun & Hres).
        exists (page :: new), r. rewrite Hrun, <- app_assoc. split; [reflexivity |].
        cbn [answers]. rewrite Ea.
        assert (Hd : gave_no_error (false, @None error)) by reflexivity.
        destruct r as [[v [e |]] |].
        -- destruct Hres as (-> & pre & d0 & Hpre & Hok). split; [reflexivity |].
           exists ((false, None) :: pre), d0. rewrite Hpre.
           split; [reflexivity | now constructor].
        -- now constructor.
        -- now constructor.
Qed.

(** One ternary round: the two answers in call order, and what [collect]
    makes of them. *)
Lemma round_run (il : Interleaving) (mid1 mid2 : Z) (tr : Trace) :
  mid1 <> mid2 ->
  exists first second a b results,
    Stateful.probePair il checker ctx mid1 mid2 tr
    = (Some results, tr ++ [first; second])
    /\ answers checker ctx tr [first; second] = [a; b]
    /\ match collect results mid1 mid2 false false with
       | inl e =>
         (exists e0, snd a = Some e0 /\ (e = e0 \/ snd b = Some e))
         \/ snd a = None /\ snd b = Some e
       | inr (m1, m2) =>
         snd a = None /\ snd b = None
       end.
Proof.
  intros Hne.
  assert (N : (mid2 =? mid1) = false) by (apply Z.eqb_neq; congruence).
  unfold Stateful.probePair. cbv zeta.
  destruct (calls_swapped il).
  - exists mid2, mid1, (checker tr (ctx tr) mid2),
      (checker (tr ++ [mid2]) (ctx (tr ++ [mid2])) mid1).
    eexists. split; [reflexivity |]. split; [reflexivity |].
    destruct (checker tr (ctx tr) mid2) as [d2 [e2 |]];
      destruct (checker (tr ++ [mid2]) (ctx (tr ++ [mid2])) mid1) as [d1 [e1 |]];
      destruct (delivery_swapped il); cbn; rewrite ?Z.eqb_refl, ?N; cbn; eauto 6.
  - exists mid1, mid2, (checker tr (ctx tr) mid1),
      (checker (tr ++ [mid1]) (ctx (tr ++ [mid1])) mid2).
    eexists. split; [reflexivity |]. split; [reflexivity |].
    destruct (checker tr (ctx tr) mid1) as [d1 [e1 |]];
      destruct (checker (tr ++ [mid1]) (ctx (tr ++ [mid1])) mid2) as [d2 [e2 |]];
      destruct (delivery_swapped il); cbn; rewrite ?Z.eqb_refl, ?N; cbn; eauto 6.
Qed.

Lemma csearch_run (fuel : nat) : forall sched left right lv tr,
  exists new r,
    Stateful.binarySearchConcurrent_loop fuel sched ctx checker left right lv tr
    = (r, tr ++ new)
    /\ match r with
       | Some (v, Some e) =>
         v = 0
         /\ (aborted_with (answers checker ctx tr new) e
             \/ Forall gave_no_error (answers checker ctx tr new)
                /\ ctx_Err (ctx (tr ++ new)) = Some e)
       | _ => Forall gave_no_error (answers checker ctx tr new)
       end.
Proof.
  induction fuel as [| fuel IH]; intros sched left right lv tr;
    cbn [Stateful.binarySearchConcurrent_loop].
  - exists [], None. rewrite app_nil_r. split; [reflexivity | constructor].
  - destruct (left <=? right).
    2:{ exists [], (Some (lv, None)). rewrite app_nil_r.
        split; [reflexivity | constructor]. }
    unfold bind at 1, Stateful.Err.
    destruct (ctx_Err (ctx tr)) as [cerr |] eqn:Ec.
    { exists [], (Some (0, Some cerr)). rewrite app_nil_r. split; [reflexivity |].
      split; [reflexivity |]. right. split; [constructor | exact Ec]. }
    destruct (sub right left <=? 3) eqn:Ed.
    { destruct (scan_run fuel left right lv tr) as (new & r & Hrun & Hres).
      exists new, r. split; [exact Hrun |].
      destruct r as [[v [e |]] |]; try exact Hres.
      destruct Hres as (-> & pre & d & Hpre & Hok). split; [reflexivity |]. left.
      exists pre, d, e, []. rewrite Hpre. auto. }
    pose proof (mids_differ left right Ed) as Hne. cbv zeta.
    set (mid1 := add left (div (sub right left) 3)) in *.
    set (mid2 := add left (div (mul 2 (sub right left)) 3)) in *.
    destruct (round_run (sched O) mid1 mid2 tr Hne)
      as (first & second & a & b & results & Hpair & Hab & Hcol).
    unfold bind. rewrite Hpair.
    destruct (collect results mid1 mid2 false false) as [e | [m1 m2]].
    + exists [first; second], (Some (0, Some e)). split; [reflexivity |].
      split; [reflexivity |]. left. rewrite Hab.
      destruct Hcol as [(e0 & Ha & He) | [Ha Hb]].
      * exists [], (fst a), e0, [b]. destruct a as [da ea]; cbn in Ha; subst ea.
        split; [reflexivity |]. split; [constructor |]. right. exists b. auto.
      * exists [a], (fst b), e, []. destruct b as [db eb]; cbn in Hb; subst eb.
        split; [reflexivity |]. split; [repeat constructor; exact Ha |]. auto.
    + destruct Hcol as [Ha Hb].
      assert (Hstep : forall l r lv',
        exists new r0,
          Stateful.binarySearchConcurrent_loop fuel (next_round sched) ctx checker
            l r lv' (tr ++ [first; second]) = (r0, tr ++ first :: second :: new)
          /\ match r0 with
             | Some (v, Some e) =>
               v = 0
               /\ (aborted_with (answers checker ctx tr (first :: second :: new)) e
                   \/ Forall gave_no_error
                        (answers checker ctx tr (first :: second :: new))
                      /\ ctx_Err (ctx (tr ++ first :: second :: new)) = Some e)
             | _ => Forall gave_no_error
                      (answers checker ctx tr (first :: second :: new))
             end).
      { intros l r lv'.
        destruct (IH (next_round sched) l r lv' (tr ++ [first; second]))
          as (new & r0 & Hrun & Hres).
        exists new, r0. rewrite Hrun, <- app_assoc. split; [reflexivity |].
        change (first :: second :: new) with ([first; second] ++ new).
        rewrite answers_app, Hab.
        assert (Hok : Forall gave_no_error [a; b]) by (repeat constructor; assumption).
        destruct r0 as [[v [e |]] |].
        - destruct Hres as [-> [Hab' | [Hall Hc]]]; (split; [reflexivity |]).
          + left. now apply aborted_with_app.
          + right. split; [apply Forall_app; auto |].
            now rewrite <- app_assoc in Hc.
        - apply Forall_app; auto.
        - apply Forall_app; auto. }
      destruct m2; [| destruct m1];
        [destruct (Hstep (add mid2 1) right mid2) as (new & r0 & H1 & H2)
        | destruct (Hstep (add mid1 1) (sub mid2 1) mid1) as (new & r0 & H1 & H2)
        | destruct (Hstep left (sub mid1 1) lv) as (new & r0 & H1 & H2)];
        exists (first :: second :: new), r0; auto.
Qed.

End ConcurrentRuns.

(** ** Without overflow: the growth phase returns, within the ceiling *)

Section Growth.

Variables (ctx : Stateful.LiveContext) (checker : Stateful.PageChecker).



End Growth.

(** ** A context that is done before the call *)



(** ** The context is read at the top of every search iteration *)





Section ConcurrentSampling.
Variable ctx : Stateful.LiveContext.
Variable checker : Stateful.PageChecker.



End ConcurrentSampling.


(** ** The concurrent finder, answer by answer *)

Lemma FindTotalPagesConcurrent_answers fuel sched ctx checker maxPage :
  let tr := trace_of (Stateful.FindTotalPagesConcurrent fuel sched ctx checker maxPage) in
  let res := result_of (Stateful.FindTotalPagesConcurrent fuel sched ctx checker maxPage) in
  let ans := answers checker ctx [] tr in
  Forall gave_no_error ans
  /\ (forall v e, res = Some (v, Some e) ->
      exists cerr growth search,
        e = Wrapf msgBinarySearch cerr /\ v = 0
        /\ ctx_Err (ctx tr) = Some cerr
        /\ ans = growth ++ (false, None) :: search
        /\ growth <> [] /\ Forall gave_data growth)
  \/ exists pre d e0 post e prefix,
    ans = pre ++ (d, Some e0) :: post
    /\ Forall gave_no_error pre
    /\ (post = [] /\ e = e0 \/ exists a, post = [a] /\ (e = e0 \/ snd a = Some e))
    /\ res = Some (0, Some (Wrapf prefix e))
    /\ (pre = [] /\ post = [] /\ prefix = msgPage1
        \/ pre <> [] /\ Forall gave_data pre /\ post = [] /\ prefix = msgUpperBound
        \/ exists growth search,
             pre = growth ++ (false, None) :: search
             /\ growth <> [] /\ Forall gave_data growth
             /\ Forall gave_no_error search
             /\ prefix = msgBinarySearch).
Proof.
  cbv zeta. unfold trace_of, result_of, run.
  rewrite Stateful_FindTotalPagesConcurrent_unfold. cbv zeta. cbn [app].
  destruct (checker [] (ctx []) 1) as [d1 [e1 |]] eqn:E1.
  { right. exists [], d1, e1, [], e1, msgPage1.
    destruct d1; cbn; rewrite E1; repeat split; auto. }
  destruct d1.
  2:{ left. cbn. rewrite E1. split; [repeat constructor |]. intros; discriminate. }
  unfold Stateful.findUpperBound.
  destruct (growth_run ctx checker (normalize maxPage) fuel 1 [1])
    as (gnew & gr & Hg & Hgres).
  rewrite Hg.
  assert (Hans : forall l,
    answers checker ctx [] ([1] ++ l) = (true, None) :: answers checker ctx [1] l).
  { intros l. cbn. now rewrite E1. }
  destruct gr as [[ub [e |]] |].
  - destruct Hgres as (_ & gpre & d & Hgpre & Hgok).
    right. exists ((true, None) :: gpre), d, e, [], e, msgUpperBound.
    cbn [fst snd]. rewrite Hans, Hgpre.
    split; [reflexivity |]. split.
    { constructor; [reflexivity | now apply gave_data_no_error]. }
    split; [now left |].
    split; [reflexivity |]. right. left.
    split; [discriminate |]. split; [now constructor | auto].
  - destruct (Z.eqb_spec ub (normalize maxPage)) as [Hub | Hub].
    { left. cbn [fst snd]. rewrite Hans. split; [| intros; discriminate].
      constructor; [reflexivity |].
      destruct Hgres as [[_ Hok] | (gpre & -> & Hok & _)].
      - now apply gave_data_no_error.
      - apply Forall_app. split; [now apply gave_data_no_error | repeat constructor]. }
    destruct Hgres as [[Hm _] | (gpre & Hgpre & Hgok & _)]; [contradiction |].
    unfold Stateful.binarySearchConcurrent.
    destruct (csearch_run ctx checker fuel sched (div ub 2) ub (div ub 2) ([1] ++ gnew))
      as (snew & sr & Hs & Hsres).
    rewrite Hs. rewrite <- app_assoc.
    assert (Hall : answers checker ctx [] ([1] ++ gnew ++ snew)
                   = ((true, None) :: gpre) ++ (false, None)
                     :: answers checker ctx ([1] ++ gnew) snew).
    { rewrite Hans, answers_app, Hgpre, <- app_assoc. reflexivity. }
    assert (Hgrowth : Forall gave_data ((true, None) :: gpre)) by now constructor.
    destruct sr as [[lp [e |]] |]; cbn [fst snd].
    + destruct Hsres as [_ [(spre & d & e0 & post & Hspre & Hsok & Hpost) | [Hsok Hc]]].
      * right.
        exists (((true, None) :: gpre) ++ (false, None) :: spre), d, e0, post, e,
          msgBinarySearch.
        rewrite Hall, Hspre.
        split; [now rewrite <- app_assoc, <- app_comm_cons |]. split.
        { apply Forall_app. split; [now apply gave_data_no_error |].
          constructor; [reflexivity | exact Hsok]. }
        split; [exact Hpost |].
        split; [reflexivity |]. right. right.
        exists ((true, None) :: gpre), spre.
        split; [reflexivity |]. split; [discriminate |]. auto.
      * left. rewrite Hall. split.
        { apply Forall_app. split; [now apply gave_data_no_error |].
          constructor; [reflexivity | exact Hsok]. }
        intros v e0 H. injection H as <- <-.
        exists e, ((true, None) :: gpre), (answers checker ctx ([1] ++ gnew) snew).
        rewrite <- app_assoc in Hc.
        split; [reflexivity |]. split; [reflexivity |]. split; [exact Hc |].
        split; [reflexivity |]. split; [discriminate | exact Hgrowth].
    + left. rewrite Hall. split; [| intros; discriminate].
      apply Forall_app. split; [now apply gave_data_no_error |].
      constructor; [reflexivity | exact Hsres].
    + left. rewrite Hall. split; [| intros; discriminate].
      apply Forall_app. split; [now apply gave_data_no_error |].
      constructor; [reflexivity | exact Hsres].
  - left. cbn [fst snd]. rewrite Hans. split; [| intros; discriminate].
    constructor; [reflexivity | now apply gave_data_no_error].
Qed.

Lemma first_bad_is_earliest {A} (good : A -> Prop) (pre0 : list A) :
  Forall good pre0 -> forall pre x post y post0, ~ good x ->
  pre ++ x :: post = pre0 ++ y :: post0 ->
  (List.length post <= List.length post0)%nat.
Proof.
  induction pre0 as [| a pre0 IH]; intros Hp pre x post y post0 Hx E.
  - apply (f_equal (@List.length A)) in E. rewrite length_app in E. cbn in E. lia.
  - inversion Hp; subst. destruct pre as [| b pre]; cbn in E.
    + injection E as -> _. contradiction.
    + injection E as _ E. exact (IH ltac:(assumption) pre x post y post0 Hx E).
Qed.

(** X8. Whenever an invocation of the probe by the concurrent finder
    returns an error, at most one invocation follows it (the other probe of
    its ternary round, which is always issued).  No invocation failed
    before the first failing one; the finder returns 0 and the error of the
    first failing invocation, or of the one that follows it, wrapped under
    the message of the phase of the first failing invocation:
    "failed to check page 1: " when it is the first invocation,
    "failed to find upper bound: " when every invocation before it found
    data, "binary search failed: " when an invocation after the first had
    found no data; in the first two phases nothing follows the failing
    invocation. *)
Theorem concurrent_probe_error_aborts
  (fuel : nat) (sched : Schedule) (ctx : Stateful.LiveContext)
  (checker : Stateful.PageChecker) (maxPage : Z)
  (pre post : list (bool * option error)) (d : bool) (e : error) :
  answers checker ctx []
    (trace_of (Stateful.FindTotalPagesConcurrent fuel sched ctx checker maxPage))
  = pre ++ (d, Some e) :: post ->
  (List.length post <= 1)%nat
  /\ exists first d0 e0 after e' prefix,
       pre ++ (d, Some e) :: post = first ++ (d0, Some e0) :: after
       /\ Forall gave_no_error first
       /\ (after = [] /\ e' = e0
           \/ exists a, after = [a] /\ (e' = e0 \/ snd a = Some e'))
       /\ result_of (Stateful.FindTotalPagesConcurrent fuel sched ctx checker maxPage)
          = Some (0, Some (Wrapf prefix e'))
       /\ (first = [] /\ after = [] /\ prefix = msgPage1
           \/ first <> [] /\ Forall gave_data first /\ after = []
              /\ prefix = msgUpperBound
           \/ exists growth search,
                first = growth ++ (false, None) :: search
                /\ growth <> [] /\ Forall gave_data growth
                /\ Forall gave_no_error search
                /\ prefix = msgBinarySearch).
Proof.
  intros Hsplit.
  destruct (FindTotalPagesConcurrent_answers fuel sched ctx checker maxPage)
    as [[Hok _] | (pre0 & d0 & e0 & post0 & e' & prefix & Hans & Hpre & Hpost & Hres
                   & Hphase)].
  - exfalso. rewrite Hsplit in Hok.
    exact (no_bad_in_good _ _ pre (d, Some e) post Hok (error_is_bad d e) eq_refl).
  - rewrite Hans in Hsplit. symmetry in Hsplit. split.
    + apply (first_bad_is_earliest _ pre0 Hpre pre (d, Some e) post (d0, Some e0) post0
               (error_is_bad d e)) in Hsplit.
      destruct Hpost as [[-> _] | (a & -> & _)]; cbn in Hsplit; lia.
    + exists pre0, d0, e0, post0, e', prefix. auto.
Qed.

Lemma concurrent_probe_error_aborts_witness :
  (List.length [(false, @None error)] <= 1)%nat
  /\ exists first d0 e0 after e' prefix,
       [(true, None); (true, None); (true, None); (true, None); (true, None);
        (true, None); (true, None); (false, None)]
       ++ (false, Some (ErrorString "flaky")) :: [(false, None)]
       = first ++ (d0, Some e0) :: after
       /\ Forall gave_no_error first
       /\ (after = [] /\ e' = e0
           \/ exists a, after = [a] /\ (e' = e0 \/ snd a = Some e'))
       /\ result_of (Stateful.FindTotalPagesConcurrent 64 in_order
                       (constant_context Background)
                       (fails_on_call 8 (ErrorString "flaky") (threshold 100)) 1000)
          = Some (0, Some (Wrapf prefix e'))
       /\ (first = [] /\ after = [] /\ prefix = msgPage1
           \/ first <> [] /\ Forall gave_data first /\ after = []
              /\ prefix = msgUpperBound
           \/ exists growth search,
                first = growth ++ (false, None) :: search
                /\ growth <> [] /\ Forall gave_data growth
                /\ Forall gave_no_error search
                /\ prefix = msgBinarySearch).
Proof.
  apply (concurrent_probe_error_aborts 64 in_order (constant_context Background)
           (fails_on_call 8 (ErrorString "flaky") (threshold 100)) 1000
           [(true, None); (true, None); (true, None); (true, None); (true, None);
            (true, None); (true, None); (false, None)]
           [(false, None)] false (ErrorString "flaky")).
  vm_compute. reflexivity.
Defined.

(** The failing probe of that run is the first of a ternary round; the
    second one is issued all the same. *)
Example failing_probe_of_a_round :
  run (Stateful.FindTotalPagesConcurrent 64 in_order (constant_context Background)
         (fails_on_call 8 (ErrorString "flaky") (threshold 100)) 1000)
  = (Some (0, Some (Wrapf msgBinarySearch (ErrorString "flaky"))),
     [1; 2; 4; 8; 16; 32; 64; 128; 85; 106]).
Proof. vm_compute. reflexivity. Qed.

(** ** C5: where the context is read *)




(** A context that is done before the call, over 100 pages: the eight
    probes of the page-1 check and of the growth phase, then the error of
    the context. *)
Example cancelled_before_the_call :
  run (Stateful.FindTotalPages 64 (constant_context Cancelled)
         (constant_probe (threshold 100)) 1000)
  = (Some (0, Some (Wrapf msgBinarySearch Canceled)), [1; 2; 4; 8; 16; 32; 64; 128])
  /\ run (Stateful.FindTotalPagesConcurrent 64 in_order (constant_context Cancelled)
            (constant_probe (threshold 100)) 1000)
     = (Some (0, Some (Wrapf msgBinarySearch Canceled)),
        [1; 2; 4; 8; 16; 32; 64; 128]).
Proof. vm_compute. split; reflexivity. Qed.

(** A context that becomes done after the ninth probe: the sequential
    search stops at the top of its next iteration, the concurrent one as
    well (its tenth probe belongs to the round of the ninth). *)
Example cancelled_during_the_search :
  let ctx : Stateful.LiveContext :=
    fun tr => if (List.length tr <=? 8)%nat then Background else Cancelled in
  run (Stateful.FindTotalPages 64 ctx (constant_probe (threshold 100)) 1000)
  = (Some (0, Some (Wrapf msgBinarySearch Canceled)),
     [1; 2; 4; 8; 16; 32; 64; 128; 96])
  /\ run (Stateful.FindTotalPagesConcurrent 64 in_order ctx
            (constant_probe (threshold 100)) 1000)
     = (Some (0, Some (Wrapf msgBinarySearch Canceled)),
        [1; 2; 4; 8; 16; 32; 64; 128; 85; 106]).
Proof. vm_compute. split; reflexivity. Qed.
